(** * epic.caching: memoized calls and dependency-tracked cached properties

    A shallow embedding of [epic/caching/_cache.py], [epic/caching/cached.py]
    and [epic/caching/property.py], and the properties of the specification
    that are settled against it. *)

From stdpp Require Import gmap strings list fin_maps.

Open Scope Z_scope.
Open Scope string_scope.
Open Scope list_scope.

(** ** Python values as seen by [_hash_content] *)

(** Hashable keys of a [dict]: attribute and parameter names are strings,
    cache keys are integer hashes. *)
Inductive Key :=
| KStr (s : string)
| KInt (n : Z).

#[global] Instance Key_eq_dec : EqDecision Key.
Proof. solve_decision. Defined.

#[global] Instance Key_countable : Countable Key.
Proof.
  refine (inj_countable'
            (λ k, match k with KStr s => inl s | KInt n => inr n end)
            (λ x, match x with inl s => KStr s | inr n => KInt n end) _).
  by intros [].
Defined.

(** Values that are hashed as they are: not a mapping, and either not iterable
    or one of [str], [bytes]. *)
Inductive Scalar :=
| SNone
| SBool (b : bool)
| SInt (n : Z)
| SStr (s : string)
| SBytes (s : string).

Definition scalar_typename (s : Scalar) : string :=
  match s with
  | SNone => "NoneType"
  | SBool _ => "bool"
  | SInt _ => "int"
  | SStr _ => "str"
  | SBytes _ => "bytes"
  end.

(** The shapes of object [_hash_content] tells apart.  Every constructor
    that carries a [typename] carries [type(obj).__name__]. *)
#[warnings="-register-all"]
Inductive PyVal :=
| PScalar (s : Scalar)
    (* no [__dict__], hashed raw *)
| PLogger (typename : string) (name : string)
    (* an instance of [logging.getLoggerClass()] *)
| PSeq (typename : string) (elems : list PyVal)
    (* an [Iterable] without [__dict__]: list, tuple, ... *)
| PDict (items : list (Key * PyVal))
    (* a builtin [dict], in insertion order *)
| PObject (typename : string) (proxy : bool) (name : PyVal)
          (attrs : list (string * PyVal))
    (* has [__dict__] (a [MappingProxyType] when [proxy]) and is not a dict;
       [name] is [getattr(obj, '__name__', None)] *)
| PDictObject (typename : string) (name : PyVal)
              (attrs : list (string * PyVal)) (items : list (Key * PyVal)).
    (* an instance of a [dict] subclass that has [__dict__] *)

(** What is handed to the builtin [hash] next to the type name: the raw
    scalar, a tuple of hashes, or a frozenset of (key, hash) pairs. *)
Inductive Canon :=
| CScalar (s : Scalar)
| CTuple (hs : list Z)
| CFrozenset (s : gset (Key * Z)).

(** [d[k] = v] on a dict kept as the list of its items: an existing key
    keeps its place, a new one goes last. *)
Fixpoint dict_setitem {A} (k : Key) (v : A) (d : list (Key * A)) : list (Key * A) :=
  match d with
  | [] => [(k, v)]
  | (k', v') :: d' =>
      if decide (k' = k) then (k, v) :: d' else (k', v') :: dict_setitem k v d'
  end.

(** [str.startswith('__')] *)
Definition startswith_dunder (s : string) : bool :=
  String.prefix "__" s.

Definition frozenset (l : list (Key * Z)) : gset (Key * Z) := list_to_set l.

Section ContentHasher.
(** The builtin [hash] of the pair [(canonical form, typename)]. *)
Variable py_hash : Canon → string → Z.

Definition hash_scalar (s : Scalar) : Z := py_hash (CScalar s) (scalar_typename s).

(** [_hash_content(objdict)] for the [objdict] built from [obj.__dict__],
    given the hashes of its entries: a plain dict. *)
Definition hash_plain_dict (hashed : list (Key * Z)) : Z :=
  py_hash (CFrozenset (frozenset hashed)) "dict".

(** [objdict], with every value already replaced by its hash: the copy of
    [__dict__] (without the dunder names under a mapping proxy), then
    ['___name'] and ['___classname']. *)
Definition objdict (typename : string) (proxy : bool) (name_hash : Z)
           (hashed_attrs : list (string * Z)) : list (Key * Z) :=
  let kept :=
    if proxy
    then List.filter (λ kv, negb (startswith_dunder kv.1)) hashed_attrs
    else hashed_attrs in
  dict_setitem (KStr "___classname") (hash_scalar (SStr typename))
    (dict_setitem (KStr "___name") name_hash
       (List.map (λ kv, (KStr kv.1, kv.2)) kept)).

Fixpoint _hash_content (obj : PyVal) : Z :=
  match obj with
  | PScalar s => py_hash (CScalar s) (scalar_typename s)
  | PLogger typename name => py_hash (CScalar (SStr name)) typename
  | PSeq typename elems =>
      py_hash (CTuple (List.map _hash_content elems)) typename
  | PDict items =>
      py_hash
        (CFrozenset
           (frozenset
              (List.map (λ kv, match kv with (k, v) => (k, _hash_content v) end) items)))
        "dict"
  | PObject typename proxy name attrs =>
      let od :=
        objdict typename proxy (_hash_content name)
          (List.map (λ kv, match kv with (k, v) => (k, _hash_content v) end) attrs) in
      py_hash (CFrozenset (frozenset od)) typename
  | PDictObject typename name attrs items =>
      let od :=
        objdict typename false (_hash_content name)
          (List.map (λ kv, match kv with (k, v) => (k, _hash_content v) end) attrs) in
      let obj' :=
        dict_setitem (KStr "___objdict") (hash_plain_dict od)
          (List.map (λ kv, match kv with (k, v) => (k, _hash_content v) end) items) in
      py_hash (CFrozenset (frozenset obj')) typename
  end.
End ContentHasher.

(** ** Exceptions, traces and the state of a run *)

Inductive Exc :=
| ValueError (msg : string)
| KeyError (k : Key)
| IndexError
| TypeError
| AttributeError (name : string)
| RecursionError
| FileNotFoundError
| UserException (code : Z).

Inductive Res (A : Type) :=
| Ok (a : A)
| Raise (e : Exc).
Arguments Ok {A} a.
Arguments Raise {A} e.

(** The locks of [_cache.py]: the class-level [ProcessCache.STORE_LOCK], a
    lock of the pool of a named store (every store has a pool of its own, so
    by name and index) and a lock of a store's per-key [defaultdict] (by
    key). *)
Inductive LockId :=
| STORE_LOCK
| PoolLock (name : string) (i : Z)
| KeyLock (k : Key).

(** What a run does that its result does not show. *)
Inductive Event :=
| EvAcquire (l : LockId)
| EvRelease (l : LockId)
| EvLockCreated (k : Key)
| EvLockRemoved (k : Key)
| EvCall (name : string).

#[global] Instance LockId_eq_dec : EqDecision LockId.
Proof. solve_decision. Defined.
#[global] Instance Event_eq_dec : EqDecision Event.
Proof. solve_decision. Defined.

(** The second component of a store:
    [[threading.Lock() for _ in range(n_locks)] or defaultdict(threading.Lock)],
    a list of [n] locks or the keys that have a lock in the defaultdict. *)
Inductive Locks :=
| LockList (n : Z)
| LockDict (keys : gset Key).

(** An entry [cache_store[name] = ({}, locks)]. *)
Record Store (V : Type) := mkStore {
  st_cache : gmap Key V;
  st_locks : Locks
}.
Arguments mkStore {V}.
Arguments st_cache {V}.
Arguments st_locks {V}.

(** The state a call runs in.  [w_host] is [host.get(STORE_NAME)] for the
    mapping that hosts the process stores ([globals()] of [_cache.py], or the
    [__dict__] of the owner of a property); [w_tls] is
    [ThreadCache.STORE.__dict__] of each thread; [w_ext] is everything else the
    program has (attributes, files, the state of user code). *)
Record World (V X : Type) := mkWorld {
  w_host : option (gmap string (Store V));
  w_tls : gmap nat (gmap string (gmap Key V));
  w_ext : X;
  w_trace : list Event
}.
Arguments mkWorld {V X}.
Arguments w_host {V X}.
Arguments w_tls {V X}.
Arguments w_ext {V X}.
Arguments w_trace {V X}.

Definition M (V X A : Type) : Type := World V X → Res A * World V X.

Section Effects.
Context {V X : Type}.
Abbreviation W := (World V X).

Definition ret {A} (a : A) : M V X A := λ w, (Ok a, w).
Definition raise {A} (e : Exc) : M V X A := λ w, (Raise e, w).
Definition bind {A B} (m : M V X A) (k : A → M V X B) : M V X B :=
  λ w, match m w with
       | (Ok a, w') => k a w'
       | (Raise e, w') => (Raise e, w')
       end.

Definition set_host (h : option (gmap string (Store V))) (w : W) : W :=
  mkWorld h (w_tls w) (w_ext w) (w_trace w).
Definition set_tls (t : gmap nat (gmap string (gmap Key V))) (w : W) : W :=
  mkWorld (w_host w) t (w_ext w) (w_trace w).
Definition set_ext (x : X) (w : W) : W :=
  mkWorld (w_host w) (w_tls w) x (w_trace w).
Definition set_trace (t : list Event) (w : W) : W :=
  mkWorld (w_host w) (w_tls w) (w_ext w) t.

Definition emit (e : Event) : M V X unit :=
  λ w, (Ok tt, set_trace (w_trace w ++ [e]) w).

(** [try: body finally: fin]: an exception of [fin] replaces the outcome
    of [body]. *)
Definition try_finally {A} (body : M V X A) (fin : M V X unit) : M V X A :=
  λ w, match body w with
       | (r, w1) =>
           match fin w1 with
           | (Ok _, w2) => (r, w2)
           | (Raise e, w2) => (Raise e, w2)
           end
       end.

(** [with lock: body] for a [threading.Lock] that is free: acquired on
    entry, released on exit, also when [body] raises.  A [threading.Lock] is
    not reentrant: a thread that takes a lock it holds waits forever.  The
    state keeps no set of held locks; the trace has every acquire and
    release, and [retakes_a_lock] below tells the traces in which a held
    lock is taken, which are traces of no run that the code finishes. *)
Definition with_lock {A} (l : LockId) (body : M V X A) : M V X A :=
  bind (emit (EvAcquire l)) (λ _, try_finally body (emit (EvRelease l))).

(** A call into user code.  The trace records the call; what the callee
    does to the rest of the state is its own. *)
Definition invoke {A} (name : string) (f : M V X A) : M V X A :=
  λ w, match f w with
       | (r, w') => (r, set_trace (w_trace w ++ [EvCall name]) w')
       end.
End Effects.

Notation "'let!' x ':=' m 'in' k" := (bind m (λ x, k))
  (at level 10, x binder, m at level 100, k at level 200, only parsing).
Notation "m1 ';;;' m2" := (bind m1 (λ _, m2))
  (at level 100, m2 at level 200, right associativity, only parsing).

(** ** [_cache.py]: scoped stores *)

(** A [Cache] object.  Its [self.cache] (and, for a [ProcessCache], its
    [self.locks]) is the object held by the store it was built from, so an
    instance is the place of that store: the thread and name for a
    [ThreadCache], the name for a [ProcessCache], which also keeps its own
    [n_locks]. *)
Inductive Cache :=
| ThreadCache (thread : nat) (name : string)
| ProcessCache (name : string) (n_locks : Z).

Section CacheStore.
Context {V X : Type}.
Abbreviation W := (World V X).

(** The builtin [hash] of a cache key. *)
Variable hash : Key → Z.

Definition thread_store (t : nat) (w : W) : gmap string (gmap Key V) :=
  default ∅ (w_tls w !! t).

Definition process_store (name : string) (w : W) : option (Store V) :=
  match w_host w with
  | Some cache_store => cache_store !! name
  | None => None
  end.

(** [self.cache] *)
Definition cache_dict (self : Cache) (w : W) : gmap Key V :=
  match self with
  | ThreadCache t name => default ∅ (thread_store t w !! name)
  | ProcessCache name _ => default ∅ (st_cache <$> process_store name w)
  end.

(** [self.locks] *)
Definition cache_locks (name : string) (w : W) : Locks :=
  default (LockDict ∅) (st_locks <$> process_store name w).

Definition put_store (name : string) (s : Store V) (w : W) : W :=
  set_host (Some (<[name := s]> (default ∅ (w_host w)))) w.

Definition put_cache_dict (self : Cache) (d : gmap Key V) (w : W) : W :=
  match self with
  | ThreadCache t name => set_tls (<[t := <[name := d]> (thread_store t w)]> (w_tls w)) w
  | ProcessCache name _ => put_store name (mkStore d (cache_locks name w)) w
  end.

Definition put_cache_locks (name : string) (l : Locks) (w : W) : W :=
  put_store name (mkStore (default ∅ (st_cache <$> process_store name w)) l) w.

(** [Cache.__contains__] (from [Mapping]: [self[key]] does not raise) *)
Definition __contains__ (self : Cache) (key : Key) : M V X bool :=
  λ w, (Ok (bool_decide (is_Some (cache_dict self w !! key))), w).

Definition __getitem__ (self : Cache) (key : Key) : M V X V :=
  λ w, match cache_dict self w !! key with
       | Some v => (Ok v, w)
       | None => (Raise (KeyError key), w)
       end.

Definition __setitem__ (self : Cache) (key : Key) (value : V) : M V X unit :=
  λ w, (Ok tt, put_cache_dict self (<[key := value]> (cache_dict self w)) w).

Definition __delitem__ (self : Cache) (key : Key) : M V X unit :=
  λ w, match cache_dict self w !! key with
       | Some _ => (Ok tt, put_cache_dict self (delete key (cache_dict self w)) w)
       | None => (Raise (KeyError key), w)
       end.

Definition __len__ (self : Cache) : M V X nat :=
  λ w, (Ok (size (cache_dict self w)), w).

(** [ThreadCache.__init__]: [STORE.__dict__.setdefault(name, {})] *)
Definition ThreadCache__init__ (t : nat) (name : string) : M V X Cache :=
  λ w, match thread_store t w !! name with
       | Some _ => (Ok (ThreadCache t name), w)
       | None =>
           (Ok (ThreadCache t name),
            set_tls (<[t := <[name := ∅]> (thread_store t w)]> (w_tls w)) w)
       end.

(** [[threading.Lock() for _ in range(n_locks)] or defaultdict(threading.Lock)] *)
Definition new_locks (n_locks : Z) : Locks :=
  if decide (0 < n_locks) then LockList n_locks else LockDict ∅.

(** [ProcessCache.__init__]: both the store of stores and the named store
    are created by check, lock, check again, create. *)
Definition ProcessCache__init__ (name : string) (n_locks : Z) : M V X Cache :=
  let n_locks := Z.max n_locks 0 in
  let create_store_of_stores : M V X unit :=
    λ w, match w_host w with
         | Some _ => (Ok tt, w)
         | None =>
             with_lock STORE_LOCK
               (λ w, match w_host w with
                     | Some _ => (Ok tt, w)
                     | None => (Ok tt, set_host (Some ∅) w)
                     end) w
         end in
  let create_store : M V X unit :=
    λ w, match process_store name w with
         | Some _ => (Ok tt, w)
         | None =>
             with_lock STORE_LOCK
               (λ w, match process_store name w with
                     | Some _ => (Ok tt, w)
                     | None => (Ok tt, put_store name (mkStore ∅ (new_locks n_locks)) w)
                     end) w
         end in
  create_store_of_stores ;;;
  create_store ;;;
  ret (ProcessCache name n_locks).

(** [self.locks[index]]: a list is indexed by an int in range (from either
    end), a [defaultdict] makes the lock that is missing. *)
Definition locks_getitem (name : string) (index : Key) : M V X LockId :=
  λ w, match cache_locks name w with
       | LockList n =>
           match index with
           | KInt i =>
               if decide (- n ≤ i < n)
               then (Ok (PoolLock name (i `mod` n)), w)
               else (Raise IndexError, w)
           | KStr _ => (Raise TypeError, w)
           end
       | LockDict keys =>
           if decide (index ∈ keys)
           then (Ok (KeyLock index), w)
           else (Ok (KeyLock index),
                 set_trace (w_trace w ++ [EvLockCreated index])
                   (put_cache_locks name (LockDict ({[index]} ∪ keys)) w))
       end.

(** [del self.locks[key]] *)
Definition locks_delitem (name : string) (key : Key) : M V X unit :=
  λ w, match cache_locks name w with
       | LockList n =>
           match key with
           | KInt i =>
               if decide (- n ≤ i < n)
               then (Ok tt, put_cache_locks name (LockList (n - 1)) w)
               else (Raise IndexError, w)
           | KStr _ => (Raise TypeError, w)
           end
       | LockDict keys =>
           if decide (key ∈ keys)
           then (Ok tt,
                 set_trace (w_trace w ++ [EvLockRemoved key])
                   (put_cache_locks name (LockDict (keys ∖ {[key]})) w))
           else (Raise (KeyError key), w)
       end.

(** [Cache.lock] is a bare [yield]; [ProcessCache.lock] is
<<
      try:
          with self.locks[hash(key) % self.n_locks if self.n_locks else key]:
              yield
      finally:
          if not self.n_locks and key not in self.cache:
              del self.locks[key]
>> *)
Definition lock {A} (self : Cache) (key : Key) (body : M V X A) : M V X A :=
  match self with
  | ThreadCache _ _ => body
  | ProcessCache name n_locks =>
      try_finally
        (let index := if decide (n_locks ≠ 0) then KInt (hash key `mod` n_locks) else key in
         let! l := locks_getitem name index in
         with_lock l body)
        (if decide (n_locks ≠ 0) then ret tt
         else
           let! present := __contains__ self key in
           if present then ret tt else locks_delitem name key)
  end.
End CacheStore.

(** ** [cached.py]: memoized calls *)

Section Cached.
Context {V X : Type}.

(** The builtin [hash], of a canonical form paired with a type name and of
    a cache key. *)
Variable py_hash : Canon → string → Z.
Variable hash : Key → Z.

(** [inspect.signature(f)] and [Signature.bind] on the arguments of the call, whose
    [arguments] is the dict from parameter names to the bound values. *)
Variable Signature : Type.
Variable signature_bind :
  Signature → list PyVal → list (string * PyVal) → Res (list (Key * PyVal)).

(** A callable object: its [__name__], its signature and what calling it
    does. *)
Record Callable := mkCallable {
  c_name : string;
  c_signature : Signature;
  c_call : list PyVal → list (string * PyVal) → M V X V
}.

Definition lift_res {A} (r : Res A) : M V X A := λ w, (r, w).

(** The arguments as [_cached_call_impl] binds them: to the signature of
    [callfunc], or to that of [init_method] after an extra [None] for
    [self]. *)
Definition bound_arguments (callfunc : Callable) (init_method : option Signature)
           (args : list PyVal) (kwargs : list (string * PyVal)) : Res (list (Key * PyVal)) :=
  match init_method with
  | None => signature_bind (c_signature callfunc) args kwargs
  | Some init =>
      (* Add an extra argument for 'self' *)
      signature_bind init (PScalar SNone :: args) kwargs
  end.

Definition _cached_call_impl
           (thread : nat) (scope : string) (name : string)
           (callfunc : Callable) (init_method : option Signature)
           (args : list PyVal) (kwargs : list (string * PyVal)) : M V X V :=
  let! cache_class :=
    (if decide (scope = "thread") then ret (ThreadCache__init__ thread)
     else if decide (scope = "process") then ret (λ name, ProcessCache__init__ name 100)
     else raise (ValueError ("Invalid scope '" +:+ scope +:+ "'"))) in
  let! bound_args := lift_res (bound_arguments callfunc init_method args kwargs) in
  let key := KInt (_hash_content py_hash (PDict bound_args)) in
  let! cache := cache_class name in
  (let! present := __contains__ cache key in
   if negb present then
     lock hash cache key
       (let! present := __contains__ cache key in
        if negb present then
          let! value := invoke (c_name callfunc) (c_call callfunc args kwargs) in
          __setitem__ cache key value
        else ret tt)
   else ret tt) ;;;
  __getitem__ cache key.

(** [cache_name or callable_obj.__name__] *)
Definition cache_name_or (cache_name : option string) (default_name : string) : string :=
  match cache_name with
  | Some s => if decide (s = "") then default_name else s
  | None => default_name
  end.

(** [cached_call]: [kwargs] is what Python collected in its variadic
    keywords.  They are passed on as keywords of [_cached_call_impl]; see
    [passes_keywords] below for the keywords that can be. *)
Definition cached_call (thread : nat) (callable_obj : Callable)
           (args : list PyVal) (scope : string) (cache_name : option string)
           (kwargs : list (string * PyVal)) : M V X V :=
  _cached_call_impl thread scope (cache_name_or cache_name (c_name callable_obj))
    callable_obj None args kwargs.

(** The function [cached] as it is written: the caller that [decorator]
    wraps around the callable.  The wrapper is code of the [decorator]
    package: it binds the arguments of the decorated call to the signature
    of the callable and applies its defaults before it calls [cached], so
    [args] and [kwargs] here are the arguments the wrapper passes on, not
    the ones the decorated callable was called with. *)
Definition cached (thread : nat) (callable_obj : Callable)
           (scope : string) (cache_name : option string)
           (args : list PyVal) (kwargs : list (string * PyVal)) : M V X V :=
  cached_call thread callable_obj args scope cache_name kwargs.

(** A class whose metaclass is [Cached]: [cls.__name__], the [scope] given
    next to the metaclass, the signature of [cls.__init__] and
    [type.__call__(cls, ...)], which builds the instance. *)
Record CachedClass := mkCachedClass {
  cls_name : string;
  _cache_scope : string;
  cls_init : Signature;
  cls_new : list PyVal → list (string * PyVal) → M V X V
}.

(** [Cached.__call__]: the keywords are passed on as keywords of
    [_cached_call_impl], like those of [cached_call]. *)
Definition Cached__call__ (thread : nat) (cls : CachedClass)
           (args : list PyVal) (kwargs : list (string * PyVal)) : M V X V :=
  _cached_call_impl thread (_cache_scope cls) (cls_name cls)
    (mkCallable (cls_name cls) (cls_init cls) (cls_new cls)) (Some (cls_init cls))
    args kwargs.
End Cached.

Arguments Callable : clear implicits.
Arguments mkCallable {V X Signature}.
Arguments c_name {V X Signature}.
Arguments c_signature {V X Signature}.
Arguments c_call {V X Signature}.
Arguments CachedClass : clear implicits.
Arguments mkCachedClass {V X Signature}.
Arguments cls_name {V X Signature}.
Arguments _cache_scope {V X Signature}.
Arguments cls_init {V X Signature}.
Arguments cls_new {V X Signature}.
Arguments bound_arguments {V X Signature} signature_bind.
Arguments _cached_call_impl {V X} py_hash hash {Signature} signature_bind.
Arguments cached_call {V X} py_hash hash {Signature} signature_bind.
Arguments cached {V X} py_hash hash {Signature} signature_bind.
Arguments Cached__call__ {V X} py_hash hash {Signature} signature_bind.

(** ** [property.py]: cached properties *)

(** A Python object as a property sees it: [None], or an object with an
    identity ([is]) and a content that [==] compares. *)
Inductive Value :=
| VNone
| VObj (id : Z) (content : Z).

#[global] Instance Value_eq_dec : EqDecision Value.
Proof. solve_decision. Defined.

(** [a is b] *)
Definition py_is (a b : Value) : bool := bool_decide (a = b).

(** [a == b] *)
Definition py_eq (a b : Value) : bool :=
  match a, b with
  | VNone, VNone => true
  | VObj _ c, VObj _ c' => bool_decide (c = c')
  | _, _ => false
  end.

(** [==] on tuples: the same length and equal items. *)
Fixpoint tuple_eq (a b : list Value) : bool :=
  match a, b with
  | [], [] => true
  | x :: a', y :: b' => py_eq x y && tuple_eq a' b'
  | _, _ => false
  end.

(** A slot: [(dependency values, result)]. *)
Abbreviation Item := (list Value * Value)%type.

(** What an owner has besides its store: the attributes of its [__dict__]
    and the files its pickled properties can see. *)
Record Ext := mkExt {
  x_attrs : gmap string Value;
  x_files : gmap string Item
}.

Abbreviation PM := (M Item Ext).

(** The function a property decorates: its [__name__] and its call on the
    owner. *)
Record Method := mkMethod {
  m_name : string;
  m_call : PM Value
}.

(** The three classes of [property.py]; a [pickled_cached_property] has its
    [filename] template. *)
Inductive PropertyClass :=
| cached_property_class
| pickled_cached_property_class (filename : string)
| lazy_property_class.

Record cached_property := mkProperty {
  class : PropertyClass;
  function : option Method;
  dependencies : list string
}.

(** The first argument of [cached_property.__init__]. *)
Inductive MethodOrDependency :=
| a_method (f : Method)
| a_dependency (name : string)
| nothing.

(** What [__get__] returns: the descriptor when [owner is None], else a
    value. *)
Inductive Got :=
| GotSelf (self : cached_property)
| GotValue (v : Value).

(** [_OwnedCache], and [_OwnedPicklerCache] when it has a [parent]. *)
Record OwnedCache := mkOwnedCache {
  oc_cache : Cache;
  oc_key : Key;
  oc_parent : option cached_property
}.

(** Modelled from the spec: [epic.common.io.pload] and [pdump], the durable
    value store of [save(value, path)] and [load(path) -> value] that
    round-trips one value per path, with [os.path.exists] and [os.remove]
    on the same files. *)
Definition path_exists (filename : string) : PM bool :=
  λ w, (Ok (bool_decide (is_Some (x_files (w_ext w) !! filename))), w).

Definition pload (filename : string) : PM Item :=
  λ w, match x_files (w_ext w) !! filename with
       | Some item => (Ok item, w)
       | None => (Raise FileNotFoundError, w)
       end.

Definition pdump (item : Item) (filename : string) : PM unit :=
  λ w, (Ok tt, set_ext (mkExt (x_attrs (w_ext w)) (<[filename := item]> (x_files (w_ext w)))) w).

Definition os_remove (filename : string) : PM unit :=
  λ w, match x_files (w_ext w) !! filename with
       | Some _ =>
           (Ok tt, set_ext (mkExt (x_attrs (w_ext w)) (delete filename (x_files (w_ext w)))) w)
       | None => (Raise FileNotFoundError, w)
       end.

(** [getattr(owner, name)] for an owner whose class leaves [name] to the
    instance: the entry of [__dict__], or [AttributeError]. *)
Definition plain_getattr (name : string) : PM Value :=
  λ w, match x_attrs (w_ext w) !! name with
       | Some v => (Ok v, w)
       | None => (Raise (AttributeError name), w)
       end.

Section Property.
(** The builtin [hash] of a cache key. *)
Variable hash : Key → Z.
(** The order in which [frozenset(names)] is iterated. *)
Variable frozenset_iter : list string → list string.
(** [getattr(owner, name)], as the class of the owner resolves it: an
    attribute of the instance, or another descriptor that runs. *)
Variable getattr : string → PM Value.
(** [template.format] on keyword arguments. *)
Variable str_format : string → list (string * Value) → Res string.

(** [getattr(owner, name, default)] *)
Definition getattr_default (name : string) (default : Value) : PM Value :=
  λ w, match getattr name w with
       | (Raise (AttributeError _), w') => (Ok default, w')
       | r => r
       end.

Definition cached_property__init__ (class : PropertyClass)
           (method_or_dependency : MethodOrDependency)
           (dependencies : list string) : cached_property :=
  match method_or_dependency with
  | a_dependency d =>
      (* decorator factory mode, must decorate later using [__call__] *)
      mkProperty class None (frozenset_iter (d :: dependencies))
  | a_method f =>
      mkProperty class (Some f) (frozenset_iter dependencies)
  | nothing =>
      mkProperty class None (frozenset_iter dependencies)
  end.

(** [pickled_cached_property.__init__]: the dependencies go to
    [cached_property.__init__] one by one, the first as its first argument. *)
Definition pickled_cached_property__init__ (dependencies : list string)
           (filename : string) : cached_property :=
  match dependencies with
  | [] => cached_property__init__ (pickled_cached_property_class filename) nothing []
  | d :: ds =>
      cached_property__init__ (pickled_cached_property_class filename) (a_dependency d) ds
  end.

Definition cached_property__call__ (self : cached_property) (func : Method) : cached_property :=
  mkProperty (class self) (Some func) (dependencies self).

(** [self.function.__name__] *)
Definition name (self : cached_property) : PM string :=
  match function self with
  | Some f => ret (m_name f)
  | None => raise (AttributeError "__name__")
  end.

(** [tuple(getattr(owner, x) for x in self.dependencies)] *)
Fixpoint getattr_all (names : list string) : PM (list Value) :=
  match names with
  | [] => ret []
  | x :: names' =>
      let! v := getattr x in
      let! vs := getattr_all names' in
      ret (v :: vs)
  end.

Definition dependency_values (self : cached_property) : PM (list Value) :=
  getattr_all (dependencies self).

(** [self.filename.format] on the dict
    [zip(self.dependencies, self.dependency_values(owner))] *)
Definition get_filename (self : cached_property) (template : string) : PM string :=
  let! values := dependency_values self in
  lift_res (str_format template (zip (dependencies self) values)).

(** *** [_OwnedCache] and [_OwnedPicklerCache] *)

Definition _OwnedCache__init__ (key : Key) (parent : option cached_property) : PM OwnedCache :=
  let! cache := ProcessCache__init__ "property_cache" 0 in
  ret (mkOwnedCache cache key parent).

Definition _OwnedCache_retrieve (self : OwnedCache) : PM Item :=
  __getitem__ (oc_cache self) (oc_key self).

Definition _OwnedCache_insert (self : OwnedCache) (item : Item) : PM unit :=
  __setitem__ (oc_cache self) (oc_key self) item.

Definition _OwnedCache_clear (self : OwnedCache) : PM unit :=
  let! present := __contains__ (oc_cache self) (oc_key self) in
  if present then __delitem__ (oc_cache self) (oc_key self) else ret tt.

Definition _OwnedCache_full (self : OwnedCache) : PM bool :=
  __contains__ (oc_cache self) (oc_key self).

Definition _OwnedCache_lock {A} (self : OwnedCache) (body : OwnedCache → PM A) : PM A :=
  lock hash (oc_cache self) (oc_key self) (body self).

(** [_OwnedPicklerCache.filename]: [self.parent.get_filename(self.owner)] *)
Definition _OwnedPicklerCache_filename (parent : cached_property) : PM string :=
  match class parent with
  | pickled_cached_property_class template => get_filename parent template
  | _ => raise (AttributeError "filename")
  end.

Definition _OwnedPicklerCache_retrieve (self : OwnedCache) (parent : cached_property) : PM Item :=
  let! in_memory := _OwnedCache_full self in
  if in_memory then _OwnedCache_retrieve self
  else
    let! filename := _OwnedPicklerCache_filename parent in
    let! on_disk := path_exists filename in
    if on_disk then
      let! item := pload filename in
      _OwnedCache_insert self item ;;;
      ret item
    else raise (KeyError (oc_key self)).

Definition _OwnedPicklerCache_insert (self : OwnedCache) (parent : cached_property)
           (item : Item) : PM unit :=
  _OwnedCache_insert self item ;;;
  let! filename := _OwnedPicklerCache_filename parent in
  pdump item filename.

Definition _OwnedPicklerCache_clear (self : OwnedCache) (parent : cached_property) : PM unit :=
  let! filename := _OwnedPicklerCache_filename parent in
  let! on_disk := path_exists filename in
  (if on_disk then os_remove filename else ret tt) ;;;
  _OwnedCache_clear self.

Definition _OwnedPicklerCache_full (self : OwnedCache) (parent : cached_property) : PM bool :=
  let! in_memory := _OwnedCache_full self in
  if in_memory then ret true
  else
    let! filename := _OwnedPicklerCache_filename parent in
    path_exists filename.

(** The methods as Python dispatches them on the class of the object. *)
Definition retrieve (self : OwnedCache) : PM Item :=
  match oc_parent self with
  | None => _OwnedCache_retrieve self
  | Some parent => _OwnedPicklerCache_retrieve self parent
  end.

Definition insert (self : OwnedCache) (item : Item) : PM unit :=
  match oc_parent self with
  | None => _OwnedCache_insert self item
  | Some parent => _OwnedPicklerCache_insert self parent item
  end.

Definition clear (self : OwnedCache) : PM unit :=
  match oc_parent self with
  | None => _OwnedCache_clear self
  | Some parent => _OwnedPicklerCache_clear self parent
  end.

Definition full (self : OwnedCache) : PM bool :=
  match oc_parent self with
  | None => _OwnedCache_full self
  | Some parent => _OwnedPicklerCache_full self parent
  end.

(** *** The descriptors *)

(** [cached_property.get_cache] and its override in
    [pickled_cached_property] *)
Definition get_cache (self : cached_property) : PM OwnedCache :=
  let! key := name self in
  match class self with
  | pickled_cached_property_class _ => _OwnedCache__init__ (KStr key) (Some self)
  | _ => _OwnedCache__init__ (KStr key) None
  end.

Definition is_cache_valid (self : cached_property) : PM bool :=
  let! cache := get_cache self in
  let! is_full := full cache in
  if negb is_full then ret false
  else
    _OwnedCache_lock cache
      (λ _,
        let! is_full := full cache in
        if negb is_full then ret false
        else
          let! item := retrieve cache in
          let! current := dependency_values self in
          ret (tuple_eq item.1 current)).

(** [self.function(owner)] *)
Definition call_function (self : cached_property) : PM Value :=
  match function self with
  | Some f => invoke (m_name f) (m_call f)
  | None => raise TypeError
  end.

(** [dep_values != cached_dep_values], where [cached_dep_values] is [None]
    when nothing is stored: a tuple never equals [None]. *)
Definition snapshot_differs (dep_values : list Value)
           (cached_dep_values : option (list Value)) : bool :=
  match cached_dep_values with
  | Some cached => negb (tuple_eq dep_values cached)
  | None => true
  end.

(** The body of [with self.get_cache(owner).lock() as cache] in
    [cached_property.__get__] *)
Definition get_body (self : cached_property) (dep_values : list Value)
           (cache : OwnedCache) : PM Value :=
  let! is_full := full cache in
  let! stored :=
    (if is_full
     then let! item := retrieve cache in ret (Some item.1, item.2)
     else ret (None, VNone)) in
  if snapshot_differs dep_values stored.1 then
    let! result := call_function self in
    insert cache (dep_values, result) ;;;
    ret result
  else ret stored.2.

(** [cached_property.__get__] on an owner that is not [None] *)
Definition cached_property_get_value (self : cached_property) : PM Value :=
  (* Must get the dependency values before the lock, since the dependencies
     could themselves be cached properties. *)
  let! dep_values := dependency_values self in
  let! cache := get_cache self in
  _OwnedCache_lock cache (get_body self dep_values).

Definition cached_property__get__ (self : cached_property) (owner_is_none : bool) : PM Got :=
  if owner_is_none then ret (GotSelf self)
  else let! v := cached_property_get_value self in ret (GotValue v).

Definition cached_property__set__ (self : cached_property) (value : Value) : PM unit :=
  let! cache := get_cache self in
  _OwnedCache_lock cache
    (λ cache,
      let! dep_values := dependency_values self in
      insert cache (dep_values, value)).

Definition cached_property__delete__ (self : cached_property) : PM unit :=
  let! cache := get_cache self in
  let! is_full := full cache in
  if is_full then _OwnedCache_lock cache (λ _, clear cache) else ret tt.

(** The loop of [lazy_property.__get__]: whether some member, in the order
    of [self.dependencies], reads as [None]; it stops at the first. *)
Fixpoint any_member_is_none (members : list string) : PM bool :=
  match members with
  | [] => ret false
  | member :: members' =>
      let! v := getattr_default member VNone in
      if py_is v VNone then ret true else any_member_is_none members'
  end.

Definition lazy_property__get__ (self : cached_property) (owner_is_none : bool) : PM Got :=
  if owner_is_none then ret (GotSelf self)
  else
    let! unset := any_member_is_none (dependencies self) in
    if unset then ret (GotValue VNone)
    else cached_property__get__ self owner_is_none.

(** [__get__] as Python dispatches it on the class of the descriptor. *)
Definition __get__ (self : cached_property) (owner_is_none : bool) : PM Got :=
  match class self with
  | lazy_property_class => lazy_property__get__ self owner_is_none
  | _ => cached_property__get__ self owner_is_none
  end.
End Property.

(** ** [singleton.py]: one instance per class *)

Section Singleton.
Context {V I : Type}.
(** The arguments of a call of the class. *)
Variable Args : Type.
(** A class whose metaclass is [Singleton].  Its attribute [_instance] is
    the rest of the state: [None], or an object. *)
Abbreviation SM := (M V (option I)).
(** [type.__call__(cls, ...)], which builds the instance; what it returns
    can be [None]. *)
Variable type_call : Args → SM (option I).

(** [cls._instance] *)
Definition get_instance : SM (option I) := λ w, (Ok (w_ext w), w).
Definition set_instance (instance : option I) : SM unit :=
  λ w, (Ok tt, set_ext instance w).

Definition Singleton__init__ : SM unit := set_instance None.

Definition Singleton__call__ (args : Args) : SM (option I) :=
  let! current := get_instance in
  (match current with
   | None =>
       let! instance := invoke "type.__call__" (type_call args) in
       set_instance instance
   | Some _ => ret tt
   end) ;;;
  get_instance.
End Singleton.

(** ** Threads that make the same memoized call

    Process scope, one cache name and one key, so one store, one entry and
    one lock [locks[hash(key) % 100]].  Every thread runs
    [ProcessCache.__init__] and then the lookup of [_cached_call_impl]; a
    step is one check, one write of a dict, one acquire or release of a
    lock, or the run of the computation, and steps of different threads
    interleave in any order. *)
Module Threads.

(** Where a thread is. *)
Inductive pc (V : Type) :=
| CheckHost      (* _cache.py 55: if self.STORE_NAME not in host *)
| LockHost       (* 56: with self.STORE_LOCK *)
| RecheckHost    (* 58: if self.STORE_NAME not in host *)
| CreateHost     (* 59: host[self.STORE_NAME] = {} *)
| UnlockHost     (* 56: the end of the with block *)
| CheckStore     (* 61: if name not in cache_store *)
| LockStore      (* 62: with self.STORE_LOCK *)
| RecheckStore   (* 63: if name not in cache_store *)
| CreateStore    (* 64: cache_store[name] = ({}, [locks]) *)
| UnlockStore    (* 62: the end of the with block *)
| CheckKey       (* cached.py 64: if key not in cache *)
| LockKey        (* 65: with cache.lock(key) *)
| RecheckKey     (* 66: if key not in cache *)
| Calling        (* 67: callfunc runs *)
| Assign (v : V) (* 67: cache[key] = the result *)
| UnlockKey      (* 65: the end of the with block *)
| Return         (* 68: return cache[key] *)
| Done (r : V)   (* returned r *)
| Failed.        (* cache[key] raised KeyError *)
Arguments CheckHost {V}.
Arguments LockHost {V}.
Arguments RecheckHost {V}.
Arguments CreateHost {V}.
Arguments UnlockHost {V}.
Arguments CheckStore {V}.
Arguments LockStore {V}.
Arguments RecheckStore {V}.
Arguments CreateStore {V}.
Arguments UnlockStore {V}.
Arguments CheckKey {V}.
Arguments LockKey {V}.
Arguments RecheckKey {V}.
Arguments Calling {V}.
Arguments Assign {V} v.
Arguments UnlockKey {V}.
Arguments Return {V}.
Arguments Done {V} r.
Arguments Failed {V}.

(** What the threads share: whether the host has its store of stores and
    that has the named store, the entry of the key in the named store, who
    holds [STORE_LOCK] and the lock of the key, and how many times the
    computation ran (the counter it increments). *)
Record Shared (V : Type) := mkShared {
  host_store : bool;
  named_store : bool;
  entry : option V;
  store_lock : option nat;
  key_lock : option nat;
  counter : nat
}.
Arguments mkShared {V}.
Arguments host_store {V}.
Arguments named_store {V}.
Arguments entry {V}.
Arguments store_lock {V}.
Arguments key_lock {V}.
Arguments counter {V}.

Section Program.
Context {V : Type}.
(** The result of the computation, which may depend on the counter it
    finds. *)
Variable callfunc : nat → V.

(** One step of thread [t]; [None] when it waits for a lock or has
    finished.  A new dict is empty: making the store of stores forgets the
    named store, making the named store forgets the entry. *)
Definition thread_step (t : nat) (at_ : pc V) (sh : Shared V) : option (pc V * Shared V) :=
  match at_ with
  | CheckHost => Some (if host_store sh then CheckStore else LockHost, sh)
  | LockHost =>
      match store_lock sh with
      | None => Some (RecheckHost,
                      mkShared (host_store sh) (named_store sh) (entry sh) (Some t)
                        (key_lock sh) (counter sh))
      | Some _ => None
      end
  | RecheckHost => Some (if host_store sh then UnlockHost else CreateHost, sh)
  | CreateHost =>
      Some (UnlockHost,
            mkShared true false None (store_lock sh) (key_lock sh) (counter sh))
  | UnlockHost =>
      Some (CheckStore,
            mkShared (host_store sh) (named_store sh) (entry sh) None
              (key_lock sh) (counter sh))
  | CheckStore => Some (if named_store sh then CheckKey else LockStore, sh)
  | LockStore =>
      match store_lock sh with
      | None => Some (RecheckStore,
                      mkShared (host_store sh) (named_store sh) (entry sh) (Some t)
                        (key_lock sh) (counter sh))
      | Some _ => None
      end
  | RecheckStore => Some (if named_store sh then UnlockStore else CreateStore, sh)
  | CreateStore =>
      Some (UnlockStore,
            mkShared (host_store sh) true None (store_lock sh) (key_lock sh) (counter sh))
  | UnlockStore =>
      Some (CheckKey,
            mkShared (host_store sh) (named_store sh) (entry sh) None
              (key_lock sh) (counter sh))
  | CheckKey =>
      Some (match entry sh with Some _ => Return | None => LockKey end, sh)
  | LockKey =>
      match key_lock sh with
      | None => Some (RecheckKey,
                      mkShared (host_store sh) (named_store sh) (entry sh) (store_lock sh)
                        (Some t) (counter sh))
      | Some _ => None
      end
  | RecheckKey =>
      Some (match entry sh with Some _ => UnlockKey | None => Calling end, sh)
  | Calling =>
      Some (Assign (callfunc (counter sh)),
            mkShared (host_store sh) (named_store sh) (entry sh) (store_lock sh)
              (key_lock sh) (S (counter sh)))
  | Assign v =>
      Some (UnlockKey,
            mkShared (host_store sh) (named_store sh) (Some v) (store_lock sh)
              (key_lock sh) (counter sh))
  | UnlockKey =>
      Some (Return,
            mkShared (host_store sh) (named_store sh) (entry sh) (store_lock sh)
              None (counter sh))
  | Return =>
      Some (match entry sh with Some v => Done v | None => Failed end, sh)
  | Done _ => None
  | Failed => None
  end.

(** The threads, by number, and what they share. *)
Definition System : Type := list (pc V) * Shared V.

(** Some thread takes a step. *)
Inductive step : System → System → Prop :=
| step_of (t : nat) (at_ next : pc V) (threads : list (pc V)) (sh sh' : Shared V) :
    threads !! t = Some at_ →
    thread_step t at_ sh = Some (next, sh') →
    step (threads, sh) (<[t := next]> threads, sh').

(** Before the calls: no lock held, the key not cached and the computation
    not yet run; the stores may or may not exist. *)
Definition initial (sh : Shared V) : Prop :=
  store_lock sh = None ∧ key_lock sh = None ∧ entry sh = None ∧ counter sh = 0%nat
  ∧ (named_store sh = true → host_store sh = true).

(** [n] threads about to make the call. *)
Definition start (n : nat) (sh : Shared V) : System := (replicate n CheckHost, sh).

Definition reachable (n : nat) (s : System) : Prop :=
  ∃ sh, initial sh ∧ rtc step (start n sh) s.

(** The threads scheduled in a given order; a thread that waits or has
    finished is passed over. *)
Fixpoint run (schedule : list nat) (s : System) : System :=
  match schedule with
  | [] => s
  | t :: schedule' =>
      match s.1 !! t with
      | Some at_ =>
          match thread_step t at_ s.2 with
          | Some (next, sh') => run schedule' (<[t := next]> s.1, sh')
          | None => run schedule' s
          end
      | None => run schedule' s
      end
  end.

Definition is_done (at_ : pc V) : bool :=
  match at_ with
  | Done _ => true
  | _ => false
  end.

(** Every thread has returned. *)
Definition all_done (s : System) : Prop :=
  ∀ t at_, s.1 !! t = Some at_ → ∃ r, at_ = Done r.

(** How many steps a thread at most still takes. *)
Definition steps_left (at_ : pc V) : nat :=
  match at_ with
  | CheckHost => 17
  | LockHost => 16
  | RecheckHost => 15
  | CreateHost => 14
  | UnlockHost => 13
  | CheckStore => 12
  | LockStore => 11
  | RecheckStore => 10
  | CreateStore => 9
  | UnlockStore => 8
  | CheckKey => 7
  | LockKey => 6
  | RecheckKey => 5
  | Calling => 4
  | Assign _ => 3
  | UnlockKey => 2
  | Return => 1
  | Done _ => 0
  | Failed => 0
  end.

Definition work_left (s : System) : nat := sum_list (steps_left <$> s.1).

Definition holds_store_lock (at_ : pc V) : bool :=
  match at_ with
  | RecheckHost | CreateHost | UnlockHost | RecheckStore | CreateStore | UnlockStore => true
  | _ => false
  end.

Definition holds_key_lock (at_ : pc V) : bool :=
  match at_ with
  | RecheckKey | Calling | Assign _ | UnlockKey => true
  | _ => false
  end.

(** What holds of a thread where it is. *)
Definition thread_ok (t : nat) (at_ : pc V) (sh : Shared V) : Prop :=
  (holds_store_lock at_ = true ↔ store_lock sh = Some t)
  ∧ (holds_key_lock at_ = true ↔ key_lock sh = Some t)
  ∧ match at_ with
    | CheckHost | LockHost | RecheckHost => True
    | CreateHost => host_store sh = false
    | UnlockHost | CheckStore | LockStore | RecheckStore => host_store sh = true
    | CreateStore => host_store sh = true ∧ named_store sh = false
    | UnlockStore | CheckKey | LockKey => named_store sh = true
    | RecheckKey => named_store sh = true ∧ (entry sh = None → counter sh = 0%nat)
    | Calling => named_store sh = true ∧ entry sh = None ∧ counter sh = 0%nat
    | Assign _ => named_store sh = true ∧ entry sh = None ∧ counter sh = 1%nat
    | UnlockKey | Return => named_store sh = true ∧ entry sh ≠ None
    | Done r => entry sh = Some r
    | Failed => False
    end.

(** What holds of what the threads share. *)
Definition shared_ok (sh : Shared V) : Prop :=
  (named_store sh = true → host_store sh = true)
  ∧ (named_store sh = false → entry sh = None ∧ counter sh = 0%nat)
  ∧ (counter sh ≤ 1)%nat
  ∧ (entry sh ≠ None → counter sh = 1%nat)
  ∧ (entry sh = None → counter sh = 0%nat ∨ key_lock sh ≠ None).

Definition invariant (s : System) : Prop :=
  shared_ok s.2
  ∧ (∀ t at_, s.1 !! t = Some at_ → thread_ok t at_ s.2)
  ∧ (∀ t, store_lock s.2 = Some t → is_Some (s.1 !! t))
  ∧ (∀ t, key_lock s.2 = Some t → is_Some (s.1 !! t)).
End Program.

End Threads.

(** ** A memoized call made from within a memoized call

    One thread, process scope and one cache name: the computation of a
    memoized call makes a memoized call under the same name, as a function
    decorated with [cached] that calls itself does.  The store of the name
    exists, so [ProcessCache.__init__] takes no lock; its pool has 100
    locks.  A step is one check, one write of the dict, one acquire or
    release of a lock of the pool, the start of the computation or a
    return; a thread that acquires a lock that is held waits. *)
Module Nested.

(** Where a call is. *)
Inductive pc (V : Type) :=
| CheckKey      (* cached.py 64: if key not in cache *)
| LockKey       (* 65: with cache.lock(key) *)
| RecheckKey    (* 66: if key not in cache *)
| Calling       (* 67: callfunc starts *)
| Waiting       (* 67: callfunc waits for the memoized call it made *)
| Assign (v : V) (* 67: cache[key] = the result *)
| UnlockKey     (* 65: the end of the with block *)
| Return.       (* 68: return cache[key] *)
Arguments CheckKey {V}.
Arguments LockKey {V}.
Arguments RecheckKey {V}.
Arguments Calling {V}.
Arguments Waiting {V}.
Arguments Assign {V} v.
Arguments UnlockKey {V}.
Arguments Return {V}.

(** A call that has not returned: its key and where it is. *)
Record Frame (V : Type) := mkFrame {
  f_key : Key;
  f_at : pc V
}.
Arguments mkFrame {V}.
Arguments f_key {V}.
Arguments f_at {V}.

(** The calls that have not returned, the innermost first; the dict of the
    store; the indices of the locks of the pool that are held; how many
    times [callfunc] started; what the outermost call returned. *)
Record State (V : Type) := mkState {
  stack : list (Frame V);
  entries : gmap Key V;
  held : list Z;
  started : nat;
  returned : option V
}.
Arguments mkState {V}.
Arguments stack {V}.
Arguments entries {V}.
Arguments held {V}.
Arguments started {V}.
Arguments returned {V}.

Section Program.
Context {V : Type}.
(** The builtin [hash] of a cache key. *)
Variable hash : Key → Z.
(** The key of the memoized call that [callfunc] makes while it computes
    the entry of a key, if it makes one. *)
Variable nested : Key → option Key.
(** What [callfunc] returns for a key, given what the call it made
    returned. *)
Variable result : Key → option V → V.

(** One step of the thread; [None] when it waits for a lock, has
    finished, or [cache[key]] raised. *)
Definition step (s : State V) : option (State V) :=
  match stack s with
  | [] => None
  | fr :: callers =>
      let key := f_key fr in
      let index := hash key `mod` 100 in
      let at_ (next : pc V) := mkFrame key next :: callers in
      match f_at fr with
      | CheckKey =>
          Some (mkState (at_ (match entries s !! key with
                              | Some _ => Return
                              | None => LockKey
                              end))
                  (entries s) (held s) (started s) (returned s))
      | LockKey =>
          if decide (index ∈ held s) then None
          else Some (mkState (at_ RecheckKey) (entries s) (index :: held s)
                       (started s) (returned s))
      | RecheckKey =>
          Some (mkState (at_ (match entries s !! key with
                              | Some _ => UnlockKey
                              | None => Calling
                              end))
                  (entries s) (held s) (started s) (returned s))
      | Calling =>
          match nested key with
          | Some key' =>
              Some (mkState (mkFrame key' CheckKey :: at_ Waiting)
                      (entries s) (held s) (S (started s)) (returned s))
          | None =>
              Some (mkState (at_ (Assign (result key None)))
                      (entries s) (held s) (S (started s)) (returned s))
          end
      | Waiting => None
      | Assign v =>
          Some (mkState (at_ UnlockKey) (<[key := v]> (entries s)) (held s)
                  (started s) (returned s))
      | UnlockKey =>
          Some (mkState (at_ Return) (entries s)
                  (List.filter (λ i, bool_decide (i ≠ index)) (held s))
                  (started s) (returned s))
      | Return =>
          match entries s !! key with
          | Some v =>
              match callers with
              | [] => Some (mkState [] (entries s) (held s) (started s) (Some v))
              | caller :: callers' =>
                  Some (mkState
                          (mkFrame (f_key caller)
                             (Assign (result (f_key caller) (Some v))) :: callers')
                          (entries s) (held s) (started s) (returned s))
              end
          | None => None
          end
      end
  end.

(** The thread run for [n] steps, or until it can take none. *)
Fixpoint run (n : nat) (s : State V) : State V :=
  match n with
  | O => s
  | S n' =>
      match step s with
      | Some s' => run n' s'
      | None => s
      end
  end.

(** About to make the call for [key]: nothing cached, no lock held. *)
Definition start (key : Key) : State V := mkState [mkFrame key CheckKey] ∅ [] 0 None.
End Program.

End Nested.

(** ** Reading a run *)

Definition is_call (e : Event) : bool :=
  match e with
  | EvCall _ => true
  | _ => false
  end.

(** How many times user code was called. *)
Definition calls (trace : list Event) : nat := length (List.filter is_call trace).



(** The parameters of [_cached_call_impl] that come before its variadic
    ones.  A keyword with one of these names cannot reach its variadic
    keywords: Python raises [TypeError] (multiple values for the argument)
    at the call, before the function is entered.  [passes_keywords kwargs]:
    [kwargs] can be passed to [_cached_call_impl]. *)
Definition own_parameters : list string := ["scope"; "name"; "callfunc"; "init_method"].

Definition passes_keywords (kwargs : list (string * PyVal)) : Prop :=
  Forall (λ kv, kv.1 ∉ own_parameters) kwargs.

(** Where the dict of a cache lives in a state, which has one host: in the
    local store of a thread under a name, or under a name in the process
    store of that host.  Process caches of different hosts (the module for
    memoized calls, each owner for its properties) are in different
    states. *)
Definition place (c : Cache) : nat * string + string :=
  match c with
  | ThreadCache t name => inl (t, name)
  | ProcessCache name _ => inr name
  end.

Section ReadingCached.
Context {V X : Type}.
Variable hash : Key → Z.

(** The cache [_cached_call_impl] selects. *)
Definition selected_cache (thread : nat) (scope name : string) : Cache :=
  if decide (scope = "thread") then ThreadCache thread name else ProcessCache name 100.


End ReadingCached.

Section ReadingProperty.
(** The store of the properties of an owner. *)
Definition property_cache : Cache := ProcessCache "property_cache" 0.

(** The slot of a property in the store of its owner. *)
Definition slot (key : string) (w : World Item Ext) : option Item :=
  cache_dict property_cache w !! KStr key.

(** The state in which the body of [with cache.lock()] runs for a
    property: the store of the owner exists, the lock of the key exists and
    is held. *)
Definition state_in_lock (key : Key) (w : World Item Ext) : World Item Ext :=
  (emit (EvAcquire (KeyLock key))
     (locks_getitem "property_cache" key (ProcessCache__init__ "property_cache" 0 w).2).2).2.

(** The store of the owner, when it exists, has the per-key locks that
    [_OwnedCache] makes it with. *)
Definition per_key_locks (w : World Item Ext) : Prop :=
  ∀ s, process_store "property_cache" w = Some s → ∃ keys, st_locks s = LockDict keys.

(** A property whose cache is a plain [_OwnedCache]. *)
Definition not_pickled (self : cached_property) : Prop :=
  class self = cached_property_class ∨ class self = lazy_property_class.

(** [getattr(owner, member, None) is None] for an attribute of the
    instance: it is not set, or it is [None]. *)
Definition reads_as_none (member : string) (w : World Item Ext) : bool :=
  match x_attrs (w_ext w) !! member with
  | Some v => py_is v VNone
  | None => true
  end.

(** What is known of the order in which a frozenset of names is
    iterated: every name once. *)
Definition frozenset_order (iter : list string → list string) : Prop :=
  ∀ names, NoDup (iter names) ∧ ∀ x, x ∈ iter names ↔ x ∈ names.

(** The names given to [cached_property.__init__], in the order given. *)
Definition declared_names (m : MethodOrDependency) (dependencies : list string) : list string :=
  match m with
  | a_dependency d => d :: dependencies
  | _ => dependencies
  end.

(** The current value of an attribute of the instance. *)
Definition attribute (w : World Item Ext) (x : string) : Value :=
  default VNone (x_attrs (w_ext w) !! x).

(** A slot is valid for the current dependency values. *)
Definition slot_valid (dep_values : list Value) (stored : option Item) : bool :=
  match stored with
  | Some (cached_dep_values, _) => tuple_eq dep_values cached_dep_values
  | None => false
  end.
End ReadingProperty.

(** ** Sample programs *)

(** A stand-in for the builtin [hash] of [(canonical form, typename)]. *)
Definition sample_hash (c : Canon) (typename : string) : Z :=
  Z.of_nat (String.length typename)
  + match c with
    | CScalar SNone => 0
    | CScalar (SBool b) => if b then 1 else 0
    | CScalar (SInt n) => n
    | CScalar (SStr s) => Z.of_nat (String.length s)
    | CScalar (SBytes s) => Z.of_nat (String.length s)
    | CTuple hs => foldr (λ h acc, h + 31 * acc) 17 hs
    | CFrozenset s => set_fold (λ kv acc, kv.2 + acc) 0 s
    end.

(** A stand-in for the builtin [hash] of a key. *)
Definition sample_key_hash (k : Key) : Z :=
  match k with
  | KInt n => n
  | KStr s => Z.of_nat (String.length s)
  end.

(** [Signature.bind] for a function of positional parameters only. *)
Definition positional_bind (parameters : list string) (args : list PyVal)
           (kwargs : list (string * PyVal)) : Res (list (Key * PyVal)) :=
  match kwargs with
  | [] =>
      if decide (length parameters = length args)
      then Ok (zip (KStr <$> parameters) args)
      else Raise TypeError
  | _ => Raise TypeError
  end.

(** [def func(x)]: it counts its calls in the state of the program and
    returns 7. *)
Definition func : Callable Z nat (list string) :=
  mkCallable "func" ["x"] (λ _ _ w, (Ok 7, set_ext (S (w_ext w)) w)).

(** A process in which nothing was cached yet. *)
Definition new_process : World Z nat := mkWorld None ∅ 0%nat [].

(** A class with [metaclass=Cached, scope='invalid']. *)
Definition BadScope : CachedClass Z nat (list string) :=
  mkCachedClass "BadScope" "invalid" ["self"; "x"] (λ _ _ w, (Ok 1, w)).

(** A process store of per-key locks, empty. *)
Definition empty_keyed_store : World Z unit :=
  mkWorld (Some {["c" := mkStore ∅ (LockDict ∅)]}) ∅ tt [].

(** [template.format] that leaves the template as it is. *)
Definition sample_format (template : string) (kwargs : list (string * Value)) : Res string :=
  Ok template.

(** An owner with [self.x = 3] and no property read yet. *)
Definition new_owner : World Item Ext :=
  mkWorld None ∅ (mkExt {["x" := VObj 1 3]} ∅) [].

(** The same owner after [z] was computed for an equal [x] held by another
    object. *)
Definition owner_with_z : World Item Ext :=
  mkWorld
    (Some {["property_cache" :=
              mkStore {[KStr "z" := ([VObj 2 3], VObj 9 30)]} (LockDict {[KStr "z"]})]})
    ∅ (mkExt {["x" := VObj 1 3]} ∅) [].

(** [@cached_property('x') def z(self)] *)
Definition z_method : Method := mkMethod "z" (ret (VObj 9 30)).
Definition z_property : cached_property := mkProperty cached_property_class (Some z_method) ["x"].

(** [@cached_property def a(self): return None] *)
Definition a_property : cached_property :=
  mkProperty cached_property_class (Some (mkMethod "a" (ret VNone))) [].

(** [getattr] on an owner whose class has the property [a]. *)
Definition getattr_with_a (name : string) : PM Value :=
  if decide (name = "a")
  then cached_property_get_value sample_key_hash plain_getattr sample_format a_property
  else plain_getattr name.

(** [@lazy_property('a') def p(self)] and [@lazy_property('x', 'y') def q(self)] *)
Definition p_property : cached_property :=
  mkProperty lazy_property_class (Some (mkMethod "p" (ret (VObj 5 50)))) ["a"].
Definition q_property : cached_property :=
  mkProperty lazy_property_class (Some (mkMethod "q" (ret (VObj 6 60)))) ["x"; "y"].

(** [@pickled_cached_property('x', filename='z.pkl') def z(self)] *)
Definition pickled_z : cached_property :=
  mkProperty (pickled_cached_property_class "z.pkl") (Some z_method) ["x"].

(** A new owner next to the file another owner wrote. *)
Definition owner_with_file : World Item Ext :=
  mkWorld None ∅ (mkExt {["x" := VObj 1 3]} {["z.pkl" := ([VObj 2 3], VObj 9 30)]}) [].

(** A new owner next to a file written for another [x]. *)
Definition owner_with_stale_file : World Item Ext :=
  mkWorld None ∅ (mkExt {["x" := VObj 1 3]} {["z.pkl" := ([VObj 2 4], VObj 7 70)]}) [].

(** Two iteration orders a frozenset of names can have. *)
Definition in_order (names : list string) : list string := remove_dups names.
Definition in_reverse (names : list string) : list string := reverse (remove_dups names).

(** An owner with [self.x] and [self.y]. *)
Definition owner_xy : World Item Ext :=
  mkWorld None ∅ (mkExt {["x" := VObj 1 3; "y" := VObj 2 4]} ∅) [].

(** Two threads and the computation [lambda: 40 + counter]: thread 0 runs
    up to the computation, thread 1 runs until it waits for the lock of the
    key, thread 0 finishes, thread 1 finishes. *)
Definition no_stores : Threads.Shared Z := Threads.mkShared false false None None None 0.
Definition count_and_answer (counter : nat) : Z := 40 + Z.of_nat counter.
Definition two_threads : list nat :=
  replicate 13 0%nat ++ replicate 4 1%nat ++ replicate 4 0%nat ++ replicate 4 1%nat.





(** Another [def func(x)], of another module: it counts its calls and
    returns 8. *)
Definition another_func : Callable Z nat (list string) :=
  mkCallable "func" ["x"] (λ _ _ w, (Ok 8, set_ext (S (w_ext w)) w)).

(** [@cached_property('x', 'y') def r(self)] *)
Definition r_property : cached_property :=
  mkProperty cached_property_class (Some (mkMethod "r" (ret (VObj 6 60)))) ["x"; "y"].

(** [getattr] on an owner whose class has a property [y] that raises
    [ValueError]. *)
Definition getattr_with_broken_y (name : string) : PM Value :=
  if decide (name = "y") then raise (ValueError "broken") else plain_getattr name.

(** A class with [metaclass=Singleton] whose instance is its argument, just
    made. *)
Definition new_singleton : World unit (option Z) := mkWorld None ∅ None [].
Definition build_instance (args : Z) : M unit (option Z) (option Z) := ret (Some args).

(** * Properties *)

(** ** ContentHasher *)

Lemma elem_of_frozenset_map {A} (f : A → Z) (d : list (Key * A)) (k : Key) (h : Z) :
  (k, h) ∈ frozenset (List.map (λ kv, match kv with (k, v) => (k, f v) end) d)
  ↔ ∃ v, (k, v) ∈ d ∧ h = f v.
Proof.
  unfold frozenset. rewrite elem_of_list_to_set, list_elem_of_In, in_map_iff.
  split.
  - intros [[k' v] [Heq Hin]]. simplify_eq.
    exists v. by rewrite list_elem_of_In.
  - intros (v & Hin & ->). exists (k, v). by rewrite <- list_elem_of_In.
Qed.

(** The frozenset that stands for a dict depends on the set of its items
    only. *)
Lemma frozenset_of_same_items {A} (f : A → Z) (d1 d2 : list (Key * A)) :
  (∀ kv, kv ∈ d1 ↔ kv ∈ d2) →
  frozenset (List.map (λ kv, match kv with (k, v) => (k, f v) end) d1)
  = frozenset (List.map (λ kv, match kv with (k, v) => (k, f v) end) d2).
Proof.
  intros Hsame. apply set_eq. intros [k h]. rewrite !elem_of_frozenset_map.
  split; intros (v & Hin & ->); exists v; split; try done; by apply Hsame.
Qed.

(** A dict hashes as its items in any order. *)
Lemma hash_content_dict_permutation
      (py_hash : Canon → string → Z) (d1 d2 : list (Key * PyVal)) :
  d1 ≡ₚ d2 →
  _hash_content py_hash (PDict d1) = _hash_content py_hash (PDict d2).
Proof.
  intros Hperm. cbn [_hash_content]. do 2 f_equal.
  apply frozenset_of_same_items. intros kv. by rewrite Hperm.
Qed.

(** C4. Two dicts with the same set of (key, sub-value) items, in whatever
    order they were inserted, have the same content hash: the canonical form
    of a dict is the set of its (key, hash of sub-value) pairs. *)
Theorem hash_content_dict_order_independent
        (py_hash : Canon → string → Z) (d1 d2 : list (Key * PyVal)) :
  (∀ kv, kv ∈ d1 ↔ kv ∈ d2) →
  _hash_content py_hash (PDict d1) = _hash_content py_hash (PDict d2)
  ∧ ∀ k h,
      (k, h) ∈ frozenset
                 (List.map (λ kv, match kv with (k, v) => (k, _hash_content py_hash v) end) d1)
      ↔ ∃ v, (k, v) ∈ d2 ∧ h = _hash_content py_hash v.
Proof.
  intros Hsame. split.
  - cbn [_hash_content]. do 2 f_equal. by apply frozenset_of_same_items.
  - intros k h. rewrite elem_of_frozenset_map.
    split; intros (v & Hin & ->); exists v; split; try done; by apply Hsame.
Qed.

(** ** Running the monad *)

Section MonadFacts.
Context {V X : Type}.
Implicit Types (w : World V X).

Lemma bind_ok {A B} (m : M V X A) (k : A → M V X B) a w w1 :
  m w = (Ok a, w1) → bind m k w = k a w1.
Proof. unfold bind. by intros ->. Qed.

Lemma bind_ret {A B} (a : A) (k : A → M V X B) w :
  bind (ret a) k w = k a w.
Proof. reflexivity. Qed.

Lemma bind_lift_ok {A B} (a : A) (k : A → M V X B) w :
  bind (lift_res (Ok a)) k w = k a w.
Proof. reflexivity. Qed.

(** A run of [bind] that returns went through both of its parts. *)
Lemma bind_inv {A B} (m : M V X A) (k : A → M V X B) b w w2 :
  bind m k w = (Ok b, w2) → ∃ a w1, m w = (Ok a, w1) ∧ k a w1 = (Ok b, w2).
Proof.
  unfold bind. destruct (m w) as [[a|e] w1]; [|done]. intros Hk. by exists a, w1.
Qed.

Lemma calls_app (t1 t2 : list Event) : calls (t1 ++ t2) = (calls t1 + calls t2)%nat.
Proof. unfold calls. by rewrite List.filter_app, length_app. Qed.

End MonadFacts.

(** ** Stores *)

Section StoreFacts.
Context {V X : Type}.
Implicit Types (w : World V X) (name : string) (key : Key).

Lemma process_store_put_store name (s : Store V) w :
  process_store name (put_store name s w) = Some s.
Proof. unfold process_store, put_store. simpl. apply lookup_insert_eq. Qed.

Lemma cache_dict_set_trace (c : Cache) t w :
  cache_dict c (set_trace t w) = cache_dict c w.
Proof. by destruct c. Qed.

Lemma cache_locks_set_trace name t w :
  cache_locks name (set_trace t w) = cache_locks name w.
Proof. reflexivity. Qed.

Lemma cache_dict_put_cache_dict (c : Cache) (d : gmap Key V) w :
  cache_dict c (put_cache_dict c d w) = d.
Proof.
  destruct c as [t name | name n]; simpl.
  - unfold thread_store at 1. simpl. rewrite lookup_insert_eq. simpl.
    by rewrite lookup_insert_eq.
  - by rewrite process_store_put_store.
Qed.

Lemma cache_dict_put_cache_locks name n l w :
  cache_dict (ProcessCache name n) (put_cache_locks name l w)
  = cache_dict (ProcessCache name n) w.
Proof. simpl. unfold put_cache_locks. by rewrite process_store_put_store. Qed.

Lemma cache_locks_put_cache_locks name l w :
  cache_locks name (put_cache_locks name l w) = l.
Proof. unfold cache_locks, put_cache_locks. by rewrite process_store_put_store. Qed.

Lemma cache_dict_thread_is_Some t name key (v : V) w :
  cache_dict (ThreadCache t name) w !! key = Some v → is_Some (thread_store t w !! name).
Proof.
  simpl. destruct (thread_store t w !! name); [by eexists|].
  unfold default; simpl. by rewrite lookup_empty.
Qed.

Lemma cache_dict_process_is_Some name n key (v : V) w :
  cache_dict (ProcessCache name n) w !! key = Some v → is_Some (process_store name w).
Proof.
  simpl. destruct (process_store name w); [by eexists|].
  unfold default; simpl. by rewrite lookup_empty.
Qed.

(** [ProcessCache.__init__] never raises; it returns the cache of the
    named store. *)
Lemma ProcessCache_init_ok name n w :
  ProcessCache__init__ name n w
  = (Ok (ProcessCache name (Z.max n 0)), (ProcessCache__init__ name n w).2).
Proof.
  unfold ProcessCache__init__, bind, with_lock, try_finally, emit, ret, bind.
  unfold process_store, put_store, set_trace, set_host.
  destruct w as [[cs|] tls x tr]; simpl.
  - destruct (cs !! name) eqn:Hcs; simpl; [done|]. by rewrite ?Hcs.
  - by rewrite lookup_empty.
Qed.

(** A store that exists is left alone, with the whole state. *)
Lemma ProcessCache_init_existing name n w :
  is_Some (process_store name w) → (ProcessCache__init__ name n w).2 = w.
Proof.
  intros [s Hs]. unfold ProcessCache__init__, bind, ret.
  unfold process_store in *.
  destruct w as [[cs|] tls x tr]; simpl in *; [|done].
  by rewrite Hs.
Qed.

(** After it, the named store exists: the one there was, or an empty one
    with new locks. *)
Lemma ProcessCache_init_store name n w :
  process_store name (ProcessCache__init__ name n w).2
  = Some (default (mkStore ∅ (new_locks (Z.max n 0))) (process_store name w)).
Proof.
  unfold ProcessCache__init__, bind, with_lock, try_finally, emit, ret, bind.
  unfold process_store, put_store, set_trace, set_host.
  destruct w as [[cs|] tls x tr]; simpl.
  - destruct (cs !! name) eqn:Hcs; simpl.
    + by rewrite ?Hcs.
    + rewrite ?Hcs; simpl. by rewrite lookup_insert_eq.
  - rewrite lookup_empty. simpl. by rewrite lookup_insert_eq.
Qed.

Lemma ProcessCache_init_cache_dict name n k w :
  cache_dict (ProcessCache name k) (ProcessCache__init__ name n w).2
  = cache_dict (ProcessCache name k) w.
Proof.
  simpl. rewrite ProcessCache_init_store. by destruct (process_store name w).
Qed.

Lemma ProcessCache_init_rest name n w :
  w_tls (ProcessCache__init__ name n w).2 = w_tls w
  ∧ w_ext (ProcessCache__init__ name n w).2 = w_ext w.
Proof.
  unfold ProcessCache__init__, bind, with_lock, try_finally, emit, ret, bind.
  unfold process_store, put_store, set_trace, set_host.
  destruct w as [[cs|] tls x tr]; simpl.
  - destruct (cs !! name) eqn:Hcs; simpl; [done|]. by rewrite ?Hcs.
  - by rewrite lookup_empty.
Qed.

(** It calls no user code and takes no lock but [STORE_LOCK]. *)
Lemma ProcessCache_init_trace name n w :
  ∃ events : list Event,
    w_trace (ProcessCache__init__ name n w).2 = w_trace w ++ events
    ∧ Forall (λ e, e = EvAcquire STORE_LOCK ∨ e = EvRelease STORE_LOCK) events.
Proof.
  unfold ProcessCache__init__, bind, with_lock, try_finally, emit, ret, bind.
  unfold process_store, put_store, set_trace, set_host.
  destruct w as [[cs|] tls x tr]; simpl.
  - destruct (cs !! name) eqn:Hcs; simpl.
    + exists []. by rewrite app_nil_r.
    + rewrite ?Hcs; simpl.
      exists [EvAcquire STORE_LOCK; EvRelease STORE_LOCK].
      rewrite <- app_assoc. split; [done|]. repeat (apply List.Forall_cons; [auto|]). apply List.Forall_nil.
  - rewrite lookup_empty. simpl.
    exists [EvAcquire STORE_LOCK; EvRelease STORE_LOCK;
            EvAcquire STORE_LOCK; EvRelease STORE_LOCK].
    rewrite <- !app_assoc. split; [done|]. repeat (apply List.Forall_cons; [auto|]). apply List.Forall_nil.
Qed.
End StoreFacts.

(** ** Memoized calls *)

Section CachedFacts.
Context {V X : Type}.
Variable py_hash : Canon → string → Z.
Variable hash : Key → Z.
Variable Signature : Type.
Variable signature_bind :
  Signature → list PyVal → list (string * PyVal) → Res (list (Key * PyVal)).

Lemma cached_call_impl_invalid_scope thread scope name callfunc init_method args kwargs
      (w : World V X) :
  scope ≠ "thread" → scope ≠ "process" →
  _cached_call_impl py_hash hash signature_bind thread scope name callfunc init_method
    args kwargs w
  = (Raise (ValueError ("Invalid scope '" +:+ scope +:+ "'")), w).
Proof.
  intros Ht Hp. unfold _cached_call_impl, bind.
  rewrite !decide_False by done. reflexivity.
Qed.
End CachedFacts.

(** C3. A memoized call whose scope is neither ['thread'] nor ['process']
    raises [ValueError] and leaves the whole state as it was: no store is
    created, nothing is looked up, no lock is taken and the callable is not
    called, whatever binding the arguments or hashing them would have done.
    This holds for [_cached_call_impl] and so for [cached_call], the
    decorator [cached] and a class of the metaclass [Cached]. *)
Theorem invalid_scope_is_value_error
        {V X : Type} (py_hash : Canon → string → Z) (hash : Key → Z)
        (Signature : Type)
        (signature_bind : Signature → list PyVal → list (string * PyVal) → Res (list (Key * PyVal)))
        (thread : nat) (scope : string) (w : World V X) :
  scope ≠ "thread" → scope ≠ "process" →
  let error := Raise (ValueError ("Invalid scope '" +:+ scope +:+ "'")) in
  (∀ name callfunc init_method args kwargs,
      _cached_call_impl py_hash hash signature_bind thread scope name callfunc init_method
        args kwargs w = (error, w))
  ∧ (∀ callable_obj args cache_name kwargs,
      cached_call py_hash hash signature_bind thread callable_obj args scope cache_name kwargs w
      = (error, w))
  ∧ (∀ callable_obj cache_name args kwargs,
      cached py_hash hash signature_bind thread callable_obj scope cache_name args kwargs w
      = (error, w))
  ∧ (∀ cls args kwargs,
      _cache_scope cls = scope →
      Cached__call__ py_hash hash signature_bind thread cls args kwargs w = (error, w)).
Proof.
  intros Ht Hp error. repeat split; intros.
  - by apply cached_call_impl_invalid_scope.
  - by apply cached_call_impl_invalid_scope.
  - by apply cached_call_impl_invalid_scope.
  - unfold Cached__call__. subst scope. by apply cached_call_impl_invalid_scope.
Qed.

(** ** Locks that are taken while held *)



Section MemoFacts.
Context {V X : Type}.
Variable py_hash : Canon → string → Z.
Variable hash : Key → Z.
Variable Signature : Type.
Variable signature_bind :
  Signature → list PyVal → list (string * PyVal) → Res (list (Key * PyVal)).
Implicit Types (w : World V X) (callfunc : Callable V X Signature).

Lemma ThreadCache_init_existing thread name w :
  is_Some (thread_store thread w !! name) →
  @ThreadCache__init__ V X thread name w = (Ok (ThreadCache thread name), w).
Proof. intros [d Hd]. unfold ThreadCache__init__. by rewrite Hd. Qed.

Lemma ThreadCache_init_cache_dict thread name w :
  cache_dict (ThreadCache thread name) (@ThreadCache__init__ V X thread name w).2
  = cache_dict (ThreadCache thread name) w.
Proof.
  unfold ThreadCache__init__. destruct (thread_store thread w !! name) eqn:Hd; [done|].
  simpl. unfold thread_store at 1. simpl. rewrite lookup_insert_eq. simpl.
  rewrite lookup_insert_eq. by rewrite Hd.
Qed.

(** A hit: the stored value comes back and nothing at all happens. *)
Lemma cached_call_impl_hit thread scope name callfunc init_method args kwargs bound v w :
  scope = "thread" ∨ scope = "process" →
  bound_arguments signature_bind callfunc init_method args kwargs = Ok bound →
  cache_dict (selected_cache thread scope name) w
    !! KInt (_hash_content py_hash (PDict bound)) = Some v →
  _cached_call_impl py_hash hash signature_bind thread scope name callfunc init_method
    args kwargs w = (Ok v, w).
Proof.
  intros Hscope Hbound Hhit.
  unfold _cached_call_impl, selected_cache in *. rewrite Hbound.
  destruct (decide (scope = "thread")) as [->|Hnt].
  - rewrite bind_ret, bind_lift_ok. cbv beta zeta.
    set (key := KInt _) in *. clearbody key.
    rewrite (bind_ok _ _ (ThreadCache thread name) w w).
    2:{ apply ThreadCache_init_existing. by eapply cache_dict_thread_is_Some. }
    unfold bind, __contains__, __getitem__, ret. rewrite Hhit.
    rewrite bool_decide_eq_true_2 by done. cbn [negb]. by rewrite Hhit.
  - destruct Hscope as [->| ->]; [done|].
    rewrite decide_True by done.
    rewrite bind_ret, bind_lift_ok. cbv beta zeta.
    set (key := KInt _) in *. clearbody key.
    assert (is_Some (process_store name w)) as Hstore
        by by eapply cache_dict_process_is_Some.
    rewrite (bind_ok _ _ (ProcessCache name 100) w w).
    2:{ by rewrite ProcessCache_init_ok, ProcessCache_init_existing. }
    unfold bind, __contains__, __getitem__, ret. rewrite Hhit.
    rewrite bool_decide_eq_true_2 by done. cbn [negb]. by rewrite Hhit.
Qed.

Lemma ThreadCache_init_ok thread name w :
  @ThreadCache__init__ V X thread name w
  = (Ok (ThreadCache thread name), (ThreadCache__init__ thread name w).2).
Proof. unfold ThreadCache__init__. by destruct (thread_store thread w !! name). Qed.

Lemma ThreadCache_init_rest thread name w :
  w_host (@ThreadCache__init__ V X thread name w).2 = w_host w
  ∧ w_ext (@ThreadCache__init__ V X thread name w).2 = w_ext w
  ∧ w_trace (@ThreadCache__init__ V X thread name w).2 = w_trace w.
Proof. unfold ThreadCache__init__. by destruct (thread_store thread w !! name). Qed.


(** The inner check of [_cached_call_impl] on a key that is absent: the
    callable is called and its result stored. *)
Lemma miss_body_run (cache : Cache) key callfunc args kwargs r w w2 :
  cache_dict cache w !! key = None →
  c_call callfunc args kwargs w = (Ok r, w2) →
  (let! present := __contains__ cache key in
   if negb present then
     let! value := invoke (c_name callfunc) (c_call callfunc args kwargs) in
     __setitem__ cache key value
   else ret tt) w
  = (let w2' := set_trace (w_trace w ++ [EvCall (c_name callfunc)]) w2 in
     (Ok tt, put_cache_dict cache (<[key := r]> (cache_dict cache w2')) w2')).
Proof.
  intros Hmiss Hcall. unfold bind at 1, __contains__ at 1. rewrite Hmiss.
  rewrite bool_decide_eq_false_2 by (by intros [? ?]). cbn [negb].
  unfold bind, invoke. rewrite Hcall. reflexivity.
Qed.



(** Whatever a memoized call returns is what the store holds under the key
    when it returns. *)
Lemma cached_call_impl_returns_stored
      thread scope name callfunc init_method args kwargs bound r w w' :
  bound_arguments signature_bind callfunc init_method args kwargs = Ok bound →
  _cached_call_impl py_hash hash signature_bind thread scope name callfunc init_method
    args kwargs w = (Ok r, w') →
  (scope = "thread" ∨ scope = "process")
  ∧ cache_dict (selected_cache thread scope name) w'
      !! KInt (_hash_content py_hash (PDict bound)) = Some r.
Proof.
  intros Hbound Hrun.
  unfold _cached_call_impl, selected_cache in *. rewrite Hbound in Hrun.
  assert (∀ (cache : Cache) key (m : M V X unit) w0,
             (m ;;; __getitem__ cache key) w0 = (Ok r, w') →
             cache_dict cache w' !! key = Some r) as Hlast.
  { intros cache key m w0 Hm. apply bind_inv in Hm as (_ & w1 & _ & Hget).
    unfold __getitem__ in Hget.
    destruct (cache_dict cache w1 !! key) eqn:Hk; [|done]. by simplify_eq. }
  destruct (decide (scope = "thread")) as [->|Hnt].
  - split; [by left|].
    rewrite bind_ret, bind_lift_ok in Hrun. cbv beta zeta in Hrun.
    rewrite (bind_ok _ _ _ _ _ (ThreadCache_init_ok thread name w)) in Hrun.
    by eapply Hlast.
  - destruct (decide (scope = "process")) as [->|Hnp]; [|done].
    split; [by right|].
    rewrite bind_ret, bind_lift_ok in Hrun. cbv beta zeta in Hrun.
    rewrite (bind_ok _ _ _ _ _ (ProcessCache_init_ok name 100 w)) in Hrun.
    by eapply Hlast.
Qed.


End MemoFacts.

(** ** A memoized call made from within a memoized call *)

Section NestedFacts.
Import Nested.
Context {V : Type}.
Variable hash : Key → Z.
Variable nested : Key → option Key.
Variable result : Key → option V → V.
Implicit Types (s : State V) (key : Key).


Lemma run_step n s s' :
  step hash nested result s = Some s' →
  run hash nested result (S n) s = run hash nested result n s'.
Proof. intros Hstep. cbn [run]. by rewrite Hstep. Qed.


(** On another lock of the pool the inner call goes through, and then the
    outer one: both entries are stored, every lock is released, and the
    computation started twice. *)
Lemma nested_call_on_another_lock_returns key key' :
  nested key = Some key' → nested key' = None → key ≠ key' →
  hash key' `mod` 100 ≠ hash key `mod` 100 →
  let inner := result key' None in
  let outer := result key (Some inner) in
  run hash nested result 14 (start key)
  = mkState [] (<[key := outer]> (<[key' := inner]> ∅)) [] 2 (Some outer).
Proof.
  intros Hnested Hleaf Hne Hother inner outer. subst inner outer.
  unfold start.
  assert (hash key `mod` 100 ∉ [hash key' `mod` 100]) as Hfree.
  { intros Hin. apply list_elem_of_singleton in Hin. by apply Hother. }
  do 14 (erewrite run_step;
         [|unfold step; cbn [stack f_key f_at entries held started returned List.filter];
           rewrite ?lookup_empty, ?lookup_insert_eq, ?Hnested, ?Hleaf;
           rewrite ?(decide_False (P:=_ ∈ [])) by (by intros ?%elem_of_nil);
           rewrite ?(decide_False (P:=hash key' `mod` 100 ∈ [hash key `mod` 100]))
             by (intros Hin; apply list_elem_of_singleton in Hin; by apply Hother);
           rewrite ?(bool_decide_eq_false_2 (hash key' `mod` 100 ≠ hash key' `mod` 100))
             by (intros H; by apply H);
           rewrite ?(bool_decide_eq_false_2 (hash key `mod` 100 ≠ hash key `mod` 100))
             by (intros H; by apply H);
           rewrite ?(bool_decide_eq_true_2 (hash key `mod` 100 ≠ hash key' `mod` 100))
             by (intros H; by apply Hother);
           reflexivity]).
  reflexivity.
Qed.
End NestedFacts.

(** ** Per-key locks *)

Section LockFacts.
Context {V X : Type}.
Variable hash : Key → Z.
Implicit Types (w : World V X) (name : string) (key : Key).

Lemma locks_getitem_dict name key keys w :
  cache_locks name w = LockDict keys →
  locks_getitem name key w = (Ok (KeyLock key), (locks_getitem name key w).2)
  ∧ cache_locks name (locks_getitem name key w).2 = LockDict ({[key]} ∪ keys)
  ∧ cache_dict (ProcessCache name 0) (locks_getitem name key w).2
    = cache_dict (ProcessCache name 0) w
  ∧ w_ext (locks_getitem name key w).2 = w_ext w
  ∧ (∃ events : list Event,
        w_trace (locks_getitem name key w).2 = w_trace w ++ events
        ∧ (events = [] ∨ events = [EvLockCreated key])).
Proof.
  intros Hlocks. unfold locks_getitem. rewrite Hlocks.
  destruct (decide (key ∈ keys)) as [Hin|Hnin]; cbn [snd].
  - rewrite Hlocks. repeat split; try done.
    + f_equal. apply set_eq. intros k. rewrite elem_of_union, elem_of_singleton.
      split; [auto|]. by intros [->|?].
    + exists []. rewrite app_nil_r. auto.
  - rewrite cache_locks_set_trace, cache_locks_put_cache_locks.
    rewrite cache_dict_set_trace, cache_dict_put_cache_locks.
    repeat split; try done. eauto.
Qed.

(** The critical section of a store with per-key locks, step by step: the
    lock of the key is made if it is missing and taken, the body runs, the
    lock is released, and then the entry of the lock is deleted if the key
    is not in the store. *)
Lemma lock_dict_run {A} name key keys (body : M V X A) w :
  cache_locks name w = LockDict keys →
  lock hash (ProcessCache name 0) key body w
  = match body (emit (EvAcquire (KeyLock key)) (locks_getitem name key w).2).2 with
    | (r, w2) =>
        let w3 := (emit (EvRelease (KeyLock key)) w2).2 in
        if bool_decide (is_Some (cache_dict (ProcessCache name 0) w3 !! key))
        then (r, w3)
        else match locks_delitem name key w3 with
             | (Ok _, w4) => (r, w4)
             | (Raise e, w4) => (Raise e, w4)
             end
    end.
Proof.
  intros Hlocks. unfold lock. rewrite !decide_False by lia.
  destruct (locks_getitem_dict name key keys w Hlocks) as (Hget & _).
  unfold try_finally at 1. rewrite (bind_ok _ _ _ _ _ Hget).
  unfold with_lock, bind at 1, emit at 1. unfold try_finally.
  unfold emit at 2. cbn [snd].
  destruct (body _) as [r w2]. unfold emit at 1.
  unfold bind, __contains__, ret.
  by destruct (bool_decide _).
Qed.
End LockFacts.

(** ** Cached properties *)

Section PropertyFacts.
Variable hash : Key → Z.
Variable getattr : string → PM Value.
Variable str_format : string → list (string * Value) → Res string.
Implicit Types (w : World Item Ext) (self : cached_property) (f : Method).

Lemma get_cache_not_pickled self f w :
  function self = Some f → not_pickled self →
  get_cache self w
  = (Ok (mkOwnedCache property_cache (KStr (m_name f)) None),
     (ProcessCache__init__ "property_cache" 0 w).2).
Proof.
  intros Hf Hclass. unfold get_cache, name. rewrite Hf, bind_ret.
  assert (_OwnedCache__init__ (KStr (m_name f)) None w
          = (Ok (mkOwnedCache property_cache (KStr (m_name f)) None),
             (ProcessCache__init__ "property_cache" 0 w).2)) as Hinit.
  { unfold _OwnedCache__init__.
    by rewrite (bind_ok _ _ _ _ _ (ProcessCache_init_ok "property_cache" 0 w)). }
  by destruct Hclass as [-> | ->].
Qed.

Lemma cache_locks_after_property_init w :
  per_key_locks w →
  ∃ keys, cache_locks "property_cache" (@ProcessCache__init__ Item Ext "property_cache" 0 w).2
          = LockDict keys.
Proof.
  intros Hlocks. unfold cache_locks. rewrite ProcessCache_init_store.
  destruct (process_store "property_cache" w) as [s|] eqn:Hs; simpl.
  - by apply Hlocks.
  - by exists ∅.
Qed.

(** Entering the lock of a property changes neither the slots nor the
    rest of the owner, and calls no user code. *)
Lemma state_in_lock_facts key w :
  per_key_locks w →
  cache_dict property_cache (state_in_lock key w) = cache_dict property_cache w
  ∧ w_ext (state_in_lock key w) = w_ext w
  ∧ calls (w_trace (state_in_lock key w)) = calls (w_trace w)
  ∧ ∃ keys, cache_locks "property_cache" (state_in_lock key w) = LockDict ({[key]} ∪ keys).
Proof.
  intros Hlocks. unfold state_in_lock.
  destruct (cache_locks_after_property_init w Hlocks) as [keys Hkeys].
  destruct (locks_getitem_dict "property_cache" key keys _ Hkeys)
    as (_ & Hl & Hd & Hx & events & Htr & Hev).
  destruct (ProcessCache_init_trace "property_cache" 0 w) as (events0 & Htr0 & Hev0).
  destruct (ProcessCache_init_rest "property_cache" 0 w) as (_ & Hx0).
  unfold emit. cbn [snd]. rewrite cache_dict_set_trace, cache_locks_set_trace.
  unfold property_cache in *. rewrite Hd, ProcessCache_init_cache_dict.
  split; [done|]. split; [by rewrite <- Hx0, <- Hx|].
  split; [|by exists keys].
  cbn [w_trace set_trace]. rewrite Htr, Htr0, !calls_app.
  assert (calls events0 = 0%nat) as ->.
  { clear -Hev0. induction Hev0 as [|e l [-> | ->] _ IH]; done. }
  assert (calls events = 0%nat) as -> by by destruct Hev as [-> | ->].
  unfold calls. simpl. lia.
Qed.

Lemma get_value_unfold self f dep_values w w1 :
  function self = Some f → not_pickled self →
  dependency_values getattr self w = (Ok dep_values, w1) →
  per_key_locks w1 →
  cached_property_get_value hash getattr str_format self w
  = match get_body getattr str_format self dep_values (mkOwnedCache property_cache (KStr (m_name f)) None)
            (state_in_lock (KStr (m_name f)) w1) with
    | (r, w2) =>
        let w3 := (emit (EvRelease (KeyLock (KStr (m_name f)))) w2).2 in
        if bool_decide (is_Some (cache_dict property_cache w3 !! KStr (m_name f)))
        then (r, w3)
        else match locks_delitem "property_cache" (KStr (m_name f)) w3 with
             | (Ok _, w4) => (r, w4)
             | (Raise e, w4) => (Raise e, w4)
             end
    end.
Proof.
  intros Hf Hclass Hdeps Hlocks. unfold cached_property_get_value.
  rewrite (bind_ok _ _ _ _ _ Hdeps).
  rewrite (bind_ok _ _ _ _ _ (get_cache_not_pickled self f w1 Hf Hclass)).
  unfold _OwnedCache_lock. cbn [oc_cache oc_key].
  destruct (cache_locks_after_property_init w1 Hlocks) as [keys Hkeys].
  unfold property_cache. by rewrite (lock_dict_run hash _ _ keys _ _ Hkeys).
Qed.

Lemma get_body_hit self dep_values key snap v w :
  cache_dict property_cache w !! key = Some (snap, v) →
  tuple_eq dep_values snap = true →
  get_body getattr str_format self dep_values (mkOwnedCache property_cache key None) w = (Ok v, w).
Proof.
  intros Hslot Heq. unfold get_body, full, retrieve. cbn [oc_parent].
  unfold _OwnedCache_full, _OwnedCache_retrieve. cbn [oc_cache oc_key].
  unfold bind at 1, __contains__ at 1. rewrite Hslot.
  rewrite bool_decide_eq_true_2 by done.
  unfold bind at 1. unfold bind at 1. unfold __getitem__. rewrite Hslot.
  unfold ret at 1. cbn [fst snd snapshot_differs]. by rewrite Heq.
Qed.

Lemma get_body_miss self f dep_values key r w w2 :
  function self = Some f →
  slot_valid dep_values (cache_dict property_cache w !! key) = false →
  m_call f w = (Ok r, w2) →
  get_body getattr str_format self dep_values (mkOwnedCache property_cache key None) w
  = (let w2' := set_trace (w_trace w ++ [EvCall (m_name f)]) w2 in
     (Ok r, put_cache_dict property_cache
              (<[key := (dep_values, r)]> (cache_dict property_cache w2')) w2')).
Proof.
  intros Hf Hinvalid Hcall. unfold get_body, full, retrieve, insert. cbn [oc_parent].
  unfold _OwnedCache_full, _OwnedCache_retrieve, _OwnedCache_insert. cbn [oc_cache oc_key].
  assert (call_function self w
          = (Ok r, set_trace (w_trace w ++ [EvCall (m_name f)]) w2)) as Hrun.
  { unfold call_function, invoke. by rewrite Hf, Hcall. }
  unfold bind at 1, __contains__ at 1.
  destruct (cache_dict property_cache w !! key) as [[snap v]|] eqn:Hslot.
  - rewrite bool_decide_eq_true_2 by done.
    unfold bind at 1. unfold bind at 1. unfold __getitem__. rewrite Hslot.
    unfold ret at 1. cbn [fst snd snapshot_differs]. simpl in Hinvalid.
    rewrite Hinvalid. cbn [negb].
    rewrite (bind_ok _ _ _ _ _ Hrun). by unfold bind, __setitem__, ret.
  - rewrite bool_decide_eq_false_2 by (by intros [? ?]).
    unfold bind at 1. unfold ret at 1. cbn [fst snd snapshot_differs].
    rewrite (bind_ok _ _ _ _ _ Hrun). by unfold bind, __setitem__, ret.
Qed.

(** C2. A read of a [cached_property] on an owner, once the dependency
    values are read: when the slot holds a snapshot equal to them, the
    stored value is returned, the slots and the rest of the owner stay as
    they are and the function is not called; in every other case (no slot,
    or a snapshot that differs) the function is called once on the owner,
    the pair of the new snapshot and the new value is stored in the slot,
    and the new value is returned. *)
Theorem cached_property_get_valid_or_recompute self f dep_values w w1 :
  function self = Some f →
  class self = cached_property_class →
  dependency_values getattr self w = (Ok dep_values, w1) →
  per_key_locks w1 →
  let key := m_name f in
  let read := __get__ hash getattr str_format self false in
  (∀ snap v,
      slot key w1 = Some (snap, v) → tuple_eq dep_values snap = true →
      ∃ w3, read w = (Ok (GotValue v), w3)
            ∧ cache_dict property_cache w3 = cache_dict property_cache w1
            ∧ w_ext w3 = w_ext w1
            ∧ calls (w_trace w3) = calls (w_trace w1))
  ∧ (slot_valid dep_values (slot key w1) = false →
     ∀ r w2,
       m_call f (state_in_lock (KStr key) w1) = (Ok r, w2) →
       ∃ w3, read w = (Ok (GotValue r), w3)
             ∧ slot key w3 = Some (dep_values, r)
             ∧ w_ext w3 = w_ext w2
             ∧ calls (w_trace w3) = S (calls (w_trace w1))).
Proof.
  intros Hf Hclass Hdeps Hlocks key read. subst key read.
  assert (not_pickled self) as Hnp by by left.
  destruct (state_in_lock_facts (KStr (m_name f)) w1 Hlocks) as (Hd & Hx & Hc & _).
  unfold __get__, cached_property__get__, slot. rewrite Hclass.
  split.
  - intros snap v Hslot Heq.
    rewrite <- Hd in Hslot.
    erewrite bind_ok; cycle 1.
    { rewrite (get_value_unfold self f dep_values w w1) by done.
      rewrite (get_body_hit self dep_values _ snap v _ Hslot Heq). cbv zeta.
      unfold emit. cbn [snd]. rewrite cache_dict_set_trace, Hslot.
      by rewrite bool_decide_eq_true_2 by done. }
    eexists. split; [reflexivity|].
    rewrite cache_dict_set_trace. split; [done|]. split; [done|].
    cbn [w_trace set_trace]. rewrite calls_app, Hc. unfold calls. simpl. lia.
  - intros Hinvalid r w2 Hcall.
    rewrite <- Hd in Hinvalid.
    erewrite bind_ok; cycle 1.
    { rewrite (get_value_unfold self f dep_values w w1) by done.
      rewrite (get_body_miss self f dep_values _ r _ w2 Hf Hinvalid Hcall). cbv zeta.
      unfold emit. cbn [snd]. rewrite cache_dict_set_trace.
      rewrite cache_dict_put_cache_dict, lookup_insert_eq.
      by rewrite bool_decide_eq_true_2 by done. }
    eexists. split; [reflexivity|].
    rewrite cache_dict_set_trace, cache_dict_put_cache_dict, lookup_insert_eq.
    split; [done|]. split; [done|].
    cbn [w_trace set_trace put_cache_dict property_cache put_store set_host].
    rewrite !calls_app, Hc. unfold calls. simpl. lia.
Qed.

Lemma delete_empty_run self f w :
  function self = Some f → not_pickled self →
  slot (m_name f) w = None →
  cached_property__delete__ hash getattr str_format self w
  = (Ok tt, (ProcessCache__init__ "property_cache" 0 w).2).
Proof.
  intros Hf Hclass Hslot. unfold cached_property__delete__.
  rewrite (bind_ok _ _ _ _ _ (get_cache_not_pickled self f w Hf Hclass)).
  unfold full. cbn [oc_parent]. unfold _OwnedCache_full. cbn [oc_cache oc_key].
  unfold bind, __contains__. unfold property_cache, slot in *.
  rewrite ProcessCache_init_cache_dict. unfold property_cache in Hslot. rewrite Hslot.
  by rewrite bool_decide_eq_false_2 by (by intros [? ?]).
Qed.

(** C10. Deleting a [cached_property] (or [lazy_property]) whose slot is
    empty raises nothing, takes no lock of a key and leaves the slots and
    the rest of the owner as they are.  All it can do is what building the
    cache object does: an owner that has no store yet gets an empty one,
    made under [STORE_LOCK]; with the store there, the state is untouched. *)
Theorem delete_of_empty_slot self f w :
  function self = Some f → not_pickled self →
  slot (m_name f) w = None →
  ∃ w',
    cached_property__delete__ hash getattr str_format self w = (Ok tt, w')
    ∧ cache_dict property_cache w' = cache_dict property_cache w
    ∧ w_ext w' = w_ext w
    ∧ (∃ events : list Event,
          w_trace w' = w_trace w ++ events
          ∧ Forall (λ e, e = EvAcquire STORE_LOCK ∨ e = EvRelease STORE_LOCK) events)
    ∧ (is_Some (process_store "property_cache" w) → w' = w).
Proof.
  intros Hf Hclass Hslot. eexists. split; [by apply (delete_empty_run self f)|].
  split; [apply ProcessCache_init_cache_dict|].
  split; [apply ProcessCache_init_rest|].
  split; [apply ProcessCache_init_trace|].
  apply ProcessCache_init_existing.
Qed.

Lemma lazy_get_unset self w w1 :
  any_member_is_none getattr (dependencies self) w = (Ok true, w1) →
  lazy_property__get__ hash getattr str_format self false w = (Ok (GotValue VNone), w1).
Proof. intros Hany. unfold lazy_property__get__. by rewrite (bind_ok _ _ _ _ _ Hany). Qed.

Lemma lazy_get_all_set self w w1 :
  any_member_is_none getattr (dependencies self) w = (Ok false, w1) →
  lazy_property__get__ hash getattr str_format self false w
  = cached_property__get__ hash getattr str_format self false w1.
Proof. intros Hany. unfold lazy_property__get__. by rewrite (bind_ok _ _ _ _ _ Hany). Qed.

(** On attributes of the instance the loop of [lazy_property.__get__] only
    looks. *)
Lemma any_member_is_none_plain members w :
  any_member_is_none plain_getattr members w
  = (Ok (existsb (λ m, reads_as_none m w) members), w).
Proof.
  induction members as [|m members IH]; [done|].
  cbn [any_member_is_none existsb]. unfold bind, getattr_default, plain_getattr at 1.
  unfold reads_as_none at 1.
  destruct (x_attrs (w_ext w) !! m) as [v|]; [|done].
  destruct (py_is v VNone); [done|]. by rewrite IH.
Qed.
End PropertyFacts.

(** C7. A read of a [lazy_property]: when the loop over the dependencies
    finds one that reads as [None] (unset, or set to [None]), the read returns
    [None] and the state is the one the reads of the dependencies left, so
    the function is not called and no cache object is built; when it finds
    none, the read goes on as the read of a [cached_property] from the state
    the loop left.  On an owner whose dependencies are attributes of the
    instance the loop changes nothing: with one of them unset or [None] the
    read returns [None] and the owner is untouched, and with all of them set
    the read is the read of a [cached_property]. *)
Theorem lazy_property_read
        (hash : Key → Z) (getattr : string → PM Value)
        (str_format : string → list (string * Value) → Res string)
        (self : cached_property) (w : World Item Ext) :
  class self = lazy_property_class →
  (∀ w1, any_member_is_none getattr (dependencies self) w = (Ok true, w1) →
         __get__ hash getattr str_format self false w = (Ok (GotValue VNone), w1))
  ∧ (∀ w1, any_member_is_none getattr (dependencies self) w = (Ok false, w1) →
           __get__ hash getattr str_format self false w
           = cached_property__get__ hash getattr str_format self false w1)
  ∧ (Exists (λ d, reads_as_none d w = true) (dependencies self) →
     __get__ hash plain_getattr str_format self false w = (Ok (GotValue VNone), w))
  ∧ (Forall (λ d, reads_as_none d w = false) (dependencies self) →
     __get__ hash plain_getattr str_format self false w
     = cached_property__get__ hash plain_getattr str_format self false w).
Proof.
  intros Hclass. unfold __get__. rewrite Hclass.
  split; [|split; [|split]].
  - intros w1. apply lazy_get_unset.
  - intros w1. apply lazy_get_all_set.
  - intros Hex. apply lazy_get_unset. rewrite any_member_is_none_plain.
    do 2 f_equal. apply existsb_exists. apply Exists_exists in Hex as (d & Hin & Hd).
    exists d. split; [by apply list_elem_of_In|done].
  - intros Hall. apply lazy_get_all_set. rewrite any_member_is_none_plain.
    do 2 f_equal. apply not_true_is_false. intros Hex.
    apply existsb_exists in Hex as (d & Hin & Hd).
    rewrite Forall_forall in Hall. apply list_elem_of_In in Hin.
    specialize (Hall d Hin). congruence.
Qed.

(** ** Pickled properties *)

Section PicklerFacts.
Variable getattr : string → PM Value.
Variable str_format : string → list (string * Value) → Res string.
Implicit Types (w : World Item Ext) (parent : cached_property) (key : Key).

Lemma pickler_full_in_memory parent key item w :
  cache_dict property_cache w !! key = Some item →
  full getattr str_format (mkOwnedCache property_cache key (Some parent)) w = (Ok true, w).
Proof.
  intros Hslot. unfold full. cbn [oc_parent].
  unfold _OwnedPicklerCache_full, _OwnedCache_full. cbn [oc_cache oc_key].
  unfold bind, __contains__. rewrite Hslot.
  by rewrite bool_decide_eq_true_2 by done.
Qed.

Lemma pickler_full_on_disk parent key filename w w1 :
  cache_dict property_cache w !! key = None →
  _OwnedPicklerCache_filename getattr str_format parent w = (Ok filename, w1) →
  full getattr str_format (mkOwnedCache property_cache key (Some parent)) w
  = (Ok (bool_decide (is_Some (x_files (w_ext w1) !! filename))), w1).
Proof.
  intros Hslot Hname. unfold full. cbn [oc_parent].
  unfold _OwnedPicklerCache_full, _OwnedCache_full. cbn [oc_cache oc_key].
  unfold bind at 1, __contains__ at 1. rewrite Hslot.
  rewrite bool_decide_eq_false_2 by (by intros [? ?]).
  by rewrite (bind_ok _ _ _ _ _ Hname).
Qed.

Lemma pickler_retrieve_from_disk parent key filename item w w1 :
  cache_dict property_cache w !! key = None →
  _OwnedPicklerCache_filename getattr str_format parent w = (Ok filename, w1) →
  x_files (w_ext w1) !! filename = Some item →
  retrieve getattr str_format (mkOwnedCache property_cache key (Some parent)) w
  = (Ok item,
     put_cache_dict property_cache (<[key := item]> (cache_dict property_cache w1)) w1).
Proof.
  intros Hslot Hname Hfile. unfold retrieve. cbn [oc_parent].
  unfold _OwnedPicklerCache_retrieve, _OwnedCache_full, _OwnedCache_insert.
  cbn [oc_cache oc_key].
  unfold bind at 1, __contains__ at 1. rewrite Hslot.
  rewrite bool_decide_eq_false_2 by (by intros [? ?]).
  rewrite (bind_ok _ _ _ _ _ Hname).
  unfold bind, path_exists, pload, __setitem__, ret. rewrite Hfile.
  rewrite bool_decide_eq_true_2 by done. by rewrite Hfile.
Qed.

Lemma pickler_retrieve_not_found parent key filename w w1 :
  cache_dict property_cache w !! key = None →
  _OwnedPicklerCache_filename getattr str_format parent w = (Ok filename, w1) →
  x_files (w_ext w1) !! filename = None →
  retrieve getattr str_format (mkOwnedCache property_cache key (Some parent)) w
  = (Raise (KeyError key), w1).
Proof.
  intros Hslot Hname Hfile. unfold retrieve. cbn [oc_parent].
  unfold _OwnedPicklerCache_retrieve, _OwnedCache_full. cbn [oc_cache oc_key].
  unfold bind at 1, __contains__ at 1. rewrite Hslot.
  rewrite bool_decide_eq_false_2 by (by intros [? ?]).
  rewrite (bind_ok _ _ _ _ _ Hname).
  unfold bind, path_exists, raise. rewrite Hfile.
  by rewrite bool_decide_eq_false_2 by (by intros [? ?]).
Qed.

(** The cache of a [pickled_cached_property] whose slot in memory is
    absent, once the name of the file is resolved: when the file exists,
    [retrieve] puts its content, a pair of a snapshot and a value, in the
    slot and returns it, and does nothing else (the function of the
    property is not called); when it does not, [retrieve] raises [KeyError];
    and [full] answers whether the file exists, while with a slot in
    memory [full] is true without looking at the files. *)
Lemma pickler_cache_falls_back_to_file parent key filename w w1 :
  cache_dict property_cache w !! key = None →
  _OwnedPicklerCache_filename getattr str_format parent w = (Ok filename, w1) →
  let cache := mkOwnedCache property_cache key (Some parent) in
  (∀ item,
      x_files (w_ext w1) !! filename = Some item →
      ∃ w2, retrieve getattr str_format cache w = (Ok item, w2)
            ∧ cache_dict property_cache w2 !! key = Some item
            ∧ w_ext w2 = w_ext w1
            ∧ w_trace w2 = w_trace w1)
  ∧ (x_files (w_ext w1) !! filename = None →
     retrieve getattr str_format cache w = (Raise (KeyError key), w1))
  ∧ full getattr str_format cache w
    = (Ok (bool_decide (is_Some (x_files (w_ext w1) !! filename))), w1)
  ∧ (∀ w' item,
        cache_dict property_cache w' !! key = Some item →
        full getattr str_format cache w' = (Ok true, w')).
Proof.
  intros Hslot Hname cache. subst cache. split; [|split; [|split]].
  - intros item Hfile. eexists. split; [by eapply pickler_retrieve_from_disk|].
    rewrite cache_dict_put_cache_dict, lookup_insert_eq. done.
  - intros Hfile. by eapply pickler_retrieve_not_found.
  - by apply pickler_full_on_disk.
  - intros w' item Hitem. by eapply pickler_full_in_memory.
Qed.
End PicklerFacts.

Lemma get_cache_pickled self f template (w : World Item Ext) :
  function self = Some f → class self = pickled_cached_property_class template →
  get_cache self w
  = (Ok (mkOwnedCache property_cache (KStr (m_name f)) (Some self)),
     (ProcessCache__init__ "property_cache" 0 w).2).
Proof.
  intros Hf Hclass. unfold get_cache, name. rewrite Hf, bind_ret, Hclass.
  unfold _OwnedCache__init__.
  by rewrite (bind_ok _ _ _ _ _ (ProcessCache_init_ok "property_cache" 0 w)).
Qed.

(** The read of a [pickled_cached_property] on attributes of the
    instance, as [cached_property.__get__] does it for an owner that is not
    [None], with no slot in memory and a file whose snapshot equals the
    current dependency values. *)
Lemma pickled_get_value_loads_valid_file
      hash str_format self f template filename dep_values snap v (w : World Item Ext) :
  function self = Some f → class self = pickled_cached_property_class template →
  per_key_locks w →
  slot (m_name f) w = None →
  (∀ w', w_ext w' = w_ext w →
         dependency_values plain_getattr self w' = (Ok dep_values, w')) →
  str_format template (zip (dependencies self) dep_values) = Ok filename →
  x_files (w_ext w) !! filename = Some (snap, v) →
  tuple_eq dep_values snap = true →
  ∃ w3, cached_property_get_value hash plain_getattr str_format self w = (Ok v, w3)
        ∧ slot (m_name f) w3 = Some (snap, v)
        ∧ w_ext w3 = w_ext w
        ∧ calls (w_trace w3) = calls (w_trace w).
Proof.
  intros Hf Hclass Hlocks Hslot Hdeps Hformat Hfile Hvalid.
  unfold cached_property_get_value, slot in *.
  rewrite (bind_ok _ _ _ _ _ (Hdeps w eq_refl)).
  rewrite (bind_ok _ _ _ _ _ (get_cache_pickled self f template w Hf Hclass)).
  unfold _OwnedCache_lock. cbn [oc_cache oc_key].
  destruct (cache_locks_after_property_init w Hlocks) as [keys Hkeys].
  unfold property_cache at 1. rewrite (lock_dict_run hash _ _ keys _ _ Hkeys).
  destruct (state_in_lock_facts (KStr (m_name f)) w Hlocks) as (Hd & Hx & Hc & _).
  unfold state_in_lock in Hd, Hx, Hc.
  set (wb := (emit _ (locks_getitem _ _ _).2).2) in *.
  assert (cache_dict property_cache wb !! KStr (m_name f) = None) as Hslotb
      by by rewrite Hd.
  assert (_OwnedPicklerCache_filename plain_getattr str_format self wb = (Ok filename, wb))
    as Hname.
  { unfold _OwnedPicklerCache_filename, get_filename. rewrite Hclass.
    rewrite (bind_ok _ _ _ _ _ (Hdeps wb Hx)). unfold lift_res. by rewrite Hformat. }
  assert (x_files (w_ext wb) !! filename = Some (snap, v)) as Hfileb by by rewrite Hx.
  unfold get_body.
  rewrite (bind_ok _ _ _ _ _
             (pickler_full_on_disk plain_getattr str_format self _ filename wb wb Hslotb Hname)).
  rewrite Hfileb, bool_decide_eq_true_2 by done.
  unfold bind at 1. unfold bind at 1.
  rewrite (pickler_retrieve_from_disk plain_getattr str_format self _ filename (snap, v)
             wb wb Hslotb Hname Hfileb).
  unfold ret at 1. cbn [fst snd snapshot_differs]. rewrite Hvalid. cbn [negb].
  unfold ret at 1. cbv zeta. unfold emit. cbn [snd].
  rewrite cache_dict_set_trace, cache_dict_put_cache_dict, lookup_insert_eq.
  rewrite bool_decide_eq_true_2 by done.
  eexists. split; [reflexivity|].
  rewrite cache_dict_set_trace, cache_dict_put_cache_dict, lookup_insert_eq.
  split; [done|]. split; [done|].
  cbn [w_trace set_trace put_cache_dict property_cache put_store set_host].
  rewrite calls_app, Hc. unfold calls. simpl. lia.
Qed.

(** X22. The read of a [pickled_cached_property] on attributes of the
    instance, with no slot in memory and a file whose snapshot equals the
    current dependency values: the pair of the file is put in the slot and
    its value returned, and the function is not called. *)
Lemma pickled_get_loads_valid_file
      hash str_format self f template filename dep_values snap v (w : World Item Ext) :
  function self = Some f → class self = pickled_cached_property_class template →
  per_key_locks w →
  slot (m_name f) w = None →
  (∀ w', w_ext w' = w_ext w →
         dependency_values plain_getattr self w' = (Ok dep_values, w')) →
  str_format template (zip (dependencies self) dep_values) = Ok filename →
  x_files (w_ext w) !! filename = Some (snap, v) →
  tuple_eq dep_values snap = true →
  ∃ w3, __get__ hash plain_getattr str_format self false w = (Ok (GotValue v), w3)
        ∧ slot (m_name f) w3 = Some (snap, v)
        ∧ w_ext w3 = w_ext w
        ∧ calls (w_trace w3) = calls (w_trace w).
Proof.
  intros Hf Hclass Hlocks Hslot Hdeps Hformat Hfile Hvalid.
  destruct (pickled_get_value_loads_valid_file hash str_format self f template filename
              dep_values snap v w Hf Hclass Hlocks Hslot Hdeps Hformat Hfile Hvalid)
    as (w3 & Hrun & Hrest).
  exists w3. split; [|exact Hrest].
  unfold __get__, cached_property__get__. rewrite Hclass.
  by rewrite (bind_ok _ _ _ _ _ Hrun).
Qed.

(** ** The lock of a key and its entry *)

(** C5. The critical section of a store with per-key locks, around a body
    that leaves the lock map alone.  The entry of the lock is deleted only
    when the key is absent from the store after the body, and kept when the
    key is there.  The deletion comes after the release: the trace ends with
    the release of the lock of the key followed by the removal of its entry,
    so the lock is no longer held when its entry goes. *)
Theorem per_key_lock_entry_removed_after_release
        {V X A : Type} (hash : Key → Z) (name : string) (key : Key) (keys : gset Key)
        (body : M V X A) (w w2 : World V X) (r : Res A) :
  cache_locks name w = LockDict keys →
  body (emit (EvAcquire (KeyLock key)) (locks_getitem name key w).2).2 = (r, w2) →
  cache_locks name w2 = LockDict ({[key]} ∪ keys) →
  let run := lock hash (ProcessCache name 0) key body w in
  (cache_dict (ProcessCache name 0) w2 !! key = None →
   run.1 = r
   ∧ w_trace run.2 = w_trace w2 ++ [EvRelease (KeyLock key); EvLockRemoved key]
   ∧ cache_locks name run.2 = LockDict (({[key]} ∪ keys) ∖ {[key]}))
  ∧ (is_Some (cache_dict (ProcessCache name 0) w2 !! key) →
     run.1 = r
     ∧ w_trace run.2 = w_trace w2 ++ [EvRelease (KeyLock key)]
     ∧ cache_locks name run.2 = LockDict ({[key]} ∪ keys)).
Proof.
  intros Hlocks Hbody Hkept run. subst run.
  rewrite (lock_dict_run hash name key keys body w Hlocks), Hbody. cbv zeta.
  unfold emit. cbn [snd]. rewrite cache_dict_set_trace.
  split.
  - intros Habsent. rewrite Habsent.
    rewrite bool_decide_eq_false_2 by (by intros [? ?]).
    unfold locks_delitem. rewrite cache_locks_set_trace, Hkept.
    rewrite decide_True by set_solver. cbn [fst snd].
    rewrite cache_locks_set_trace, cache_locks_put_cache_locks.
    split; [done|]. split; [|done].
    cbn [w_trace set_trace put_cache_locks put_store set_host].
    by rewrite <- app_assoc.
  - intros Hpresent. rewrite bool_decide_eq_true_2 by done. cbn [fst snd].
    by rewrite cache_locks_set_trace.
Qed.

(** ** Dependency snapshots *)

Lemma getattr_all_plain (names : list string) (w : World Item Ext) :
  (∀ x, x ∈ names → is_Some (x_attrs (w_ext w) !! x)) →
  getattr_all plain_getattr names w = (Ok (map (attribute w) names), w).
Proof.
  induction names as [|x names IH]; intros Hset; [done|].
  cbn [getattr_all map]. unfold bind at 1, plain_getattr at 1, attribute at 1.
  destruct (Hset x) as [v Hv]; [by left|]. rewrite Hv.
  rewrite (bind_ok _ _ _ _ _ (IH (λ y Hy, Hset y (list_elem_of_further _ _ _ Hy)))).
  done.
Qed.

Lemma tuple_eq_Forall2 (a b : list Value) :
  tuple_eq a b = true ↔ Forall2 (λ x y, py_eq x y = true) a b.
Proof.
  revert b. induction a as [|x a IH]; intros [|y b]; simpl.
  - split; [constructor|done].
  - split; [done|]. intros H. inversion H.
  - split; [done|]. intros H. inversion H.
  - rewrite andb_true_iff, IH. split.
    + intros [? ?]. by constructor.
    + intros H. inversion H. by subst.
Qed.

Lemma is_cache_valid_plain hash str_format self f snap v current w :
  function self = Some f → not_pickled self → per_key_locks w →
  slot (m_name f) w = Some (snap, v) →
  (∀ w', w_ext w' = w_ext w → dependency_values plain_getattr self w' = (Ok current, w')) →
  ∃ w', is_cache_valid hash plain_getattr str_format self w = (Ok (tuple_eq snap current), w').
Proof.
  intros Hf Hclass Hlocks Hslot Hdeps. unfold is_cache_valid, slot in *.
  rewrite (bind_ok _ _ _ _ _ (get_cache_not_pickled self f w Hf Hclass)).
  set (w1 := (ProcessCache__init__ "property_cache" 0 w).2).
  assert (cache_dict property_cache w1 !! KStr (m_name f) = Some (snap, v)) as Hslot1.
  { subst w1. unfold property_cache. by rewrite ProcessCache_init_cache_dict. }
  unfold full, retrieve. cbn [oc_parent].
  unfold _OwnedCache_full, _OwnedCache_retrieve, _OwnedCache_lock. cbn [oc_cache oc_key].
  unfold bind at 1, __contains__ at 1. rewrite Hslot1.
  rewrite bool_decide_eq_true_2 by done. cbn [negb].
  destruct (cache_locks_after_property_init w Hlocks) as [keys Hkeys]. fold w1 in Hkeys.
  unfold property_cache. rewrite (lock_dict_run hash _ _ keys _ _ Hkeys).
  destruct (state_in_lock_facts (KStr (m_name f)) w Hlocks) as (Hd & Hx & _ & _).
  unfold state_in_lock in Hd, Hx. fold w1 in Hd, Hx.
  set (wb := (emit _ (locks_getitem _ _ w1).2).2) in *.
  assert (cache_dict property_cache wb !! KStr (m_name f) = Some (snap, v)) as Hslotb.
  { rewrite Hd. unfold property_cache. subst w1.
    rewrite <- (ProcessCache_init_cache_dict "property_cache" 0 0 w). exact Hslot1. }
  unfold bind at 1, __contains__ at 1. fold property_cache. rewrite Hslotb.
  rewrite bool_decide_eq_true_2 by done. cbn [negb].
  unfold bind at 1, __getitem__ at 1. rewrite Hslotb.
  rewrite (bind_ok _ _ _ _ _ (Hdeps wb Hx)). unfold ret. cbn [fst]. cbv zeta.
  unfold emit. cbn [snd]. rewrite cache_dict_set_trace, Hslotb.
  rewrite bool_decide_eq_true_2 by done. by eexists.
Qed.

(** C8. The snapshot of a property is the tuple of the current values of its
    dependencies in the order in which the frozenset of the declared names
    is iterated: each distinct declared name once, in an order fixed for the
    property.  Validity compares the stored snapshot with the current one by
    [==], item by item, whatever the identity of the items. *)
Theorem snapshot_follows_frozenset_order
        (hash : Key → Z) (iter : list string → list string)
        (str_format : string → list (string * Value) → Res string)
        (cls : PropertyClass) (m : MethodOrDependency) (deps : list string)
        (f : Method) (w : World Item Ext) :
  frozenset_order iter →
  let self := cached_property__call__ (cached_property__init__ iter cls m deps) f in
  let current := map (attribute w) (dependencies self) in
  NoDup (dependencies self)
  ∧ (∀ x, x ∈ dependencies self ↔ x ∈ declared_names m deps)
  ∧ ((∀ x, x ∈ declared_names m deps → is_Some (x_attrs (w_ext w) !! x)) →
     dependency_values plain_getattr self w = (Ok current, w)
     ∧ (not_pickled self → per_key_locks w →
        ∀ snap v, slot (m_name f) w = Some (snap, v) →
                  ∃ w', is_cache_valid hash plain_getattr str_format self w
                        = (Ok (tuple_eq snap current), w')))
  ∧ (∀ a b, tuple_eq a b = true ↔ Forall2 (λ x y, py_eq x y = true) a b)
  ∧ (∀ i j c, py_eq (VObj i c) (VObj j c) = true).
Proof.
  intros Hiter self current.
  assert (dependencies self = iter (declared_names m deps)) as Hdeps.
  { subst self. by destruct m. }
  destruct (Hiter (declared_names m deps)) as [Hnodup Helem].
  split; [by rewrite Hdeps|]. split; [by rewrite Hdeps|].
  split; [|split; [apply tuple_eq_Forall2|]].
  - intros Hset.
    assert (∀ w', w_ext w' = w_ext w →
                  dependency_values plain_getattr self w' = (Ok current, w')) as Hvalues.
    { intros w' Hx. unfold dependency_values. rewrite getattr_all_plain.
      - subst current. unfold attribute. by rewrite Hx.
      - intros x Hin. rewrite Hx. apply Hset. apply Helem. by rewrite <- Hdeps. }
    split; [by apply Hvalues|].
    intros Hclass Hlocks snap v Hslot.
    by eapply (is_cache_valid_plain hash str_format self f).
  - intros i j c. simpl. by apply bool_decide_eq_true_2.
Qed.

(** ** Threads *)

Section ThreadFacts.
Import Threads.
Context {V : Type}.
Variable callfunc : nat → V.
Implicit Types (sh : Shared V) (s : System (V:=V)) (t : nat).

Ltac crush := intuition (try congruence; try lia).

Ltac step_cases H :=
  repeat match type of H with
         | context [if ?b then _ else _] => destruct b
         | context [match ?o with Some _ => _ | None => _ end] => destruct o
         end;
  simplify_eq.

Ltac all_bools := repeat match goal with b : bool |- _ => destruct b end.

(** A step keeps what holds of the thread that takes it and of what the
    threads share. *)
Lemma thread_step_self t at_ next sh sh' :
  thread_step callfunc t at_ sh = Some (next, sh') →
  shared_ok sh → thread_ok t at_ sh →
  thread_ok t next sh' ∧ shared_ok sh'.
Proof.
  intros Hstep Hsh Hok. unfold thread_ok, shared_ok in *.
  destruct sh as [hs ns e sl kl c].
  cbn [host_store named_store entry store_lock key_lock counter] in *.
  destruct at_; cbn in Hstep, Hok |- *; step_cases Hstep; cbn; all_bools; solve [crush].
Qed.

(** A step keeps what holds of every other thread. *)
Lemma thread_step_other t t' at_ at' next sh sh' :
  t ≠ t' →
  thread_step callfunc t at_ sh = Some (next, sh') →
  shared_ok sh → thread_ok t at_ sh → thread_ok t' at' sh →
  thread_ok t' at' sh'.
Proof.
  intros Hne Hstep Hsh Hok Hok'. unfold thread_ok, shared_ok in *.
  destruct sh as [hs ns e sl kl c].
  cbn [host_store named_store entry store_lock key_lock counter] in *.
  destruct at_; cbn in Hstep, Hok; step_cases Hstep; try exact Hok';
    cbn [host_store named_store entry store_lock key_lock counter];
    destruct at'; cbn in Hok' |- *; first [solve [crush] | solve [all_bools; crush]].
Qed.

Lemma thread_step_holders t at_ next sh sh' :
  thread_step callfunc t at_ sh = Some (next, sh') →
  (∀ x, store_lock sh' = Some x → x = t ∨ store_lock sh = Some x)
  ∧ (∀ x, key_lock sh' = Some x → x = t ∨ key_lock sh = Some x).
Proof.
  intros Hstep. destruct sh as [hs ns e sl kl c].
  destruct at_; cbn in Hstep; step_cases Hstep; cbn; split; intros x Hx; simplify_eq; auto.
Qed.

Lemma thread_step_less t at_ next sh sh' :
  thread_step callfunc t at_ sh = Some (next, sh') →
  (steps_left next < steps_left at_)%nat.
Proof.
  intros Hstep. destruct sh as [hs ns e sl kl c].
  destruct at_; cbn in Hstep; step_cases Hstep; cbn; lia.
Qed.

Lemma step_invariant s s' :
  invariant s → step callfunc s s' → invariant s'.
Proof.
  intros (Hsh & Hthreads & Hstore & Hkey) Hstep.
  destruct Hstep as [t at_ next threads sh sh' Hat Hstep]. cbn [fst snd] in *.
  destruct (thread_step_self _ _ _ _ _ Hstep Hsh (Hthreads _ _ Hat)) as [Hnext Hsh'].
  destruct (thread_step_holders _ _ _ _ _ Hstep) as [Hs Hk].
  assert (t < length threads)%nat as Hlt by by eapply lookup_lt_Some.
  assert (∀ x, is_Some (threads !! x) → is_Some (<[t := next]> threads !! x)) as Hkeep.
  { intros x Hx. apply lookup_lt_is_Some. rewrite length_insert.
    by apply lookup_lt_is_Some. }
  split; [done|]. split; [|split]; cbn [fst snd].
  - intros t' at' Hat'. destruct (decide (t = t')) as [<-|Hne].
    + rewrite list_lookup_insert_eq in Hat' by done. by simplify_eq.
    + rewrite list_lookup_insert_ne in Hat' by done.
      eapply thread_step_other; eauto.
  - intros x Hx. apply Hkeep. destruct (Hs x Hx) as [-> | Hold]; [by eexists|auto].
  - intros x Hx. apply Hkeep. destruct (Hk x Hx) as [-> | Hold]; [by eexists|auto].
Qed.

Lemma start_invariant n sh : initial sh → invariant (start n sh).
Proof.
  intros (Hsl & Hkl & He & Hc & Hstores). unfold invariant, start. cbn [fst snd].
  split; [|split; [|split]].
  - unfold shared_ok. rewrite He, Hc. crush.
  - intros t at_ Hat. apply lookup_replicate in Hat as [-> _].
    unfold thread_ok. cbn. rewrite Hsl, Hkl. crush.
  - intros t Ht. congruence.
  - intros t Ht. congruence.
Qed.

Lemma reachable_invariant n s : reachable callfunc n s → invariant s.
Proof.
  intros (sh & Hinit & Hrun). revert s Hrun.
  apply rtc_ind_r; [by apply start_invariant|].
  intros s2 s3 _ Hstep IH. by eapply step_invariant.
Qed.

Lemma reachable_length n s : reachable callfunc n s → length s.1 = n.
Proof.
  intros (sh & Hinit & Hrun). revert s Hrun.
  apply rtc_ind_r; [apply length_replicate|].
  intros s2 s3 _ Hstep IH. destruct Hstep. cbn [fst] in *. by rewrite length_insert.
Qed.

(** When every thread has returned, the computation ran once and every
    thread returned the entry. *)
Lemma invariant_all_done s :
  invariant s → s.1 ≠ [] → all_done s →
  counter s.2 = 1%nat ∧ ∃ r, entry s.2 = Some r ∧ ∀ t at_, s.1 !! t = Some at_ → at_ = Done r.
Proof.
  intros (Hsh & Hthreads & _ & _) Hne Hdone.
  destruct s as [[|at0 threads] sh]; [done|]. cbn [fst snd] in *.
  destruct (Hdone 0%nat at0 eq_refl) as [r ->].
  pose proof (Hthreads 0%nat _ eq_refl) as (_ & _ & Hentry). cbn in Hentry.
  split.
  - destruct Hsh as (_ & _ & _ & Hc & _). apply Hc. congruence.
  - exists r. split; [done|]. intros t at_ Hat.
    destruct (Hdone t at_ Hat) as [r' ->].
    pose proof (Hthreads t _ Hat) as (_ & _ & Hentry'). cbn in Hentry'. congruence.
Qed.

Lemma thread_can_step t at_ sh :
  thread_ok t at_ sh → is_done at_ = false →
  (holds_store_lock at_ = true ∨ store_lock sh = None) →
  (holds_key_lock at_ = true ∨ key_lock sh = None) →
  is_Some (thread_step callfunc t at_ sh).
Proof.
  intros Hok Hnd Hs Hk. unfold thread_ok in Hok.
  destruct at_; cbn in *; try done; try (by eexists).
  - destruct Hs as [? | ->]; [done|by eexists].
  - destruct Hs as [? | ->]; [done|by eexists].
  - destruct Hk as [? | ->]; [done|by eexists].
  - tauto.
Qed.

Lemma not_all_done s :
  ¬ all_done s → ∃ t at_, s.1 !! t = Some at_ ∧ is_done at_ = false.
Proof.
  intros Hnot. destruct (decide (Forall (λ a, is_done a = true) s.1)) as [Hall|Hex].
  - exfalso. apply Hnot. intros t at_ Hat.
    rewrite Forall_lookup in Hall. specialize (Hall t at_ Hat).
    destruct at_; try done. by eexists.
  - apply not_Forall_Exists in Hex; [|apply _].
    apply Exists_exists in Hex as (at_ & Hin & Hnd).
    apply list_elem_of_lookup in Hin as [t Hat]. exists t, at_. split; [done|].
    cbn in Hnd. by destruct (is_done at_).
Qed.

(** No deadlock: while some thread has not returned, some thread can take
    a step. *)
Lemma invariant_progress s :
  invariant s → ¬ all_done s → ∃ s', step callfunc s s'.
Proof.
  intros (Hsh & Hthreads & Hstore & Hkey) Hnot.
  destruct s as [threads sh]. cbn [fst snd] in *.
  assert (∀ t at_, threads !! t = Some at_ → is_Some (thread_step callfunc t at_ sh) →
                   ∃ s', step callfunc (threads, sh) s') as Hgo.
  { intros t at_ Hat [[next sh'] Hstep]. eexists. by econstructor. }
  destruct (key_lock sh) as [tk|] eqn:Hkl.
  - destruct (Hkey tk eq_refl) as [at_ Hat].
    pose proof (Hthreads _ _ Hat) as Hok.
    apply (Hgo tk at_ Hat). destruct Hok as (Hs & Hk & Hrest).
    apply Hk in Hkl. rewrite <- Hkl in Hk.
    destruct at_; try done; by eexists.
  - destruct (store_lock sh) as [ts|] eqn:Hsl.
    + destruct (Hstore ts eq_refl) as [at_ Hat].
      pose proof (Hthreads _ _ Hat) as Hok.
      apply (Hgo ts at_ Hat). destruct Hok as (Hs & Hk & Hrest).
      apply Hs in Hsl.
      destruct at_; try done; by eexists.
    + destruct (not_all_done _ Hnot) as (t & at_ & Hat & Hnd). cbn [fst] in Hat.
      apply (Hgo t at_ Hat). apply thread_can_step; auto.
Qed.

Lemma sum_list_insert (l : list (pc V)) t at_ next :
  l !! t = Some at_ →
  (sum_list (steps_left <$> <[t := next]> l) + steps_left at_
   = sum_list (steps_left <$> l) + steps_left next)%nat.
Proof.
  revert t. induction l as [|a l IH]; intros [|t] Hat; simplify_eq/=.
  - lia.
  - specialize (IH t Hat). lia.
Qed.

(** Every step uses up work: a run has at most [17 * n] steps. *)
Lemma step_work_left s s' : step callfunc s s' → (work_left s' < work_left s)%nat.
Proof.
  intros [t at_ next threads sh sh' Hat Hstep]. unfold work_left. cbn [fst].
  pose proof (thread_step_less _ _ _ _ _ Hstep).
  pose proof (sum_list_insert threads t at_ next Hat). lia.
Qed.

Lemma run_reachable schedule s : rtc (step callfunc) s (run callfunc schedule s).
Proof.
  revert s. induction schedule as [|t schedule IH]; intros s; [done|].
  cbn [run]. destruct (s.1 !! t) as [at_|] eqn:Hat; [|done].
  destruct (thread_step callfunc t at_ s.2) as [[next sh']|] eqn:Hstep; [|done].
  eapply rtc_l; [|apply IH]. destruct s as [threads sh]. by econstructor.
Qed.
End ThreadFacts.

(** Alone, a thread does what the call does in [_cached_call_impl] on a
    miss: it runs the computation once, stores the result and returns it,
    and leaves both locks free. *)
Lemma single_thread_run {V : Type} (callfunc : nat → V) (sh : Threads.Shared V) :
  Threads.initial sh →
  Threads.run callfunc (replicate 17 0%nat) (Threads.start 1 sh)
  = ([Threads.Done (callfunc 0%nat)],
     Threads.mkShared true true (Some (callfunc 0%nat)) None None 1).
Proof.
  intros (Hsl & Hkl & He & Hc & Hstores).
  destruct sh as [hs ns e sl kl c]. cbn in Hsl, Hkl, He, Hc, Hstores. subst.
  destruct hs, ns; try (by specialize (Hstores eq_refl)); reflexivity.
Qed.

(** C9. [n] threads that make the same process-scoped memoized call for a
    key that is not cached, interleaved in any way: the computation never
    runs twice; when all threads have returned it has run exactly once (the
    counter is 1) and every thread returned the same result; and the threads
    do get there, for as long as one has not returned some thread can take a
    step, and every step uses up work that is bounded from the start. *)
Theorem concurrent_calls_compute_once
        {V : Type} (callfunc : nat → V) (n : nat) (s : Threads.System) :
  (0 < n)%nat →
  Threads.reachable callfunc n s →
  (Threads.counter s.2 ≤ 1)%nat
  ∧ (Threads.all_done s →
     Threads.counter s.2 = 1%nat
     ∧ ∃ r, ∀ t at_, s.1 !! t = Some at_ → at_ = Threads.Done r)
  ∧ (¬ Threads.all_done s → ∃ s', Threads.step callfunc s s')
  ∧ (∀ s', Threads.step callfunc s s' → (Threads.work_left s' < Threads.work_left s)%nat).
Proof.
  intros Hn Hreach.
  pose proof (reachable_invariant callfunc n s Hreach) as Hinv.
  pose proof (reachable_length callfunc n s Hreach) as Hlen.
  split; [|split; [|split]].
  - destruct Hinv as [(_ & _ & Hc & _) _]. exact Hc.
  - intros Hdone.
    destruct (invariant_all_done s Hinv) as (Hc & r & _ & Hr); [|done|by eauto].
    intros Hnil. rewrite Hnil in Hlen. simpl in Hlen. lia.
  - by apply invariant_progress.
  - apply step_work_left.
Qed.

(** ** Objects under the content hash *)

Lemma elem_of_dict_setitem {A} (k : Key) (v : A) (d : list (Key * A)) (e : Key * A) :
  NoDup d.*1 →
  e ∈ dict_setitem k v d ↔ e = (k, v) ∨ (e ∈ d ∧ e.1 ≠ k).
Proof.
  induction d as [|[k' v'] d IH]; intros Hnodup; cbn [dict_setitem].
  - rewrite list_elem_of_singleton. split; [auto|]. intros [?|[Hin _]]; [done|].
    by apply elem_of_nil in Hin.
  - cbn in Hnodup. apply NoDup_cons in Hnodup as [Hnotin Hnodup].
    destruct (decide (k' = k)) as [->|Hne].
    + rewrite !elem_of_cons. split.
      * intros [->|Hin]; [by left|]. right. split; [by right|].
        intros Heq. apply Hnotin. rewrite <- Heq. apply list_elem_of_fmap.
        by exists e.
      * intros [->|[[->|Hin] Hk]]; [by left|done|by right].
    + rewrite !elem_of_cons, (IH Hnodup). split.
      * intros [->|[->|[Hin Hk]]]; [right; split; [by left|done]|by left|].
        right. split; [by right|done].
      * intros [->|[[->|Hin] Hk]]; [right; by left|by left|]. right. right. done.
Qed.

Lemma dict_setitem_keys {A} (k : Key) (v : A) (d : list (Key * A)) :
  NoDup d.*1 → NoDup (dict_setitem k v d).*1.
Proof.
  induction d as [|[k' v'] d IH]; intros Hnodup; cbn [dict_setitem].
  - cbn. apply NoDup_singleton.
  - cbn in Hnodup. apply NoDup_cons in Hnodup as [Hnotin Hnodup].
    destruct (decide (k' = k)) as [->|Hne]; cbn.
    + by apply NoDup_cons.
    + apply NoDup_cons. split; [|by apply IH].
      intros Hin. apply list_elem_of_fmap in Hin as ([k2 v2] & Hk & Hin). cbn in Hk. subst k2.
      apply elem_of_dict_setitem in Hin; [|done].
      destruct Hin as [Heq|[Hin _]]; [by simplify_eq|].
      apply Hnotin. apply list_elem_of_fmap. by exists (k', v2).
Qed.

Lemma NoDup_filter_keys (hashed : list (string * Z)) :
  NoDup hashed.*1 →
  NoDup (List.filter (λ kv : string * Z, negb (startswith_dunder kv.1)) hashed).*1.
Proof.
  induction hashed as [|[k z] hashed IH]; intros Hnodup; [constructor|].
  cbn in Hnodup. apply NoDup_cons in Hnodup as [Hnotin Hnodup]. cbn [List.filter fst].
  destruct (negb (startswith_dunder k)); [|by apply IH]. cbn [fmap list_fmap fst].
  apply NoDup_cons. split; [|by apply IH].
  intros Hin. apply Hnotin. apply list_elem_of_fmap in Hin as ([k2 z2] & -> & Hin).
  apply list_elem_of_In, filter_In in Hin as [Hin _]. apply list_elem_of_fmap.
  exists (k2, z2). split; [done|]. by apply list_elem_of_In.
Qed.

Lemma NoDup_map_KStr (kept : list (string * Z)) :
  NoDup kept.*1 → NoDup (List.map (λ kv : string * Z, (KStr kv.1, kv.2)) kept).*1.
Proof.
  induction kept as [|[k z] kept IH]; intros Hkept; [constructor|].
  cbn in *. apply NoDup_cons in Hkept as [Hnotin Hkept]. apply NoDup_cons.
  split; [|by apply IH]. intros Hin. apply Hnotin.
  apply list_elem_of_fmap in Hin as ([k2 z2] & Hk & Hin). cbn in Hk.
  apply list_elem_of_In, in_map_iff in Hin as ([k3 z3] & Heq & Hin). simplify_eq.
  apply list_elem_of_fmap. exists (k, z3). split; [done|]. by apply list_elem_of_In.
Qed.

Section ObjectHash.
Variable py_hash : Canon → string → Z.

Lemma hashed_attrs_keys (attrs : list (string * PyVal)) :
  (List.map (λ kv, match kv with (k, v) => (k, _hash_content py_hash v) end) attrs).*1
  = attrs.*1.
Proof. induction attrs as [|[k v] attrs IH]; [done|]. cbn. by rewrite <- IH. Qed.

Lemma elem_of_hashed_attrs (attrs : list (string * PyVal)) k z :
  (k, z) ∈ List.map (λ kv, match kv with (k, v) => (k, _hash_content py_hash v) end) attrs
  ↔ ∃ v, (k, v) ∈ attrs ∧ z = _hash_content py_hash v.
Proof.
  rewrite list_elem_of_In, in_map_iff. split.
  - intros [[k' v] [Heq Hin]]. simplify_eq. exists v. by rewrite list_elem_of_In.
  - intros (v & Hin & ->). exists (k, v). by rewrite <- list_elem_of_In.
Qed.

(** The items of [objdict]: ['___classname'], then ['___name'] unless it is
    the same key, then the attributes that are kept and have neither name. *)
Lemma elem_of_objdict typename proxy name_hash (hashed : list (string * Z)) (e : Key * Z) :
  NoDup hashed.*1 →
  e ∈ objdict py_hash typename proxy name_hash hashed
  ↔ e = (KStr "___classname", hash_scalar py_hash (SStr typename))
    ∨ (e.1 ≠ KStr "___classname"
       ∧ (e = (KStr "___name", name_hash)
          ∨ (e.1 ≠ KStr "___name"
             ∧ ∃ k z, e = (KStr k, z) ∧ (k, z) ∈ hashed
                      ∧ (proxy = true → startswith_dunder k = false)))).
Proof.
  intros Hnodup. unfold objdict.
  set (kept := if proxy then _ else _).
  assert (NoDup kept.*1) as Hkept.
  { subst kept. destruct proxy; [by apply NoDup_filter_keys|done]. }
  assert (∀ k z, (k, z) ∈ kept
                 ↔ (k, z) ∈ hashed ∧ (proxy = true → startswith_dunder k = false)) as Hin_kept.
  { intros k z. subst kept. destruct proxy.
    - rewrite list_elem_of_In, filter_In, <- list_elem_of_In. cbn [fst].
      rewrite negb_true_iff. split; intros [? ?]; split; auto.
    - split; [intros ?; split; [done|intros ?; done]|by intros [? _]]. }
  generalize dependent kept. intros kept Hkept Hin_kept.
  set (mapped := List.map (λ kv : string * Z, (KStr kv.1, kv.2)) kept).
  assert (NoDup mapped.*1) as Hmapped by by apply NoDup_map_KStr.
  assert (∀ e, e ∈ mapped ↔ ∃ k z, e = (KStr k, z) ∧ (k, z) ∈ kept) as Hin_mapped.
  { intros e'. subst mapped. rewrite list_elem_of_In, in_map_iff. split.
    - intros ([k z] & <- & Hin). exists k, z. split; [done|]. by apply list_elem_of_In.
    - intros (k & z & -> & Hin). exists (k, z). split; [done|]. by apply list_elem_of_In. }
  rewrite elem_of_dict_setitem by by apply dict_setitem_keys.
  rewrite elem_of_dict_setitem by done. rewrite Hin_mapped.
  split.
  - intros [?|[[?|[(k & z & -> & Hin) Hk]] Hc]]; [by left|right; split; [done|by left]|].
    right. split; [done|]. right. split; [done|]. exists k, z. by rewrite <- Hin_kept.
  - intros [?|[Hc [?|[Hk (k & z & -> & Hin)]]]]; [by left|right; split; [by left|done]|].
    right. split; [|done]. right. split; [|done]. exists k, z. by rewrite Hin_kept.
Qed.

(** X1. The content hash of an object with [__dict__] that is not a dict
    depends on its attributes only through the set of the items whose name is
    neither ['___name'] nor ['___classname']: the order in which the
    attributes were set does not matter, and an attribute with one of these
    two names is overwritten before hashing. *)
Theorem hash_content_object_attributes
        (typename : string) (proxy : bool) (name : PyVal)
        (attrs1 attrs2 : list (string * PyVal)) :
  NoDup attrs1.*1 → NoDup attrs2.*1 →
  (∀ k v, k ≠ "___name" → k ≠ "___classname" → (k, v) ∈ attrs1 ↔ (k, v) ∈ attrs2) →
  _hash_content py_hash (PObject typename proxy name attrs1)
  = _hash_content py_hash (PObject typename proxy name attrs2).
Proof.
  intros Hnodup1 Hnodup2 Hsame. cbn [_hash_content]. do 2 f_equal.
  apply set_eq. intros e. unfold frozenset. rewrite !elem_of_list_to_set.
  rewrite !elem_of_objdict by by rewrite hashed_attrs_keys.
  assert (∀ k z, KStr k ≠ KStr "___classname" → KStr k ≠ KStr "___name" →
                 (k, z) ∈ List.map (λ kv, match kv with
                                          | (k, v) => (k, _hash_content py_hash v) end) attrs1
                 ↔ (k, z) ∈ List.map (λ kv, match kv with
                                            | (k, v) => (k, _hash_content py_hash v) end) attrs2)
    as Hhashed.
  { intros k z Hc Hn. rewrite !elem_of_hashed_attrs.
    split; intros (v & Hin & ->); exists v; split; try done;
      apply Hsame; try done; congruence. }
  split.
  - intros [?|[Hc [?|[Hn (k & z & -> & Hin & Hd)]]]]; [by left|right; split; [done|by left]|].
    right. split; [done|]. right. split; [done|]. exists k, z.
    split; [done|]. split; [|done]. by apply Hhashed.
  - intros [?|[Hc [?|[Hn (k & z & -> & Hin & Hd)]]]]; [by left|right; split; [done|by left]|].
    right. split; [done|]. right. split; [done|]. exists k, z.
    split; [done|]. split; [|done]. by apply Hhashed.
Qed.

Lemma filter_hashed_attrs (attrs : list (string * PyVal)) :
  List.filter (λ kv : string * Z, negb (startswith_dunder kv.1))
    (List.map (λ kv, match kv with (k, v) => (k, _hash_content py_hash v) end) attrs)
  = List.map (λ kv, match kv with (k, v) => (k, _hash_content py_hash v) end)
      (List.filter (λ kv : string * PyVal, negb (startswith_dunder kv.1)) attrs).
Proof.
  induction attrs as [|[k v] attrs IH]; [done|]. cbn [List.map List.filter fst].
  destruct (negb (startswith_dunder k)); cbn [List.map]; by rewrite IH.
Qed.

(** X2. Under a mapping proxy (the [__dict__] of a class) the attributes
    whose name starts with two underscores do not count: two such objects
    of the same type and name have the same content hash as soon as their
    other attributes are the same items, in whatever order and whatever
    their dunder attributes are. *)
Theorem hash_content_proxy_ignores_dunder
        (typename : string) (name : PyVal) (attrs1 attrs2 : list (string * PyVal)) :
  NoDup attrs1.*1 → NoDup attrs2.*1 →
  (∀ k v, startswith_dunder k = false → (k, v) ∈ attrs1 ↔ (k, v) ∈ attrs2) →
  _hash_content py_hash (PObject typename true name attrs1)
  = _hash_content py_hash (PObject typename true name attrs2).
Proof.
  intros Hnodup1 Hnodup2 Hsame. cbn [_hash_content]. do 2 f_equal.
  apply set_eq. intros e. unfold frozenset. rewrite !elem_of_list_to_set.
  rewrite !elem_of_objdict by by rewrite hashed_attrs_keys.
  assert (∀ k z, startswith_dunder k = false →
                 (k, z) ∈ List.map (λ kv, match kv with
                                          | (k, v) => (k, _hash_content py_hash v) end) attrs1
                 ↔ (k, z) ∈ List.map (λ kv, match kv with
                                            | (k, v) => (k, _hash_content py_hash v) end) attrs2)
    as Hhashed.
  { intros k z Hk. rewrite !elem_of_hashed_attrs.
    split; intros (v & Hin & ->); exists v; split; try done; by apply Hsame. }
  split.
  - intros [?|[Hc [?|[Hn (k & z & -> & Hin & Hd)]]]]; [by left|right; split; [done|by left]|].
    right. split; [done|]. right. split; [done|]. exists k, z.
    split; [done|]. split; [|done]. apply Hhashed; [by apply Hd|done].
  - intros [?|[Hc [?|[Hn (k & z & -> & Hin & Hd)]]]]; [by left|right; split; [done|by left]|].
    right. split; [done|]. right. split; [done|]. exists k, z.
    split; [done|]. split; [|done]. apply Hhashed; [by apply Hd|done].
Qed.
End ObjectHash.

(** ** What a cache holds and where *)

Section CacheFacts.
Context {V X : Type}.
Implicit Types (w : World V X) (c : Cache) (key : Key) (v : V).

Lemma process_store_put_store_other name name' (s : Store V) w :
  name ≠ name' → process_store name' (put_store name s w) = process_store name' w.
Proof.
  intros Hne. unfold process_store, put_store. cbn [w_host set_host].
  rewrite lookup_insert_ne by done. by destruct (w_host w).
Qed.

Lemma cache_dict_same_place c c' w :
  place c = place c' → cache_dict c w = cache_dict c' w.
Proof. destruct c, c'; intros Heq; by simplify_eq/=. Qed.

Lemma cache_dict_put_other c c' (d : gmap Key V) w :
  place c ≠ place c' → cache_dict c' (put_cache_dict c d w) = cache_dict c' w.
Proof.
  intros Hne. destruct c as [t name|name n], c' as [t' name'|name' n'];
    cbn in Hne; cbn [cache_dict put_cache_dict].
  - unfold thread_store. cbn [w_tls set_tls].
    destruct (decide (t = t')) as [<-|Ht].
    + rewrite lookup_insert_eq. cbn. rewrite lookup_insert_ne by congruence. done.
    + by rewrite lookup_insert_ne.
  - done.
  - done.
  - rewrite process_store_put_store_other by congruence. done.
Qed.

(** X3. What is stored under a key is what is read back, with either kind of
    cache: after [cache[key] = value], [cache[key]] is [value] and
    [key in cache] holds, the other keys are as they were, the length grows
    by one exactly when the key is new, and storing again replaces the
    value. *)
Theorem setitem_getitem c key v w :
  let w1 := (__setitem__ c key v w).2 in
  __getitem__ c key w1 = (Ok v, w1)
  ∧ __contains__ c key w1 = (Ok true, w1)
  ∧ (∀ key', key' ≠ key → cache_dict c w1 !! key' = cache_dict c w !! key')
  ∧ (__len__ c w1).1
    = Ok (if bool_decide (is_Some (cache_dict c w !! key))
          then size (cache_dict c w) else S (size (cache_dict c w)))
  ∧ (∀ v', cache_dict c (__setitem__ c key v' w1).2 = <[key := v']> (cache_dict c w)).
Proof.
  intros w1. subst w1. unfold __setitem__, __getitem__, __contains__, __len__. cbn [fst snd].
  rewrite !cache_dict_put_cache_dict, lookup_insert_eq.
  split; [done|]. split; [by rewrite bool_decide_eq_true_2 by done|].
  split; [intros key' Hne; by rewrite lookup_insert_ne|]. split.
  - f_equal. destruct (cache_dict c w !! key) as [v0|] eqn:Hk.
    + rewrite bool_decide_eq_true_2 by done. by apply map_size_insert_Some.
    + rewrite bool_decide_eq_false_2 by (by intros [? ?]).
      by apply map_size_insert_None.
  - intros v'. by rewrite cache_dict_put_cache_dict, insert_insert_eq.
Qed.

(** X4. [del cache[key]]: a key that is missing raises [KeyError] and
    nothing changes; a key that is there is removed, the other keys stay, and
    the length drops by one. *)
Theorem delitem_removes_or_raises c key w :
  (cache_dict c w !! key = None → __delitem__ c key w = (Raise (KeyError key), w))
  ∧ (is_Some (cache_dict c w !! key) →
     ∃ w1, __delitem__ c key w = (Ok tt, w1)
           ∧ __contains__ c key w1 = (Ok false, w1)
           ∧ __getitem__ c key w1 = (Raise (KeyError key), w1)
           ∧ (∀ key', key' ≠ key → cache_dict c w1 !! key' = cache_dict c w !! key')
           ∧ S (size (cache_dict c w1)) = size (cache_dict c w)).
Proof.
  unfold __delitem__, __contains__, __getitem__. split.
  - by intros ->.
  - intros [v0 Hk]. rewrite Hk. eexists. split; [done|].
    rewrite !cache_dict_put_cache_dict, lookup_delete_eq.
    split; [by rewrite bool_decide_eq_false_2 by (by intros [? ?])|].
    split; [done|]. split; [intros key' Hne; by rewrite lookup_delete_ne|].
    rewrite map_size_delete_Some by done.
    assert (size (cache_dict c w) ≠ 0%nat); [|lia].
    intros Hzero. apply map_size_empty_inv in Hzero. rewrite Hzero in Hk.
    by rewrite lookup_empty in Hk.
Qed.

(** X5. On one host, caches share entries exactly when they are on the
    same store: two cache objects of one place see the same dict, and
    storing or deleting in a cache changes no cache of another place
    (another thread, another name, or the other scope). *)
Theorem caches_are_apart_by_place c c' key v w :
  (place c = place c' → cache_dict c' (__setitem__ c key v w).2 !! key = Some v)
  ∧ (place c ≠ place c' →
     cache_dict c' (__setitem__ c key v w).2 = cache_dict c' w
     ∧ cache_dict c' (__delitem__ c key w).2 = cache_dict c' w).
Proof.
  split.
  - intros Hsame. rewrite <- (cache_dict_same_place c c') by done.
    unfold __setitem__. cbn [snd]. by rewrite cache_dict_put_cache_dict, lookup_insert_eq.
  - intros Hne. split.
    + unfold __setitem__. cbn [snd]. by apply cache_dict_put_other.
    + unfold __delitem__. destruct (cache_dict c w !! key); cbn [snd]; [|done].
      by apply cache_dict_put_other.
Qed.
End CacheFacts.

Section InitFacts.
Context {V X : Type}.
Implicit Types (w : World V X) (name : string) (key : Key).

Lemma ProcessCache_init_other name name' n w :
  name ≠ name' →
  process_store name' (@ProcessCache__init__ V X name n w).2 = process_store name' w.
Proof.
  intros Hne.
  unfold ProcessCache__init__, bind, with_lock, try_finally, emit, ret, bind.
  unfold process_store, put_store, set_trace, set_host.
  destruct w as [[cs|] tls x tr]; simpl.
  - destruct (cs !! name) eqn:Hcs; simpl; [done|]. rewrite ?Hcs; simpl.
    by rewrite lookup_insert_ne.
  - rewrite lookup_empty. simpl. rewrite lookup_insert_ne by done. apply lookup_empty.
Qed.

(** X6. Building a [ProcessCache] for a name makes its store once: the first
    construction decides the locks (a list of [n_locks] locks, per-key locks
    when [n_locks] is zero or negative) and starts with no entry, it leaves
    the stores of other names alone, and every later construction for the
    name, with whatever [n_locks], changes nothing and is on the same
    entries and locks. *)
Theorem process_cache_is_built_once name n n' w :
  let w1 := (ProcessCache__init__ name n w).2 in
  ProcessCache__init__ name n' w1 = (Ok (ProcessCache name (Z.max n' 0)), w1)
  ∧ (process_store name w = None →
     process_store name w1
     = Some (mkStore ∅ (if decide (0 < n) then LockList n else LockDict ∅)))
  ∧ (∀ s, process_store name w = Some s → w1 = w)
  ∧ (∀ name', name' ≠ name → process_store name' w1 = process_store name' w).
Proof.
  intros w1. subst w1. split; [|split; [|split]].
  - rewrite ProcessCache_init_ok. f_equal. apply ProcessCache_init_existing.
    rewrite ProcessCache_init_store. by eexists.
  - intros Hnone. rewrite ProcessCache_init_store, Hnone. cbn [default from_option id].
    unfold new_locks. do 3 f_equal.
    destruct (decide (0 < n)).
    + rewrite decide_True by lia. by rewrite Z.max_l by lia.
    + by rewrite decide_False by lia.
  - intros s Hs. apply ProcessCache_init_existing. by eexists.
  - intros name' Hne. by apply ProcessCache_init_other.
Qed.

Lemma ThreadCache_init_other t name c w :
  place c ≠ place (ThreadCache t name) →
  cache_dict c (@ThreadCache__init__ V X t name w).2 = cache_dict c w.
Proof.
  intros Hne. unfold ThreadCache__init__.
  destruct (thread_store t w !! name) eqn:Hs; cbn [snd]; [done|].
  change (set_tls _ w) with (put_cache_dict (ThreadCache t name) (∅ : gmap Key V) w).
  by apply cache_dict_put_other.
Qed.

(** X7. Building a [ThreadCache] makes the dict of the name in the local
    store of the thread only when it is missing: the entries there are stay,
    and neither the local stores of other threads, the other names of the
    thread, nor the process stores change; building it again changes
    nothing. *)
Theorem thread_cache_is_built_once t name w :
  let w1 := (ThreadCache__init__ t name w).2 in
  @ThreadCache__init__ V X t name w1 = (Ok (ThreadCache t name), w1)
  ∧ cache_dict (ThreadCache t name) w1 = cache_dict (ThreadCache t name) w
  ∧ (∀ c, place c ≠ place (ThreadCache t name) → cache_dict c w1 = cache_dict c w)
  ∧ w_host w1 = w_host w
  ∧ w_trace w1 = w_trace w.
Proof.
  intros w1. subst w1. split; [|split; [|split]].
  - apply ThreadCache_init_existing. unfold ThreadCache__init__.
    destruct (thread_store t w !! name) eqn:Hs; cbn [snd]; [by rewrite Hs|].
    unfold thread_store. cbn [w_tls set_tls]. rewrite lookup_insert_eq. cbn.
    rewrite lookup_insert_eq. by eexists.
  - apply ThreadCache_init_cache_dict.
  - intros c Hne. by apply ThreadCache_init_other.
  - split; apply ThreadCache_init_rest.
Qed.
End InitFacts.

(** ** Critical sections *)

Section MoreLockFacts.
Context {V X : Type}.
Variable hash : Key → Z.
Implicit Types (w : World V X) (name : string) (key : Key).


(** X9. With per-key locks the lock map follows the entries: if the keys
    that have a lock are the keys of the store, and the body of a critical
    section touches no lock and no entry but that of its key, then after the
    critical section the keys that have a lock are again the keys of the
    store, whether the body stored the key, deleted it or left it. *)
Theorem per_key_locks_follow_entries {A} name key (body : M V X A) w (r : Res A) w2 :
  let c := ProcessCache name 0 in
  cache_locks name w = LockDict (dom (cache_dict c w)) →
  body (emit (EvAcquire (KeyLock key)) (locks_getitem name key w).2).2 = (r, w2) →
  cache_locks name w2 = LockDict ({[key]} ∪ dom (cache_dict c w)) →
  (∀ k, k ≠ key → is_Some (cache_dict c w2 !! k) ↔ is_Some (cache_dict c w !! k)) →
  let run := lock hash c key body w in
  run.1 = r
  ∧ cache_dict c run.2 = cache_dict c w2
  ∧ cache_locks name run.2 = LockDict (dom (cache_dict c run.2)).
Proof.
  intros c Hlocks Hbody Hkept Hothers run. subst run c.
  rewrite (lock_dict_run hash name key _ body w Hlocks), Hbody. cbv zeta.
  unfold emit. cbn [snd]. rewrite cache_dict_set_trace.
  assert (∀ k, k ≠ key → k ∈ dom (cache_dict (ProcessCache name 0) w2)
                         ↔ k ∈ dom (cache_dict (ProcessCache name 0) w)) as Hdom.
  { intros k Hk. rewrite !elem_of_dom. by apply Hothers. }
  destruct (cache_dict (ProcessCache name 0) w2 !! key) as [v|] eqn:Hkey.
  - rewrite bool_decide_eq_true_2 by done. cbn [fst snd].
    rewrite cache_dict_set_trace, cache_locks_set_trace, Hkept.
    split; [done|]. split; [done|]. f_equal. apply set_eq. intros k.
    rewrite elem_of_union, elem_of_singleton.
    destruct (decide (k = key)) as [->|Hne].
    + split; [|auto]. intros _. apply elem_of_dom. by eexists.
    + rewrite Hdom by done. split; [by intros [?|?]|auto].
  - rewrite bool_decide_eq_false_2 by (by intros [? ?]).
    unfold locks_delitem. rewrite cache_locks_set_trace, Hkept.
    rewrite decide_True by (apply elem_of_union; left; by apply elem_of_singleton).
    cbn [fst snd].
    rewrite !cache_dict_set_trace, cache_dict_put_cache_locks, cache_dict_set_trace.
    rewrite cache_locks_set_trace, cache_locks_put_cache_locks.
    split; [done|]. split; [done|]. f_equal. apply set_eq. intros k.
    rewrite elem_of_difference, elem_of_union, !elem_of_singleton.
    destruct (decide (k = key)) as [->|Hne].
    + split; [by intros [_ ?]|]. intros Hin. apply elem_of_dom in Hin as [? Hin]. congruence.
    + rewrite Hdom by done. split; [by intros [[?|?] _]|auto].
Qed.
End MoreLockFacts.

(** ** Errors and scopes of memoized calls *)

Section MoreMemoFacts.
Context {V X : Type}.
Variable py_hash : Canon → string → Z.
Variable hash : Key → Z.
Variable Signature : Type.
Variable signature_bind :
  Signature → list PyVal → list (string * PyVal) → Res (list (Key * PyVal)).
Implicit Types (w : World V X) (callfunc : Callable V X Signature).



(** X11. Under process scope the entries of a cache name are shared by
    everything that is called under that name, from any thread: an entry
    stored under a key is what every process-scoped memoized call returns
    whose keywords can be passed, whose cache name is that name and whose
    bound arguments hash to that key, and such a call calls nothing and
    changes nothing.  The name of a call through [cached_call] is
    [cache_name], or the [__name__] of the callable (which has one) when
    none is given, so two functions of the same [__name__] answer for each
    other; the name of a class of the metaclass [Cached] is its
    [__name__], and its arguments are bound to [__init__] after [None] for
    [self]. *)
Theorem process_scope_is_shared_by_name thread name key r w :
  cache_dict (ProcessCache name 100) w !! key = Some r →
  (∀ callfunc cache_name args kwargs bound,
      passes_keywords kwargs →
      cache_name_or cache_name (c_name callfunc) = name →
      bound_arguments signature_bind callfunc None args kwargs = Ok bound →
      KInt (_hash_content py_hash (PDict bound)) = key →
      cached_call py_hash hash signature_bind thread callfunc args "process" cache_name
        kwargs w = (Ok r, w))
  ∧ (∀ (cls : CachedClass V X Signature) args kwargs bound,
        passes_keywords kwargs →
        _cache_scope cls = "process" →
        cls_name cls = name →
        signature_bind (cls_init cls) (PScalar SNone :: args) kwargs = Ok bound →
        KInt (_hash_content py_hash (PDict bound)) = key →
        Cached__call__ py_hash hash signature_bind thread cls args kwargs w = (Ok r, w)).
Proof.
  intros Hstored. split.
  - intros callfunc cache_name args kwargs bound _ Hname Hbound Hkey.
    unfold cached_call. rewrite Hname.
    eapply cached_call_impl_hit; [by right|exact Hbound|].
    unfold selected_cache. rewrite decide_False by done. by rewrite Hkey.
  - intros cls args kwargs bound _ Hscope Hname Hbound Hkey.
    unfold Cached__call__. rewrite Hscope, Hname.
    eapply cached_call_impl_hit; [by right|exact Hbound|].
    unfold selected_cache. rewrite decide_False by done. by rewrite Hkey.
Qed.

(** X12. Under thread scope a call is private to its thread: on a miss it
    takes no lock, and besides what the callable itself does it changes
    only the dict of the name in the local store of the calling thread; the
    caches of every other thread, of every other name and of the process
    are as the callable left them, so another thread that had no entry for
    the key still has none. *)
Theorem thread_scope_is_private
        thread name callfunc init_method args kwargs bound r w w2 :
  bound_arguments signature_bind callfunc init_method args kwargs = Ok bound →
  let key := KInt (_hash_content py_hash (PDict bound)) in
  cache_dict (ThreadCache thread name) w !! key = None →
  c_call callfunc args kwargs (ThreadCache__init__ thread name w).2 = (Ok r, w2) →
  ∃ w3,
    _cached_call_impl py_hash hash signature_bind thread "thread" name callfunc init_method
      args kwargs w = (Ok r, w3)
    ∧ (∀ c, place c ≠ place (ThreadCache thread name) → cache_dict c w3 = cache_dict c w2)
    ∧ w_host w3 = w_host w2
    ∧ w_trace w3 = w_trace w ++ [EvCall (c_name callfunc)].
Proof.
  intros Hbound key Hmiss Hcall. subst key.
  unfold _cached_call_impl. rewrite Hbound. rewrite decide_True by done.
  rewrite bind_ret, bind_lift_ok. cbv beta zeta.
  set (key := KInt _) in *. clearbody key.
  rewrite (bind_ok _ _ _ _ _ (ThreadCache_init_ok thread name w)).
  set (w1 := (ThreadCache__init__ thread name w).2) in *.
  assert (cache_dict (ThreadCache thread name) w1 !! key = None) as Hmiss1.
  { subst w1. by rewrite ThreadCache_init_cache_dict. }
  destruct (ThreadCache_init_rest thread name w) as (_ & _ & Htr). fold w1 in Htr.
  unfold bind at 1. unfold bind at 1. unfold __contains__ at 1. rewrite Hmiss1.
  rewrite bool_decide_eq_false_2 by (by intros [? ?]). cbn [negb].
  unfold lock. erewrite miss_body_run; [|exact Hmiss1|exact Hcall]. cbv zeta.
  eexists. split.
  { unfold __getitem__. rewrite cache_dict_put_cache_dict, lookup_insert_eq. done. }
  split; [|split].
  - intros c Hne. rewrite cache_dict_put_other by done. by rewrite cache_dict_set_trace.
  - done.
  - cbn [w_trace set_trace put_cache_dict set_tls]. by rewrite Htr.
Qed.
End MoreMemoFacts.

(** ** Setting, deleting and checking a property *)

Lemma py_eq_refl (x : Value) : py_eq x x = true.
Proof. destruct x; simpl; [done|]. by apply bool_decide_eq_true_2. Qed.

Lemma py_eq_sym (x y : Value) : py_eq x y = py_eq y x.
Proof.
  destruct x, y; simpl; try done.
  apply bool_decide_ext. split; congruence.
Qed.

Lemma tuple_eq_refl (a : list Value) : tuple_eq a a = true.
Proof. induction a as [|x a IH]; [done|]. simpl. by rewrite py_eq_refl, IH. Qed.

Lemma tuple_eq_sym (a b : list Value) : tuple_eq a b = tuple_eq b a.
Proof.
  revert b. induction a as [|x a IH]; intros [|y b]; simpl; try done.
  by rewrite py_eq_sym, IH.
Qed.

Lemma cache_locks_put_cache_dict {V X} name n (d : gmap Key V) (w : World V X) :
  cache_locks name (put_cache_dict (ProcessCache name n) d w) = cache_locks name w.
Proof. unfold cache_locks. simpl. by rewrite process_store_put_store. Qed.

Lemma per_key_locks_of_cache_locks keys (w : World Item Ext) :
  cache_locks "property_cache" w = LockDict keys → per_key_locks w.
Proof.
  unfold cache_locks, per_key_locks. intros Hlocks s Hs. rewrite Hs in Hlocks.
  by exists keys.
Qed.

Lemma attribute_ext (w w' : World Item Ext) names :
  w_ext w' = w_ext w → map (attribute w') names = map (attribute w) names.
Proof. intros Hx. apply map_ext. intros x. unfold attribute. by rewrite Hx. Qed.

(** The first dependency that is not set stops the snapshot. *)
Lemma getattr_all_plain_unset (set_names : list string) d rest (w : World Item Ext) :
  (∀ x, x ∈ set_names → is_Some (x_attrs (w_ext w) !! x)) →
  x_attrs (w_ext w) !! d = None →
  getattr_all plain_getattr (set_names ++ d :: rest) w = (Raise (AttributeError d), w).
Proof.
  induction set_names as [|x names IH]; intros Hset Hd.
  - cbn [app getattr_all]. unfold bind, plain_getattr at 1. by rewrite Hd.
  - cbn [app getattr_all]. unfold bind at 1, plain_getattr at 1.
    destruct (Hset x) as [v Hv]; [by left|]. rewrite Hv.
    unfold bind. rewrite IH; [done| |done].
    intros y Hy. apply Hset. by right.
Qed.

Section MorePropertyFacts.
Variable hash : Key → Z.
Variable str_format : string → list (string * Value) → Res string.
Implicit Types (w : World Item Ext) (self : cached_property) (f : Method).

(** The critical section of a property, from the state in which the body
    runs. *)
Lemma property_lock_run {A} key (body : PM A) w :
  per_key_locks w →
  lock hash property_cache key body (ProcessCache__init__ "property_cache" 0 w).2
  = match body (state_in_lock key w) with
    | (r, w2) =>
        let w3 := (emit (EvRelease (KeyLock key)) w2).2 in
        if bool_decide (is_Some (cache_dict property_cache w3 !! key))
        then (r, w3)
        else match locks_delitem "property_cache" key w3 with
             | (Ok _, w4) => (r, w4)
             | (Raise e, w4) => (Raise e, w4)
             end
    end.
Proof.
  intros Hlocks. destruct (cache_locks_after_property_init w Hlocks) as [keys Hkeys].
  unfold property_cache. by rewrite (lock_dict_run hash _ _ keys _ _ Hkeys).
Qed.

Lemma plain_dependency_values self w :
  (∀ x, x ∈ dependencies self → is_Some (x_attrs (w_ext w) !! x)) →
  ∀ w', w_ext w' = w_ext w →
        dependency_values plain_getattr self w'
        = (Ok (map (attribute w) (dependencies self)), w').
Proof.
  intros Hset w' Hx. unfold dependency_values.
  rewrite getattr_all_plain by (intros x Hin; rewrite Hx; by apply Hset).
  by rewrite (attribute_ext w w').
Qed.

Lemma set_run self f value dep_values w :
  function self = Some f → not_pickled self → per_key_locks w →
  (∀ w', w_ext w' = w_ext w →
         dependency_values plain_getattr self w' = (Ok dep_values, w')) →
  let key := KStr (m_name f) in
  let wb := state_in_lock key w in
  cached_property__set__ hash plain_getattr str_format self value w
  = (Ok tt,
     set_trace (w_trace wb ++ [EvRelease (KeyLock key)])
       (put_cache_dict property_cache
          (<[key := (dep_values, value)]> (cache_dict property_cache wb)) wb)).
Proof.
  intros Hf Hclass Hlocks Hdeps key wb. unfold cached_property__set__.
  rewrite (bind_ok _ _ _ _ _ (get_cache_not_pickled self f w Hf Hclass)).
  unfold _OwnedCache_lock. cbn [oc_cache oc_key].
  rewrite property_lock_run by done. fold key. fold wb.
  destruct (state_in_lock_facts key w Hlocks) as (_ & Hx & _ & _). fold wb in Hx.
  rewrite (bind_ok _ _ _ _ _ (Hdeps wb Hx)).
  unfold insert. cbn [oc_parent]. unfold _OwnedCache_insert, __setitem__. cbn [oc_cache oc_key].
  cbv zeta. unfold emit. cbn [snd].
  rewrite cache_dict_set_trace, cache_dict_put_cache_dict, lookup_insert_eq.
  by rewrite bool_decide_eq_true_2 by done.
Qed.

(** X13. Setting a [cached_property] whose dependencies are attributes of
    the instance, all of them set: the slot gets the pair of the current
    dependency values and the value given, the function is not called and
    the rest of the owner is untouched; the read that follows returns the
    value given, again without calling the function, and leaves the slot
    as it is. *)
Theorem set_then_get self f value w :
  function self = Some f →
  class self = cached_property_class →
  per_key_locks w →
  (∀ x, x ∈ dependencies self → is_Some (x_attrs (w_ext w) !! x)) →
  ∃ w1 w2,
    cached_property__set__ hash plain_getattr str_format self value w = (Ok tt, w1)
    ∧ slot (m_name f) w1 = Some (map (attribute w) (dependencies self), value)
    ∧ (∀ k, k ≠ KStr (m_name f) →
            cache_dict property_cache w1 !! k = cache_dict property_cache w !! k)
    ∧ w_ext w1 = w_ext w
    ∧ __get__ hash plain_getattr str_format self false w1 = (Ok (GotValue value), w2)
    ∧ cache_dict property_cache w2 = cache_dict property_cache w1
    ∧ w_ext w2 = w_ext w
    ∧ calls (w_trace w2) = calls (w_trace w).
Proof.
  intros Hf Hclass Hlocks Hset.
  assert (not_pickled self) as Hnp by by left.
  pose proof (plain_dependency_values self w Hset) as Hdeps.
  set (dep_values := map (attribute w) (dependencies self)) in *.
  set (key := KStr (m_name f)).
  destruct (state_in_lock_facts key w Hlocks) as (Hd & Hx & Hc & keys & Hkeys).
  pose proof (set_run self f value dep_values w Hf Hnp Hlocks Hdeps) as Hrun.
  cbv zeta in Hrun. fold key in Hrun.
  set (w1 := set_trace _ _) in Hrun.
  assert (cache_dict property_cache w1
          = <[key := (dep_values, value)]> (cache_dict property_cache w)) as Hd1.
  { subst w1. by rewrite cache_dict_set_trace, cache_dict_put_cache_dict, Hd. }
  assert (w_ext w1 = w_ext w) as Hx1 by (subst w1; exact Hx).
  assert (calls (w_trace w1) = calls (w_trace w)) as Hc1.
  { subst w1. cbn [w_trace set_trace]. rewrite calls_app, Hc. unfold calls. simpl. lia. }
  assert (per_key_locks w1) as Hlocks1.
  { apply (per_key_locks_of_cache_locks ({[key]} ∪ keys)). subst w1.
    unfold property_cache. by rewrite cache_locks_set_trace, cache_locks_put_cache_dict. }
  assert (∀ w', w_ext w' = w_ext w1 →
                dependency_values plain_getattr self w' = (Ok dep_values, w')) as Hdeps1.
  { intros w' Hw'. apply Hdeps. by rewrite Hw'. }
  destruct (state_in_lock_facts key w1 Hlocks1) as (Hdb & Hxb & Hcb & _).
  assert (cache_dict property_cache (state_in_lock key w1) !! key
          = Some (dep_values, value)) as Hslotb.
  { by rewrite Hdb, Hd1, lookup_insert_eq. }
  exists w1. eexists. split; [exact Hrun|].
  split; [unfold slot; fold key; by rewrite Hd1, lookup_insert_eq|].
  split; [intros k Hk; by rewrite Hd1, lookup_insert_ne|].
  split; [done|].
  split.
  { unfold __get__, cached_property__get__. rewrite Hclass.
    erewrite bind_ok; [reflexivity|].
    rewrite (get_value_unfold hash plain_getattr str_format self f dep_values w1 w1 Hf Hnp
               (Hdeps1 w1 eq_refl) Hlocks1).
    fold key.
    rewrite (get_body_hit plain_getattr str_format self dep_values key dep_values value _
               Hslotb (tuple_eq_refl _)).
    cbv zeta. unfold emit. cbn [snd]. rewrite cache_dict_set_trace, Hslotb.
    by rewrite bool_decide_eq_true_2 by done. }
  rewrite cache_dict_set_trace. split; [done|].
  split; [by rewrite <- Hx1|].
  cbn [w_trace set_trace]. rewrite calls_app, Hcb, Hc1. unfold calls. simpl. lia.
Qed.

(** X14. Deleting a [cached_property] (or [lazy_property]) whose slot is
    full: the slot is emptied and no other slot is touched, the function is
    not called and the rest of the owner stays as it is; the deletion happens
    with the lock of the key held, and after the release the entry of that
    lock is removed from the lock map, so no lock is left behind for a
    key that is not stored. *)
Theorem delete_of_full_slot self f item keys w :
  function self = Some f → not_pickled self →
  cache_locks "property_cache" w = LockDict keys →
  slot (m_name f) w = Some item →
  let key := KStr (m_name f) in
  ∃ w',
    cached_property__delete__ hash plain_getattr str_format self w = (Ok tt, w')
    ∧ cache_dict property_cache w' = delete key (cache_dict property_cache w)
    ∧ w_ext w' = w_ext w
    ∧ cache_locks "property_cache" w' = LockDict (keys ∖ {[key]})
    ∧ w_trace w'
      = w_trace w ++ (if decide (key ∈ keys) then [] else [EvLockCreated key])
        ++ [EvAcquire (KeyLock key); EvRelease (KeyLock key); EvLockRemoved key].
Proof.
  intros Hf Hclass Hkeys Hslot key.
  pose proof (per_key_locks_of_cache_locks keys w Hkeys) as Hlocks.
  unfold slot in Hslot. fold key in Hslot.
  assert ((ProcessCache__init__ "property_cache" 0 w).2 = w) as Hinit.
  { apply ProcessCache_init_existing.
    by apply (cache_dict_process_is_Some "property_cache" 0 key item). }
  unfold cached_property__delete__.
  rewrite (bind_ok _ _ _ _ _ (get_cache_not_pickled self f w Hf Hclass)).
  fold key. rewrite Hinit.
  unfold full. cbn [oc_parent]. unfold _OwnedCache_full. cbn [oc_cache oc_key].
  unfold bind at 1, __contains__ at 1. rewrite Hslot.
  rewrite bool_decide_eq_true_2 by done.
  unfold _OwnedCache_lock. cbn [oc_cache oc_key].
  pose proof (λ body : PM unit, property_lock_run key body w Hlocks) as Hrun.
  rewrite Hinit in Hrun. rewrite Hrun. clear Hrun.
  unfold state_in_lock. rewrite Hinit.
  unfold locks_getitem at 1. rewrite Hkeys.
  set (events := if decide (key ∈ keys) then [] else [EvLockCreated key]).
  set (w1 := if decide (key ∈ keys) then w
             else set_trace (w_trace w ++ [EvLockCreated key])
                    (put_cache_locks "property_cache" (LockDict ({[key]} ∪ keys)) w)).
  assert ((if decide (key ∈ keys)
           then (Ok (KeyLock key), w)
           else (Ok (KeyLock key),
                 set_trace (w_trace w ++ [EvLockCreated key])
                   (put_cache_locks "property_cache" (LockDict ({[key]} ∪ keys)) w))).2
          = w1) as -> by (subst w1; by destruct (decide (key ∈ keys))).
  assert (cache_dict property_cache w1 = cache_dict property_cache w
          ∧ cache_locks "property_cache" w1 = LockDict ({[key]} ∪ keys)
          ∧ w_ext w1 = w_ext w
          ∧ w_trace w1 = w_trace w ++ events) as (Hd1 & Hl1 & Hx1 & Ht1).
  { subst w1 events. destruct (decide (key ∈ keys)) as [Hin|Hnin].
    - rewrite Hkeys, app_nil_r. repeat split; try done. f_equal.
      apply set_eq. intros k. rewrite elem_of_union, elem_of_singleton.
      split; [auto|]. by intros [-> | ?].
    - unfold property_cache.
      rewrite cache_dict_set_trace, cache_dict_put_cache_locks.
      by rewrite cache_locks_set_trace, cache_locks_put_cache_locks. }
  clearbody w1.
  set (wa := (emit (EvAcquire (KeyLock key)) w1).2).
  assert (clear plain_getattr str_format (mkOwnedCache property_cache key None) wa
          = (Ok tt, put_cache_dict property_cache
                      (delete key (cache_dict property_cache w)) wa)) as ->.
  { unfold clear. cbn [oc_parent]. unfold _OwnedCache_clear. cbn [oc_cache oc_key].
    unfold bind, __contains__, __delitem__. subst wa. unfold emit. cbn [snd].
    rewrite cache_dict_set_trace, Hd1, Hslot.
    rewrite bool_decide_eq_true_2 by done.
    by rewrite cache_dict_set_trace, Hd1, Hslot. }
  subst wa. cbv zeta. unfold emit. cbn [snd].
  rewrite cache_dict_set_trace, cache_dict_put_cache_dict, lookup_delete_eq.
  rewrite bool_decide_eq_false_2 by (by intros [? ?]).
  unfold locks_delitem, property_cache in *.
  rewrite cache_locks_set_trace, cache_locks_put_cache_dict, cache_locks_set_trace, Hl1.
  rewrite decide_True by (apply elem_of_union; left; by apply elem_of_singleton).
  eexists. split; [reflexivity|].
  rewrite cache_dict_set_trace, cache_dict_put_cache_locks, cache_dict_set_trace.
  rewrite cache_dict_put_cache_dict.
  rewrite cache_locks_set_trace, cache_locks_put_cache_locks.
  split; [done|]. split; [exact Hx1|]. split.
  { f_equal. apply set_eq. intros k.
    rewrite !elem_of_difference, elem_of_union, elem_of_singleton.
    split; [by intros [[?|?] ?]|]. intros [? ?]. auto. }
  cbn [w_trace set_trace put_cache_locks put_cache_dict put_store set_host].
  rewrite Ht1. by rewrite <- !app_assoc.
Qed.
End MorePropertyFacts.

Section MorePropertyFacts2.
Variable hash : Key → Z.
Variable str_format : string → list (string * Value) → Res string.
Implicit Types (w : World Item Ext) (self : cached_property) (f : Method).

(** X15. A [cached_property] with a dependency that is not set, on an owner
    whose dependencies are attributes of the instance.  A read raises the
    [AttributeError] of the first such dependency before any cache object
    is built: the state is untouched.  A write raises it too, from inside
    the critical section: the lock of the key has been released, no slot has
    changed, the function was not called and the rest of the owner is as it
    was. *)
Theorem unset_dependency_raises self f set_names d rest value w :
  function self = Some f →
  class self = cached_property_class →
  dependencies self = set_names ++ d :: rest →
  (∀ x, x ∈ set_names → is_Some (x_attrs (w_ext w) !! x)) →
  x_attrs (w_ext w) !! d = None →
  __get__ hash plain_getattr str_format self false w = (Raise (AttributeError d), w)
  ∧ (per_key_locks w →
     ∃ w',
       cached_property__set__ hash plain_getattr str_format self value w
       = (Raise (AttributeError d), w')
       ∧ cache_dict property_cache w' = cache_dict property_cache w
       ∧ w_ext w' = w_ext w
       ∧ calls (w_trace w') = calls (w_trace w)
       ∧ ∃ events : list Event,
           w_trace w'
           = w_trace (state_in_lock (KStr (m_name f)) w)
             ++ EvRelease (KeyLock (KStr (m_name f))) :: events
           ∧ (events = [] ∨ events = [EvLockRemoved (KStr (m_name f))])).
Proof.
  intros Hf Hclass Hdeps Hset Hd.
  assert (∀ w', w_ext w' = w_ext w →
                dependency_values plain_getattr self w' = (Raise (AttributeError d), w'))
    as Hraise.
  { intros w' Hx. unfold dependency_values. rewrite Hdeps.
    apply getattr_all_plain_unset; rewrite Hx; done. }
  split.
  - unfold __get__, cached_property__get__, cached_property_get_value. rewrite Hclass.
    unfold bind. by rewrite (Hraise w eq_refl).
  - intros Hlocks. set (key := KStr (m_name f)).
    assert (not_pickled self) as Hnp by by left.
    unfold cached_property__set__.
    rewrite (bind_ok _ _ _ _ _ (get_cache_not_pickled self f w Hf Hnp)).
    unfold _OwnedCache_lock. cbn [oc_cache oc_key].
    rewrite property_lock_run by done. fold key.
    destruct (state_in_lock_facts key w Hlocks) as (Hdb & Hxb & Hcb & keys & Hkeys).
    set (wb := state_in_lock key w) in *.
    unfold bind at 1. rewrite (Hraise wb Hxb). cbv zeta. unfold emit. cbn [snd].
    rewrite cache_dict_set_trace.
    destruct (cache_dict property_cache wb !! key) as [item|] eqn:Hslot.
    + rewrite bool_decide_eq_true_2 by done.
      eexists. split; [reflexivity|].
      rewrite cache_dict_set_trace. split; [done|]. split; [done|].
      cbn [w_trace set_trace]. split.
      * rewrite calls_app, Hcb. unfold calls. simpl. lia.
      * exists []. auto.
    + rewrite bool_decide_eq_false_2 by (by intros [? ?]).
      unfold locks_delitem. rewrite cache_locks_set_trace, Hkeys.
      rewrite decide_True by (apply elem_of_union; left; by apply elem_of_singleton).
      eexists. split; [reflexivity|].
      unfold property_cache in *.
      rewrite cache_dict_set_trace, cache_dict_put_cache_locks, cache_dict_set_trace.
      split; [done|]. split; [done|].
      cbn [w_trace set_trace put_cache_locks put_store set_host]. split.
      * rewrite !calls_app, Hcb. unfold calls. simpl. lia.
      * exists [EvLockRemoved key]. rewrite <- app_assoc. auto.
Qed.

(** X16. [is_cache_valid] on an owner whose dependencies are attributes of
    the instance, all of them set: it answers whether the slot holds a
    snapshot equal to the current dependency values, which is whether the
    next read returns the stored value; it calls nothing and changes no slot
    and nothing else of the owner.  On an empty slot the answer is [False]
    after the first check, with no lock of a key taken. *)
Theorem is_cache_valid_answers_for_the_read self f w :
  function self = Some f → not_pickled self → per_key_locks w →
  (∀ x, x ∈ dependencies self → is_Some (x_attrs (w_ext w) !! x)) →
  ∃ w',
    is_cache_valid hash plain_getattr str_format self w
    = (Ok (slot_valid (map (attribute w) (dependencies self)) (slot (m_name f) w)), w')
    ∧ cache_dict property_cache w' = cache_dict property_cache w
    ∧ w_ext w' = w_ext w
    ∧ calls (w_trace w') = calls (w_trace w)
    ∧ (slot (m_name f) w = None → w' = (ProcessCache__init__ "property_cache" 0 w).2).
Proof.
  intros Hf Hnp Hlocks Hset.
  pose proof (plain_dependency_values self w Hset) as Hdeps.
  set (current := map (attribute w) (dependencies self)) in *.
  set (key := KStr (m_name f)).
  unfold is_cache_valid, slot.
  rewrite (bind_ok _ _ _ _ _ (get_cache_not_pickled self f w Hf Hnp)). fold key.
  unfold full at 1. cbn [oc_parent]. unfold _OwnedCache_full. cbn [oc_cache oc_key].
  unfold bind at 1, __contains__ at 1.
  rewrite (ProcessCache_init_cache_dict "property_cache" 0 0 w : cache_dict property_cache _ = _).
  change (cache_dict (ProcessCache "property_cache" 0) w) with (cache_dict property_cache w).
  destruct (cache_dict property_cache w !! key) as [[snap v]|] eqn:Hslot.
  - rewrite bool_decide_eq_true_2 by done. cbn [negb slot_valid].
    unfold _OwnedCache_lock. cbn [oc_cache oc_key].
    rewrite property_lock_run by done.
    destruct (state_in_lock_facts key w Hlocks) as (Hdb & Hxb & Hcb & _).
    set (wb := state_in_lock key w) in *.
    assert (cache_dict property_cache wb !! key = Some (snap, v)) as Hslotb by by rewrite Hdb.
    unfold full, retrieve. cbn [oc_parent].
    unfold _OwnedCache_full, _OwnedCache_retrieve. cbn [oc_cache oc_key].
    unfold bind at 1, __contains__ at 1. rewrite Hslotb.
    rewrite bool_decide_eq_true_2 by done. cbn [negb].
    unfold bind at 1, __getitem__ at 1. rewrite Hslotb.
    rewrite (bind_ok _ _ _ _ _ (Hdeps wb Hxb)). unfold ret. cbn [fst].
    cbv zeta. unfold emit. cbn [snd]. rewrite cache_dict_set_trace, Hslotb.
    rewrite bool_decide_eq_true_2 by done.
    eexists. split; [by rewrite (tuple_eq_sym snap current)|].
    rewrite cache_dict_set_trace. split; [done|]. split; [done|].
    split; [|by intros ?]. cbn [w_trace set_trace]. rewrite calls_app, Hcb. unfold calls. simpl. lia.
  - rewrite bool_decide_eq_false_2 by (by intros [? ?]). cbn [negb slot_valid].
    eexists. split; [reflexivity|].
    split; [apply (ProcessCache_init_cache_dict "property_cache" 0 0 w)|].
    split; [apply ProcessCache_init_rest|]. split; [|done].
    destruct (ProcessCache_init_trace (V:=Item) (X:=Ext) "property_cache" 0 w)
      as (events & -> & Hev).
    rewrite calls_app.
    assert (calls events = 0%nat) as ->; [|lia].
    clear -Hev. induction Hev as [|e l [-> | ->] _ IH]; done.
Qed.
End MorePropertyFacts2.

Section LazyErrors.
Variable hash : Key → Z.
Variable getattr : string → PM Value.
Variable str_format : string → list (string * Value) → Res string.
Implicit Types (w : World Item Ext) (self : cached_property).

Lemma any_member_is_none_app (members members' : list string) w w0 :
  any_member_is_none getattr members w = (Ok false, w0) →
  any_member_is_none getattr (members ++ members') w
  = any_member_is_none getattr members' w0.
Proof.
  revert w. induction members as [|m members IH]; intros w Hrun.
  - cbn in Hrun. unfold ret in Hrun. by injection Hrun as <-.
  - cbn [app any_member_is_none] in *. unfold bind in *.
    destruct (getattr_default getattr m VNone w) as [[v|e] w1]; [|done].
    destruct (py_is v VNone); [done|]. by apply IH.
Qed.

(** X17. The loop of [lazy_property.__get__] swallows [AttributeError]
    only, whichever attribute it names and wherever under the read of the
    member it was raised: a member whose read raises it makes the read of
    the property return [None] in the state that read left, with the
    function not called from the loop; any other exception of a member is
    the exception of the read. *)
Theorem lazy_read_member_errors self passed d rest e w w0 w1 :
  class self = lazy_property_class →
  dependencies self = passed ++ d :: rest →
  any_member_is_none getattr passed w = (Ok false, w0) →
  getattr d w0 = (Raise e, w1) →
  __get__ hash getattr str_format self false w
  = match e with
    | AttributeError _ => (Ok (GotValue VNone), w1)
    | _ => (Raise e, w1)
    end.
Proof.
  intros Hclass Hdeps Hpassed Hd. unfold __get__, lazy_property__get__.
  rewrite Hclass, Hdeps. unfold bind at 1.
  rewrite (any_member_is_none_app passed (d :: rest) w w0 Hpassed).
  cbn [any_member_is_none]. unfold bind at 1, getattr_default. rewrite Hd.
  by destruct e.
Qed.
End LazyErrors.

(** ** Pickled properties: computing and deleting *)

Lemma cache_dict_set_ext {V X} (c : Cache) (x : X) (w : World V X) :
  cache_dict c (set_ext x w) = cache_dict c w.
Proof. by destruct c. Qed.

Section MorePicklerFacts.
Variable hash : Key → Z.
Variable str_format : string → list (string * Value) → Res string.
Implicit Types (w : World Item Ext) (self : cached_property) (f : Method).

(** The name of the file on an owner whose dependencies are attributes of
    the instance. *)
Lemma pickled_filename_plain self template filename w :
  class self = pickled_cached_property_class template →
  (∀ x, x ∈ dependencies self → is_Some (x_attrs (w_ext w) !! x)) →
  str_format template (zip (dependencies self) (map (attribute w) (dependencies self)))
  = Ok filename →
  ∀ w', w_ext w' = w_ext w →
        _OwnedPicklerCache_filename plain_getattr str_format self w' = (Ok filename, w').
Proof.
  intros Hclass Hset Hformat w' Hx.
  unfold _OwnedPicklerCache_filename, get_filename. rewrite Hclass.
  rewrite (bind_ok _ _ _ _ _ (plain_dependency_values self w Hset w' Hx)).
  unfold lift_res. by rewrite Hformat.
Qed.

Lemma pickler_insert_run self key item filename w :
  (∀ w', w_ext w' = w_ext w →
         _OwnedPicklerCache_filename plain_getattr str_format self w' = (Ok filename, w')) →
  insert plain_getattr str_format (mkOwnedCache property_cache key (Some self)) item w
  = (Ok tt,
     set_ext (mkExt (x_attrs (w_ext w)) (<[filename := item]> (x_files (w_ext w))))
       (put_cache_dict property_cache (<[key := item]> (cache_dict property_cache w)) w)).
Proof.
  intros Hname. unfold insert. cbn [oc_parent].
  unfold _OwnedPicklerCache_insert, _OwnedCache_insert. cbn [oc_cache oc_key].
  unfold bind at 1, __setitem__ at 1.
  set (w1 := put_cache_dict _ _ _).
  assert (w_ext w1 = w_ext w) as Hx by (subst w1; by destruct w).
  rewrite (bind_ok _ _ _ _ _ (Hname w1 Hx)). unfold pdump. by rewrite Hx.
Qed.

(** X18. A read of a [pickled_cached_property] that has to compute, on an
    owner whose dependencies are attributes of the instance: the slot in
    memory is empty and the file is missing or holds a snapshot that differs
    from the current dependency values (a stale file is first loaded into
    the slot).  The function is called once, and the pair of the snapshot
    taken before the call and the new value goes both to the slot and to the
    file; the name of that file is resolved again after the call, from the
    dependency values the call left. *)
Theorem pickled_get_computes_and_writes
        self f template filename filename' r w w2 :
  function self = Some f → class self = pickled_cached_property_class template →
  per_key_locks w →
  slot (m_name f) w = None →
  (∀ x, x ∈ dependencies self → is_Some (x_attrs (w_ext w) !! x)) →
  let dep_values := map (attribute w) (dependencies self) in
  let key := KStr (m_name f) in
  let wb := state_in_lock key w in
  str_format template (zip (dependencies self) dep_values) = Ok filename →
  slot_valid dep_values (x_files (w_ext w) !! filename) = false →
  m_call f
    match x_files (w_ext w) !! filename with
    | Some item =>
        put_cache_dict property_cache (<[key := item]> (cache_dict property_cache wb)) wb
    | None => wb
    end = (Ok r, w2) →
  (∀ x, x ∈ dependencies self → is_Some (x_attrs (w_ext w2) !! x)) →
  str_format template (zip (dependencies self) (map (attribute w2) (dependencies self)))
  = Ok filename' →
  ∃ w3,
    __get__ hash plain_getattr str_format self false w = (Ok (GotValue r), w3)
    ∧ slot (m_name f) w3 = Some (dep_values, r)
    ∧ x_files (w_ext w3) = <[filename' := (dep_values, r)]> (x_files (w_ext w2))
    ∧ x_attrs (w_ext w3) = x_attrs (w_ext w2)
    ∧ calls (w_trace w3) = S (calls (w_trace w)).
Proof.
  intros Hf Hclass Hlocks Hslot Hset dep_values key wb Hformat Hinvalid Hcall Hset2 Hformat2.
  pose proof (plain_dependency_values self w Hset) as Hdeps. fold dep_values in Hdeps.
  pose proof (pickled_filename_plain self template filename w Hclass Hset Hformat) as Hname.
  pose proof (pickled_filename_plain self template filename' w2 Hclass Hset2 Hformat2)
    as Hname2.
  destruct (state_in_lock_facts key w Hlocks) as (Hd & Hx & Hc & _). fold wb in Hd, Hx, Hc.
  unfold slot in Hslot. fold key in Hslot.
  assert (cache_dict property_cache wb !! key = None) as Hslotb by by rewrite Hd.
  set (wcall := match x_files (w_ext w) !! filename with
                | Some item =>
                    put_cache_dict property_cache
                      (<[key := item]> (cache_dict property_cache wb)) wb
                | None => wb
                end) in *.
  assert (calls (w_trace wcall) = calls (w_trace w)) as Hccall.
  { subst wcall. by destruct (x_files (w_ext w) !! filename). }
  set (w2' := set_trace (w_trace wcall ++ [EvCall (m_name f)]) w2).
  set (w3 := set_ext (mkExt (x_attrs (w_ext w2'))
                        (<[filename' := (dep_values, r)]> (x_files (w_ext w2'))))
               (put_cache_dict property_cache
                  (<[key := (dep_values, r)]> (cache_dict property_cache w2')) w2')).
  assert (get_body plain_getattr str_format self dep_values
            (mkOwnedCache property_cache key (Some self)) wb = (Ok r, w3)) as Hbody.
  { unfold get_body.
    rewrite (bind_ok _ _ _ _ _
               (pickler_full_on_disk plain_getattr str_format self key filename wb wb
                  Hslotb (Hname wb Hx))).
    rewrite Hx.
    assert (call_function self wcall = (Ok r, w2')) as Hrun.
    { unfold call_function, invoke. by rewrite Hf, Hcall. }
    assert (insert plain_getattr str_format (mkOwnedCache property_cache key (Some self))
              (dep_values, r) w2' = (Ok tt, w3)) as Hins.
    { by apply pickler_insert_run. }
    subst wcall. destruct (x_files (w_ext w) !! filename) as [[snap v]|] eqn:Hfile.
    - rewrite bool_decide_eq_true_2 by done.
      unfold bind at 1. unfold bind at 1.
      rewrite (pickler_retrieve_from_disk plain_getattr str_format self key filename (snap, v)
                 wb wb Hslotb (Hname wb Hx)) by by rewrite Hx.
      unfold ret at 1. cbn [fst snd snapshot_differs]. cbn [slot_valid] in Hinvalid.
      rewrite Hinvalid. cbn [negb].
      rewrite (bind_ok _ _ _ _ _ Hrun). by rewrite (bind_ok _ _ _ _ _ Hins).
    - rewrite bool_decide_eq_false_2 by (by intros [? ?]).
      unfold bind at 1. unfold ret at 1. cbn [fst snd snapshot_differs].
      rewrite (bind_ok _ _ _ _ _ Hrun). by rewrite (bind_ok _ _ _ _ _ Hins). }
  assert (cache_dict property_cache w3 !! key = Some (dep_values, r)) as Hslot3.
  { subst w3. by rewrite cache_dict_set_ext, cache_dict_put_cache_dict, lookup_insert_eq. }
  exists (set_trace (w_trace w3 ++ [EvRelease (KeyLock key)]) w3).
  split.
  { unfold __get__, cached_property__get__. rewrite Hclass.
    erewrite bind_ok; [reflexivity|].
    unfold cached_property_get_value.
    rewrite (bind_ok _ _ _ _ _ (Hdeps w eq_refl)).
    rewrite (bind_ok _ _ _ _ _ (get_cache_pickled self f template w Hf Hclass)).
    unfold _OwnedCache_lock. cbn [oc_cache oc_key].
    rewrite property_lock_run by done. fold key. fold wb. rewrite Hbody.
    cbv zeta. unfold emit. cbn [snd]. rewrite cache_dict_set_trace, Hslot3.
    by rewrite bool_decide_eq_true_2 by done. }
  unfold slot. fold key. rewrite cache_dict_set_trace.
  split; [done|]. split; [done|]. split; [done|].
  cbn [w_trace set_trace]. subst w3 w2'.
  cbn [w_trace set_trace set_ext put_cache_dict property_cache put_store set_host].
  rewrite !calls_app, Hccall. unfold calls. simpl. lia.
Qed.

(** X19. Deleting a [pickled_cached_property] on an owner whose dependencies
    are attributes of the instance: whatever was there, afterwards the slot
    in memory is empty and the file is gone; the other slots, the other
    files and the rest of the owner are untouched, nothing is raised and the
    function is not called. *)
Theorem pickled_delete_removes_file_and_slot self f template filename w :
  function self = Some f → class self = pickled_cached_property_class template →
  per_key_locks w →
  (∀ x, x ∈ dependencies self → is_Some (x_attrs (w_ext w) !! x)) →
  str_format template
    (zip (dependencies self) (map (attribute w) (dependencies self))) = Ok filename →
  let key := KStr (m_name f) in
  ∃ w',
    cached_property__delete__ hash plain_getattr str_format self w = (Ok tt, w')
    ∧ cache_dict property_cache w' = delete key (cache_dict property_cache w)
    ∧ x_files (w_ext w') = delete filename (x_files (w_ext w))
    ∧ x_attrs (w_ext w') = x_attrs (w_ext w)
    ∧ calls (w_trace w') = calls (w_trace w).
Proof.
  intros Hf Hclass Hlocks Hset Hformat key.
  pose proof (pickled_filename_plain self template filename w Hclass Hset Hformat) as Hname.
  destruct (state_in_lock_facts key w Hlocks) as (Hd & Hx & Hc & keys & Hkeys).
  set (wb := state_in_lock key w) in *.
  destruct (ProcessCache_init_rest (V:=Item) (X:=Ext) "property_cache" 0 w) as (_ & Hx1).
  pose proof (ProcessCache_init_cache_dict (V:=Item) (X:=Ext) "property_cache" 0 0 w) as Hd1.
  set (w1 := (ProcessCache__init__ "property_cache" 0 w).2) in *.
  change (cache_dict property_cache w1 = cache_dict property_cache w) in Hd1.
  assert (calls (w_trace w1) = calls (w_trace w)) as Hc1.
  { destruct (ProcessCache_init_trace (V:=Item) (X:=Ext) "property_cache" 0 w)
      as (events & Htr & Hev). subst w1. rewrite Htr, calls_app.
    assert (calls events = 0%nat) as ->; [|lia].
    clear -Hev. induction Hev as [|e l [-> | ->] _ IH]; done. }
  set (cache := mkOwnedCache property_cache key (Some self)).
  (* what [clear] does under the lock *)
  set (wfiles := match x_files (w_ext w) !! filename with
                 | Some _ =>
                     set_ext (mkExt (x_attrs (w_ext wb)) (delete filename (x_files (w_ext wb))))
                       wb
                 | None => wb
                 end).
  assert (cache_dict property_cache wfiles = cache_dict property_cache w
          ∧ x_files (w_ext wfiles) = delete filename (x_files (w_ext w))
          ∧ x_attrs (w_ext wfiles) = x_attrs (w_ext w)
          ∧ w_trace wfiles = w_trace wb
          ∧ cache_locks "property_cache" wfiles = LockDict ({[key]} ∪ keys))
    as (Hdf & Hff & Haf & Htf & Hlf).
  { subst wfiles. destruct (x_files (w_ext w) !! filename) eqn:Hfile.
    - rewrite cache_dict_set_ext. cbn [w_ext set_ext x_files x_attrs w_trace].
      by rewrite Hx.
    - rewrite Hx. by rewrite delete_id. }
  set (wclear := put_cache_dict property_cache (delete key (cache_dict property_cache w))
                   wfiles).
  assert (clear plain_getattr str_format cache wb
          = (Ok tt, match cache_dict property_cache w !! key with
                    | Some _ => wclear
                    | None => wfiles
                    end)) as Hclear.
  { subst cache. unfold clear. cbn [oc_parent]. unfold _OwnedPicklerCache_clear.
    rewrite (bind_ok _ _ _ _ _ (Hname wb Hx)).
    unfold bind at 1, path_exists at 1. rewrite Hx.
    assert ((if bool_decide (is_Some (x_files (w_ext w) !! filename))
             then os_remove filename else ret tt) wb = (Ok tt, wfiles)) as Hremove.
    { subst wfiles. destruct (x_files (w_ext w) !! filename) eqn:Hfile.
      - rewrite bool_decide_eq_true_2 by done. unfold os_remove. by rewrite Hx, Hfile.
      - by rewrite bool_decide_eq_false_2 by (by intros [? ?]). }
    rewrite (bind_ok _ _ _ _ _ Hremove).
    unfold _OwnedCache_clear. cbn [oc_cache oc_key]. subst wclear.
    unfold bind, __contains__, __delitem__. rewrite Hdf.
    destruct (cache_dict property_cache w !! key) eqn:Hslot.
    - rewrite bool_decide_eq_true_2 by done. by rewrite Hdf, Hslot.
    - by rewrite bool_decide_eq_false_2 by (by intros [? ?]). }
  assert (∃ w', lock hash property_cache key (clear plain_getattr str_format cache) w1
                = (Ok tt, w')
                ∧ cache_dict property_cache w' = delete key (cache_dict property_cache w)
                ∧ x_files (w_ext w') = delete filename (x_files (w_ext w))
                ∧ x_attrs (w_ext w') = x_attrs (w_ext w)
                ∧ calls (w_trace w') = calls (w_trace w)) as Hlock.
  { subst w1. rewrite property_lock_run by done. fold wb. rewrite Hclear.
    set (w2 := match cache_dict property_cache w !! key with
               | Some _ => wclear
               | None => wfiles
               end).
    assert (cache_dict property_cache w2 = delete key (cache_dict property_cache w)
            ∧ w_ext w2 = w_ext wfiles
            ∧ w_trace w2 = w_trace wb
            ∧ cache_locks "property_cache" w2 = LockDict ({[key]} ∪ keys))
      as (Hd2 & Hx2 & Ht2 & Hl2).
    { subst w2 wclear. destruct (cache_dict property_cache w !! key) eqn:Hslot.
      - rewrite cache_dict_put_cache_dict. unfold property_cache.
        rewrite cache_locks_put_cache_dict. done.
      - rewrite Hdf. by rewrite delete_id. }
    clearbody w2. cbv zeta. unfold emit. cbn [snd].
    rewrite cache_dict_set_trace, Hd2, lookup_delete_eq.
    rewrite bool_decide_eq_false_2 by (by intros [? ?]).
    unfold locks_delitem. rewrite cache_locks_set_trace, Hl2.
    rewrite decide_True by (apply elem_of_union; left; by apply elem_of_singleton).
    eexists. split; [reflexivity|].
    unfold property_cache in *.
    rewrite cache_dict_set_trace, cache_dict_put_cache_locks, cache_dict_set_trace.
    split; [done|].
    cbn [w_ext w_trace set_trace put_cache_locks put_store set_host].
    rewrite Hx2. split; [done|]. split; [done|].
    rewrite Ht2, !calls_app, Hc. unfold calls. simpl. lia. }
  unfold cached_property__delete__.
  rewrite (bind_ok _ _ _ _ _ (get_cache_pickled self f template w Hf Hclass)).
  fold key. fold cache. fold w1.
  unfold _OwnedCache_lock. cbn [oc_cache oc_key].
  destruct (cache_dict property_cache w !! key) as [item|] eqn:Hslot.
  - assert (cache_dict property_cache w1 !! key = Some item) as Hslot1 by by rewrite Hd1.
    rewrite (bind_ok _ _ _ _ _
               (pickler_full_in_memory plain_getattr str_format self key item w1 Hslot1)).
    exact Hlock.
  - assert (cache_dict property_cache w1 !! key = None) as Hslot1 by by rewrite Hd1.
    rewrite (bind_ok _ _ _ _ _
               (pickler_full_on_disk plain_getattr str_format self key filename w1 w1
                  Hslot1 (Hname w1 Hx1))).
    rewrite Hx1.
    destruct (x_files (w_ext w) !! filename) as [stored|] eqn:Hfile.
    + rewrite bool_decide_eq_true_2 by done. exact Hlock.
    + rewrite bool_decide_eq_false_2 by (by intros [? ?]).
      exists w1. split; [done|]. rewrite Hd1, Hx1.
      by rewrite !delete_id.
Qed.
(** C6. A [pickled_cached_property] whose slot in memory is absent, on an
    owner whose dependencies are attributes of the instance.  When the file
    exists, [retrieve] puts its content, a pair of a snapshot and a value,
    in the slot and returns it, and does nothing else; the read of the
    property returns the value of that pair, without calling the function
    of the property, when the snapshot of the pair equals the current
    dependency values.  When the file does not exist, [retrieve] raises
    [KeyError].  [full] answers whether the file exists, while with a slot
    in memory [full] is true without looking at the files. *)
Theorem pickled_read_falls_back_to_file self f template filename w :
  function self = Some f → class self = pickled_cached_property_class template →
  per_key_locks w →
  slot (m_name f) w = None →
  (∀ x, x ∈ dependencies self → is_Some (x_attrs (w_ext w) !! x)) →
  let dep_values := map (attribute w) (dependencies self) in
  str_format template (zip (dependencies self) dep_values) = Ok filename →
  let key := KStr (m_name f) in
  let cache := mkOwnedCache property_cache key (Some self) in
  let file := x_files (w_ext w) !! filename in
  (∀ item,
      file = Some item →
      ∃ w2, retrieve plain_getattr str_format cache w = (Ok item, w2)
            ∧ slot (m_name f) w2 = Some item
            ∧ w_ext w2 = w_ext w
            ∧ w_trace w2 = w_trace w)
  ∧ (∀ snap v,
        file = Some (snap, v) → tuple_eq dep_values snap = true →
        ∃ w3, __get__ hash plain_getattr str_format self false w = (Ok (GotValue v), w3)
              ∧ slot (m_name f) w3 = Some (snap, v)
              ∧ w_ext w3 = w_ext w
              ∧ calls (w_trace w3) = calls (w_trace w))
  ∧ (file = None →
     retrieve plain_getattr str_format cache w = (Raise (KeyError key), w))
  ∧ full plain_getattr str_format cache w = (Ok (bool_decide (is_Some file)), w)
  ∧ (∀ w' item,
        cache_dict property_cache w' !! key = Some item →
        full plain_getattr str_format cache w' = (Ok true, w')).
Proof.
  intros Hf Hclass Hlocks Hslot Hset dep_values Hformat key cache file.
  pose proof (plain_dependency_values self w Hset) as Hdeps. fold dep_values in Hdeps.
  pose proof (pickled_filename_plain self template filename w Hclass Hset Hformat w eq_refl)
    as Hname.
  destruct (pickler_cache_falls_back_to_file plain_getattr str_format self key filename w w
              Hslot Hname) as (Hload & Hmissing & Hfull & Hmemory).
  split; [|split; [|split; [|split]]].
  - intros item Hfile. destruct (Hload item Hfile) as (w2 & Hrun & Hin & Hrest).
    exists w2. by split.
  - intros snap v Hfile Hvalid.
    destruct (pickled_get_value_loads_valid_file hash str_format self f template filename
                dep_values snap v w Hf Hclass Hlocks Hslot Hdeps Hformat Hfile Hvalid)
      as (w3 & Hrun & Hrest).
    exists w3. split; [|exact Hrest].
    unfold __get__, cached_property__get__. rewrite Hclass.
    by rewrite (bind_ok _ _ _ _ _ Hrun).
  - exact Hmissing.
  - exact Hfull.
  - exact Hmemory.
Qed.
End MorePicklerFacts.

(** ** Singleton classes *)

Section SingletonFacts.
Context {V I : Type}.
Variable Args : Type.
Variable type_call : Args → M V (option I) (option I).
Implicit Types (w : World V (option I)).

(** X20. A class whose metaclass is [Singleton].  After [Singleton.__init__]
    there is no instance.  With no instance, a call whose construction
    returns an object stores it, and from then on every call, whatever its
    arguments, returns that object, builds nothing and changes nothing;
    a call whose construction raises lets the exception through and stores
    nothing, so the next call builds again. *)
Theorem singleton_constructs_once args w :
  w_ext w = None →
  w_ext (@Singleton__init__ V I w).2 = None
  ∧ (∀ i w2,
       type_call args w = (Ok (Some i), w2) →
       ∃ w3,
         Singleton__call__ Args type_call args w = (Ok (Some i), w3)
         ∧ w_ext w3 = Some i
         ∧ w_trace w3 = w_trace w ++ [EvCall "type.__call__"]
         ∧ ∀ args', Singleton__call__ Args type_call args' w3 = (Ok (Some i), w3))
  ∧ (∀ e w2,
       type_call args w = (Raise e, w2) →
       ∃ w3,
         Singleton__call__ Args type_call args w = (Raise e, w3)
         ∧ w_ext w3 = w_ext w2
         ∧ w_trace w3 = w_trace w ++ [EvCall "type.__call__"]).
Proof.
  intros Hnone. split; [done|]. split.
  - intros i w2 Hbuild.
    exists (set_ext (Some i) (set_trace (w_trace w ++ [EvCall "type.__call__"]) w2)).
    split; [|split; [done|split; [done|]]].
    + unfold Singleton__call__, bind, get_instance, invoke, set_instance.
      by rewrite Hnone, Hbuild.
    + intros args'. unfold Singleton__call__, bind, get_instance, ret. done.
  - intros e w2 Hbuild.
    exists (set_trace (w_trace w ++ [EvCall "type.__call__"]) w2).
    split; [|done].
    unfold Singleton__call__, bind, get_instance, invoke.
    by rewrite Hnone, Hbuild.
Qed.
End SingletonFacts.

(** ** Threads: what never happens *)

Section MoreThreadFacts.
Import Threads.
Context {V : Type}.
Variable callfunc : nat → V.
Implicit Types (sh : Shared V) (s : System (V:=V)) (t : nat).

Ltac crush := intuition (try congruence; try lia).

Ltac step_cases H :=
  repeat match type of H with
         | context [if ?b then _ else _] => destruct b
         | context [match ?o with Some _ => _ | None => _ end] => destruct o
         end;
  simplify_eq.

(** A step never loses or replaces a stored entry. *)
Lemma thread_step_keeps_entry t at_ next sh sh' v :
  thread_step callfunc t at_ sh = Some (next, sh') →
  shared_ok sh → thread_ok t at_ sh →
  entry sh = Some v → entry sh' = Some v.
Proof.
  intros Hstep Hsh Hok Hentry. unfold thread_ok, shared_ok in *.
  destruct sh as [hs ns e sl kl c].
  cbn [host_store named_store entry store_lock key_lock counter] in *.
  destruct at_; cbn in Hstep, Hok; step_cases Hstep; cbn; try done;
    destruct ns; crush.
Qed.

(** X21. [n] threads that make the same process-scoped memoized call,
    interleaved in any way, in every state they can reach: no thread has had
    [KeyError] from the final [cache[key]]; two threads are never both inside
    the critical section of the key, nor both inside a critical section of
    [STORE_LOCK]; a thread about to create the named store finds it
    missing, so the double check never replaces a store that exists; and a
    step of any thread keeps an entry that is stored. *)
Theorem concurrent_calls_are_safe n s :
  reachable callfunc n s →
  (∀ t, s.1 !! t ≠ Some Failed)
  ∧ (∀ t t' at_ at', s.1 !! t = Some at_ → s.1 !! t' = Some at' →
       (holds_key_lock at_ = true → holds_key_lock at' = true → t = t')
       ∧ (holds_store_lock at_ = true → holds_store_lock at' = true → t = t'))
  ∧ (∀ t, s.1 !! t = Some CreateStore → named_store s.2 = false)
  ∧ (∀ s' v, step callfunc s s' → entry s.2 = Some v → entry s'.2 = Some v).
Proof.
  intros Hreach.
  pose proof (reachable_invariant callfunc n s Hreach) as (Hsh & Hthreads & _ & _).
  split; [|split; [|split]].
  - intros t Hat. by destruct (Hthreads t _ Hat) as (_ & _ & ?).
  - intros t t' at_ at' Hat Hat'.
    destruct (Hthreads t _ Hat) as (Hs & Hk & _).
    destruct (Hthreads t' _ Hat') as (Hs' & Hk' & _).
    split; intros H H'.
    + apply Hk in H. apply Hk' in H'. congruence.
    + apply Hs in H. apply Hs' in H'. congruence.
  - intros t Hat. by destruct (Hthreads t _ Hat) as (_ & _ & _ & ?).
  - intros s' v Hstep Hentry.
    destruct Hstep as [t at_ next threads sh sh' Hat Hstep]. cbn [fst snd] in *.
    exact (thread_step_keeps_entry t at_ next sh sh' v Hstep Hsh (Hthreads t at_ Hat) Hentry).
Qed.
End MoreThreadFacts.

(** * The properties on the sample programs *)

Lemma hash_content_dict_order_independent_witness :
  _hash_content sample_hash
    (PDict [(KStr "a", PScalar (SInt 1)); (KStr "b", PDict [(KInt 2, PScalar (SStr "x"))])])
  = _hash_content sample_hash
      (PDict [(KStr "b", PDict [(KInt 2, PScalar (SStr "x"))]); (KStr "a", PScalar (SInt 1))]).
Proof.
  apply (hash_content_dict_order_independent sample_hash
           [(KStr "a", PScalar (SInt 1)); (KStr "b", PDict [(KInt 2, PScalar (SStr "x"))])]
           [(KStr "b", PDict [(KInt 2, PScalar (SStr "x"))]); (KStr "a", PScalar (SInt 1))]).
  intros kv. rewrite !elem_of_cons. rewrite !elem_of_nil. tauto.
Defined.

Lemma invalid_scope_is_value_error_witness :
  cached_call sample_hash sample_key_hash positional_bind 0 func [PScalar (SInt 3)]
    "invalid" None [] new_process
  = (Raise (ValueError "Invalid scope 'invalid'"), new_process)
  ∧ Cached__call__ sample_hash sample_key_hash positional_bind 0 BadScope
      [PScalar (SInt 3)] [] new_process
    = (Raise (ValueError "Invalid scope 'invalid'"), new_process).
Proof.
  destruct (invalid_scope_is_value_error sample_hash sample_key_hash (list string)
              positional_bind 0 "invalid" new_process)
    as (_ & Hcall & _ & Hclass); [done|done|].
  split; [apply Hcall|by apply Hclass].
Defined.


Lemma per_key_lock_entry_removed_after_release_witness :
  w_trace (lock sample_key_hash (ProcessCache "c" 0) (KStr "k") (ret tt) empty_keyed_store).2
  = [EvLockCreated (KStr "k"); EvAcquire (KeyLock (KStr "k"));
     EvRelease (KeyLock (KStr "k")); EvLockRemoved (KStr "k")].
Proof.
  destruct (per_key_lock_entry_removed_after_release (A:=unit) sample_key_hash "c" (KStr "k") ∅
              (ret tt) empty_keyed_store _ (Ok tt) eq_refl eq_refl) as [Habsent _].
  - reflexivity.
  - destruct (Habsent eq_refl) as (_ & Htrace & _). exact Htrace.
Defined.

Lemma new_owner_per_key_locks : per_key_locks new_owner.
Proof. intros s Hs. discriminate Hs. Defined.

Lemma owner_with_z_per_key_locks : per_key_locks owner_with_z.
Proof.
  intros s Hs. exists {[KStr "z"]}.
  unfold process_store, owner_with_z in Hs. cbn [w_host] in Hs.
  rewrite lookup_singleton_eq in Hs. by injection Hs as <-.
Defined.

Lemma cached_property_get_valid_or_recompute_witness :
  (∃ w3, __get__ sample_key_hash plain_getattr sample_format z_property false owner_with_z
         = (Ok (GotValue (VObj 9 30)), w3)
         ∧ calls (w_trace w3) = 0%nat)
  ∧ (∃ w3, __get__ sample_key_hash plain_getattr sample_format z_property false new_owner
           = (Ok (GotValue (VObj 9 30)), w3)
           ∧ slot "z" w3 = Some ([VObj 1 3], VObj 9 30)
           ∧ calls (w_trace w3) = 1%nat).
Proof.
  split.
  - destruct (cached_property_get_valid_or_recompute sample_key_hash plain_getattr
                sample_format z_property z_method [VObj 1 3] owner_with_z owner_with_z
                eq_refl eq_refl eq_refl owner_with_z_per_key_locks) as [Hvalid _].
    destruct (Hvalid [VObj 2 3] (VObj 9 30)) as (w3 & Hread & _ & _ & Hcalls).
    + unfold slot, owner_with_z, property_cache, cache_dict, process_store. cbn [w_host].
      rewrite lookup_singleton_eq. cbn. by rewrite lookup_singleton_eq.
    + reflexivity.
    + exists w3. split; [exact Hread|exact Hcalls].
  - destruct (cached_property_get_valid_or_recompute sample_key_hash plain_getattr
                sample_format z_property z_method [VObj 1 3] new_owner new_owner
                eq_refl eq_refl eq_refl new_owner_per_key_locks) as [_ Hstale].
    destruct (Hstale eq_refl (VObj 9 30) _ eq_refl) as (w3 & Hread & Hslot & _ & Hcalls).
    exists w3. split; [exact Hread|]. split; [exact Hslot|exact Hcalls].
Defined.

(** [del owner.a] on [owner_with_z], whose store exists and has no slot for
    [a]: nothing changes. *)
Lemma delete_of_empty_slot_witness :
  cached_property__delete__ sample_key_hash plain_getattr sample_format a_property owner_with_z
  = (Ok tt, owner_with_z).
Proof.
  destruct (delete_of_empty_slot sample_key_hash plain_getattr sample_format
              a_property (mkMethod "a" (ret VNone)) owner_with_z eq_refl)
    as (w' & Hrun & _ & _ & _ & Hsame).
  - by left.
  - unfold slot, owner_with_z, property_cache, cache_dict, process_store. cbn [w_host].
    rewrite lookup_singleton_eq. cbn. by rewrite lookup_singleton_ne.
  - rewrite Hrun. f_equal. apply Hsame.
    unfold process_store, owner_with_z. cbn [w_host]. rewrite lookup_singleton_eq. by eexists.
Defined.

(** [del owner.z] on a new owner: the slot is empty, nothing is raised, and
    yet the owner gets its store and [STORE_LOCK] is taken twice. *)
Lemma delete_on_new_owner_builds_store :
  slot "z" new_owner = None
  ∧ w_host new_owner = None
  ∧ ∃ w', cached_property__delete__ sample_key_hash plain_getattr sample_format
            z_property new_owner = (Ok tt, w')
          ∧ w_host w' = Some {["property_cache" := mkStore ∅ (LockDict ∅)]}
          ∧ w_trace w' = [EvAcquire STORE_LOCK; EvRelease STORE_LOCK;
                          EvAcquire STORE_LOCK; EvRelease STORE_LOCK]
          ∧ w' ≠ new_owner.
Proof.
  split; [reflexivity|]. split; [reflexivity|].
  exists (cached_property__delete__ sample_key_hash plain_getattr sample_format
            z_property new_owner).2.
  split; [vm_compute; reflexivity|]. split; [vm_compute; reflexivity|].
  split; [vm_compute; reflexivity|].
  intros Heq. apply (f_equal w_trace) in Heq. vm_compute in Heq. discriminate Heq.
Qed.

Lemma lazy_property_read_witness :
  __get__ sample_key_hash plain_getattr sample_format q_property false new_owner
  = (Ok (GotValue VNone), new_owner).
Proof.
  destruct (lazy_property_read sample_key_hash plain_getattr sample_format q_property
              new_owner eq_refl) as (_ & _ & Hunset & _).
  apply Hunset. apply Exists_cons_tl, Exists_cons_hd. reflexivity.
Defined.

(** A [lazy_property] whose dependency [a] is a [cached_property] that
    evaluates to [None]: the read returns [None], and the owner has changed,
    for reading [a] called its function and stored its slot. *)
Lemma lazy_read_through_a_property_changes_owner :
  slot "a" new_owner = None
  ∧ ∃ w', __get__ sample_key_hash getattr_with_a sample_format p_property false new_owner
          = (Ok (GotValue VNone), w')
          ∧ slot "a" w' = Some ([], VNone)
          ∧ calls (w_trace w') = 1%nat
          ∧ w' ≠ new_owner.
Proof.
  split; [reflexivity|].
  exists (__get__ sample_key_hash getattr_with_a sample_format p_property false new_owner).2.
  split; [vm_compute; reflexivity|]. split; [vm_compute; reflexivity|].
  split; [vm_compute; reflexivity|].
  intros Heq. apply (f_equal (λ w, length (w_trace w))) in Heq.
  vm_compute in Heq. discriminate Heq.
Qed.

Lemma in_order_ok : frozenset_order in_order.
Proof.
  intros names. split; [apply NoDup_remove_dups|].
  intros x. apply elem_of_remove_dups.
Defined.

Lemma in_reverse_ok : frozenset_order in_reverse.
Proof.
  intros names. unfold in_reverse. split.
  - rewrite reverse_Permutation. apply NoDup_remove_dups.
  - intros x. rewrite elem_of_reverse. apply elem_of_remove_dups.
Defined.

Lemma snapshot_follows_frozenset_order_witness :
  dependency_values plain_getattr
    (cached_property__call__
       (cached_property__init__ in_order cached_property_class
          (a_dependency "x") ["y"]) z_method)
    owner_xy
  = (Ok [VObj 1 3; VObj 2 4], owner_xy).
Proof.
  destruct (snapshot_follows_frozenset_order sample_key_hash in_order sample_format
              cached_property_class (a_dependency "x") ["y"] z_method owner_xy
              in_order_ok) as (_ & _ & Hvalues & _).
  destruct Hvalues as [Hsnapshot _]; [|exact Hsnapshot].
  intros x Hin. cbn [declared_names] in Hin.
  rewrite !elem_of_cons, elem_of_nil in Hin.
  destruct Hin as [-> | [-> | []]]; by eexists.
Defined.

(** The snapshot is not the tuple of the values of the declared names in
    the order declared: under an iteration order a frozenset can have,
    [cached_property('x', 'y')] on an owner with [x] and [y] takes the value
    of [y] first; and under every iteration order [cached_property('x', 'x')]
    has a snapshot of one value, not two. *)
Lemma snapshot_not_in_declared_order :
  frozenset_order in_reverse
  ∧ getattr_all plain_getattr (declared_names (a_dependency "x") ["y"]) owner_xy
    = (Ok [VObj 1 3; VObj 2 4], owner_xy)
  ∧ dependency_values plain_getattr
      (cached_property__call__
         (cached_property__init__ in_reverse cached_property_class
            (a_dependency "x") ["y"]) z_method)
      owner_xy
    = (Ok [VObj 2 4; VObj 1 3], owner_xy)
  ∧ (∀ iter, frozenset_order iter →
             length (dependencies
                       (cached_property__call__
                          (cached_property__init__ iter cached_property_class
                             (a_dependency "x") ["x"]) z_method)) = 1%nat
             ∧ length (declared_names (a_dependency "x") ["x"]) = 2%nat).
Proof.
  split; [apply in_reverse_ok|]. split; [reflexivity|]. split; [reflexivity|].
  intros iter Hiter. split; [|reflexivity].
  cbn [cached_property__call__ cached_property__init__ dependencies].
  destruct (Hiter ["x"; "x"]) as [Hnodup Helem].
  destruct (iter ["x"; "x"]) as [|a [|b l]].
  - exfalso. apply (elem_of_nil "x"). apply Helem. by left.
  - done.
  - exfalso. assert (a = "x") as ->.
    { specialize (Helem a). rewrite !elem_of_cons, elem_of_nil in Helem.
      destruct Helem as [Helem _]. destruct Helem as [?|[?|[]]]; auto. }
    assert (b = "x") as ->.
    { specialize (Helem b). rewrite !elem_of_cons, elem_of_nil in Helem.
      destruct Helem as [Helem _]. destruct Helem as [?|[?|[]]]; auto. }
    apply NoDup_cons in Hnodup as [Hnotin _]. apply Hnotin. by left.
Qed.

Lemma pickled_read_falls_back_to_file_witness :
  ∃ w3,
    __get__ sample_key_hash plain_getattr sample_format pickled_z false owner_with_file
    = (Ok (GotValue (VObj 9 30)), w3)
    ∧ slot "z" w3 = Some ([VObj 2 3], VObj 9 30)
    ∧ calls (w_trace w3) = 0%nat.
Proof.
  destruct (pickled_read_falls_back_to_file sample_key_hash sample_format pickled_z z_method
              "z.pkl" "z.pkl" owner_with_file eq_refl eq_refl new_owner_per_key_locks eq_refl)
    as (_ & Hread & _).
  - intros x Hin. apply list_elem_of_singleton in Hin as ->. by eexists.
  - reflexivity.
  - destruct (Hread [VObj 2 3] (VObj 9 30) eq_refl eq_refl) as (w3 & Hrun & Hslot & _ & Hcalls).
    exists w3. split; [exact Hrun|]. split; [exact Hslot|exact Hcalls].
Defined.

(** The read of [z] next to a file written for another [x]: the slot is
    empty and the file exists, and yet the function is called and its
    value returned, not the value of the file. *)
Lemma stale_file_is_recomputed :
  slot "z" owner_with_stale_file = None
  ∧ x_files (w_ext owner_with_stale_file) !! "z.pkl" = Some ([VObj 2 4], VObj 7 70)
  ∧ ∃ w3,
      __get__ sample_key_hash plain_getattr sample_format pickled_z false
        owner_with_stale_file = (Ok (GotValue (VObj 9 30)), w3)
      ∧ calls (w_trace w3) = 1%nat
      ∧ slot "z" w3 = Some ([VObj 1 3], VObj 9 30)
      ∧ x_files (w_ext w3) !! "z.pkl" = Some ([VObj 1 3], VObj 9 30).
Proof.
  split; [reflexivity|]. split; [reflexivity|].
  exists (__get__ sample_key_hash plain_getattr sample_format pickled_z false
            owner_with_stale_file).2.
  split; [vm_compute; reflexivity|]. split; [vm_compute; reflexivity|].
  split; vm_compute; reflexivity.
Qed.


Lemma concurrent_calls_compute_once_witness :
  Threads.counter
    (Threads.run count_and_answer two_threads (Threads.start 2 no_stores)).2 = 1%nat.
Proof.
  destruct (concurrent_calls_compute_once count_and_answer 2
              (Threads.run count_and_answer two_threads (Threads.start 2 no_stores)))
    as (_ & Hdone & _).
  - lia.
  - exists no_stores. split; [by repeat split|apply run_reachable].
  - apply Hdone. intros t at_ Hat. vm_compute in Hat.
    destruct t as [|[|t]]; simplify_eq; by eexists.
Defined.

Lemma hash_content_object_attributes_witness :
  _hash_content sample_hash
    (PObject "Point" false (PScalar SNone)
       [("x", PScalar (SInt 1)); ("y", PScalar (SInt 2))])
  = _hash_content sample_hash
      (PObject "Point" false (PScalar SNone)
         [("y", PScalar (SInt 2)); ("___name", PScalar (SInt 9)); ("x", PScalar (SInt 1))]).
Proof.
  apply (hash_content_object_attributes sample_hash "Point" false (PScalar SNone)
           [("x", PScalar (SInt 1)); ("y", PScalar (SInt 2))]
           [("y", PScalar (SInt 2)); ("___name", PScalar (SInt 9)); ("x", PScalar (SInt 1))]).
  - apply (bool_decide_unpack _). vm_compute. exact I.
  - apply (bool_decide_unpack _). vm_compute. exact I.
  - intros k v Hname _. rewrite !elem_of_cons, !elem_of_nil.
    split; [tauto|]. intros [?|[Heq|[?|[]]]]; [tauto| |tauto].
    exfalso. apply Hname. congruence.
Defined.

Lemma hash_content_proxy_ignores_dunder_witness :
  _hash_content sample_hash
    (PObject "type" true (PScalar (SStr "A"))
       [("__doc__", PScalar (SStr "a class")); ("size", PScalar (SInt 4));
        ("depth", PScalar (SInt 2))])
  = _hash_content sample_hash
      (PObject "type" true (PScalar (SStr "A"))
         [("depth", PScalar (SInt 2)); ("size", PScalar (SInt 4));
          ("__module__", PScalar (SStr "m"))]).
Proof.
  apply (hash_content_proxy_ignores_dunder sample_hash "type" (PScalar (SStr "A"))
           [("__doc__", PScalar (SStr "a class")); ("size", PScalar (SInt 4));
            ("depth", PScalar (SInt 2))]
           [("depth", PScalar (SInt 2)); ("size", PScalar (SInt 4));
            ("__module__", PScalar (SStr "m"))]).
  - apply (bool_decide_unpack _). vm_compute. exact I.
  - apply (bool_decide_unpack _). vm_compute. exact I.
  - intros k v Hk. rewrite !elem_of_cons, !elem_of_nil.
    split.
    + intros [Heq|[?|[?|[]]]]; [|tauto|tauto].
      injection Heq as -> _. discriminate Hk.
    + intros [?|[?|[Heq|[]]]]; [tauto|tauto|].
      injection Heq as -> _. discriminate Hk.
Defined.


Lemma per_key_locks_follow_entries_witness :
  cache_locks "c"
    (lock sample_key_hash (ProcessCache "c" 0) (KStr "k")
       (__setitem__ (ProcessCache "c" 0) (KStr "k") 7) empty_keyed_store).2
  = LockDict (dom (cache_dict (ProcessCache "c" 0)
       (lock sample_key_hash (ProcessCache "c" 0) (KStr "k")
          (__setitem__ (ProcessCache "c" 0) (KStr "k") 7) empty_keyed_store).2)).
Proof.
  destruct (per_key_locks_follow_entries sample_key_hash "c" (KStr "k")
              (__setitem__ (ProcessCache "c" 0) (KStr "k") 7) empty_keyed_store
              (Ok tt) _ eq_refl eq_refl) as (_ & _ & Hlocks).
  - vm_compute. reflexivity.
  - intros k Hk.
    change (is_Some ((<[KStr "k" := 7]> (∅ : gmap Key Z)) !! k)
            ↔ is_Some ((∅ : gmap Key Z) !! k)).
    by rewrite lookup_insert_ne.
  - exact Hlocks.
Defined.


Lemma process_scope_is_shared_by_name_witness :
  ∃ w',
    cached_call sample_hash sample_key_hash positional_bind 0 func [PScalar (SInt 5)]
      "process" None [] new_process = (Ok 7, w')
    ∧ cached_call sample_hash sample_key_hash positional_bind 1 another_func
        [PScalar (SInt 5)] "process" None [] w' = (Ok 7, w')
    ∧ w_ext w' = 1%nat.
Proof.
  exists (cached_call sample_hash sample_key_hash positional_bind 0 func [PScalar (SInt 5)]
            "process" None [] new_process).2.
  split; [vm_compute; reflexivity|]. split; [|vm_compute; reflexivity].
  destruct (process_scope_is_shared_by_name sample_hash sample_key_hash (list string)
              positional_bind 1 "func" (KInt 12) 7
              (cached_call sample_hash sample_key_hash positional_bind 0 func
                 [PScalar (SInt 5)] "process" None [] new_process).2) as [Hcall _].
  - vm_compute. reflexivity.
  - exact (Hcall another_func None [PScalar (SInt 5)] [] [(KStr "x", PScalar (SInt 5))]
             (Forall_nil_2 _) eq_refl eq_refl eq_refl).
Defined.

Lemma thread_scope_is_private_witness :
  ∃ w3,
    cached_call sample_hash sample_key_hash positional_bind 0 func [PScalar (SInt 5)]
      "thread" None [] new_process = (Ok 7, w3)
    ∧ cache_dict (ThreadCache 1 "func") w3 = ∅
    ∧ w_host w3 = None
    ∧ w_trace w3 = [EvCall "func"].
Proof.
  destruct (thread_scope_is_private sample_hash sample_key_hash (list string) positional_bind
              0 "func" func None [PScalar (SInt 5)] [] [(KStr "x", PScalar (SInt 5))] 7
              new_process _ eq_refl eq_refl eq_refl) as (w3 & Hrun & Hothers & Hhost & Htrace).
  exists w3. split; [exact Hrun|]. split; [|split; [exact Hhost|exact Htrace]].
  rewrite (Hothers (ThreadCache 1 "func")) by (cbn; congruence). reflexivity.
Defined.

Lemma set_then_get_witness :
  ∃ w1 w2,
    cached_property__set__ sample_key_hash plain_getattr sample_format z_property (VObj 8 80)
      new_owner = (Ok tt, w1)
    ∧ slot "z" w1 = Some ([VObj 1 3], VObj 8 80)
    ∧ __get__ sample_key_hash plain_getattr sample_format z_property false w1
      = (Ok (GotValue (VObj 8 80)), w2)
    ∧ calls (w_trace w2) = 0%nat.
Proof.
  destruct (set_then_get sample_key_hash sample_format z_property z_method (VObj 8 80)
              new_owner eq_refl eq_refl new_owner_per_key_locks)
    as (w1 & w2 & Hset & Hslot & _ & _ & Hget & _ & _ & Hcalls).
  - intros x Hin. apply list_elem_of_singleton in Hin as ->. by eexists.
  - exists w1, w2. split; [exact Hset|]. split; [exact Hslot|]. split; [exact Hget|exact Hcalls].
Defined.

Lemma delete_of_full_slot_witness :
  ∃ w',
    cached_property__delete__ sample_key_hash plain_getattr sample_format z_property
      owner_with_z = (Ok tt, w')
    ∧ slot "z" w' = None
    ∧ cache_locks "property_cache" w' = LockDict ∅
    ∧ w_trace w' = [EvAcquire (KeyLock (KStr "z")); EvRelease (KeyLock (KStr "z"));
                    EvLockRemoved (KStr "z")].
Proof.
  destruct (delete_of_full_slot sample_key_hash sample_format z_property z_method
              ([VObj 2 3], VObj 9 30) {[KStr "z"]} owner_with_z eq_refl)
    as (w' & Hrun & Hd & _ & Hlocks & Htrace).
  - by left.
  - reflexivity.
  - vm_compute. reflexivity.
  - exists w'. split; [exact Hrun|]. split; [|split].
    + unfold slot. rewrite Hd. apply lookup_delete_eq.
    + rewrite Hlocks. f_equal.
    + rewrite Htrace. reflexivity.
Defined.

Lemma unset_dependency_raises_witness :
  __get__ sample_key_hash plain_getattr sample_format r_property false new_owner
  = (Raise (AttributeError "y"), new_owner)
  ∧ ∃ w',
      cached_property__set__ sample_key_hash plain_getattr sample_format r_property
        (VObj 8 80) new_owner = (Raise (AttributeError "y"), w')
      ∧ cache_dict property_cache w' = ∅.
Proof.
  destruct (unset_dependency_raises sample_key_hash sample_format r_property
              (mkMethod "r" (ret (VObj 6 60))) ["x"] "y" [] (VObj 8 80) new_owner
              eq_refl eq_refl eq_refl) as [Hget Hset].
  - intros x Hin. apply list_elem_of_singleton in Hin as ->. by eexists.
  - reflexivity.
  - split; [exact Hget|].
    destruct (Hset new_owner_per_key_locks) as (w' & Hrun & Hd & _).
    exists w'. split; [exact Hrun|]. rewrite Hd. reflexivity.
Defined.

Lemma is_cache_valid_answers_for_the_read_witness :
  ∃ w',
    is_cache_valid sample_key_hash plain_getattr sample_format z_property owner_with_z
    = (Ok true, w')
    ∧ calls (w_trace w') = 0%nat.
Proof.
  destruct (is_cache_valid_answers_for_the_read sample_key_hash sample_format z_property
              z_method owner_with_z eq_refl (or_introl eq_refl) owner_with_z_per_key_locks)
    as (w' & Hrun & _ & _ & Hcalls & _).
  - intros x Hin. apply list_elem_of_singleton in Hin as ->. by eexists.
  - exists w'. split; [|exact Hcalls]. rewrite Hrun. f_equal.
Defined.

Lemma lazy_read_member_errors_witness :
  __get__ sample_key_hash getattr_with_broken_y sample_format q_property false new_owner
  = (Raise (ValueError "broken"), new_owner).
Proof.
  exact (lazy_read_member_errors sample_key_hash getattr_with_broken_y sample_format
           q_property ["x"] "y" [] (ValueError "broken") new_owner new_owner new_owner
           eq_refl eq_refl eq_refl eq_refl).
Defined.

Lemma pickled_get_computes_and_writes_witness :
  ∃ w3,
    __get__ sample_key_hash plain_getattr sample_format pickled_z false new_owner
    = (Ok (GotValue (VObj 9 30)), w3)
    ∧ slot "z" w3 = Some ([VObj 1 3], VObj 9 30)
    ∧ x_files (w_ext w3) !! "z.pkl" = Some ([VObj 1 3], VObj 9 30)
    ∧ calls (w_trace w3) = 1%nat.
Proof.
  edestruct (pickled_get_computes_and_writes sample_key_hash sample_format pickled_z z_method
               "z.pkl" "z.pkl" "z.pkl" (VObj 9 30) new_owner)
    as (w3 & Hrun & Hslot & Hfiles & _ & Hcalls).
  - reflexivity.
  - reflexivity.
  - exact new_owner_per_key_locks.
  - reflexivity.
  - intros x Hin. apply list_elem_of_singleton in Hin as ->. by eexists.
  - reflexivity.
  - reflexivity.
  - reflexivity.
  - intros x Hin. apply list_elem_of_singleton in Hin as ->. by eexists.
  - reflexivity.
  - exists w3. split; [exact Hrun|]. split; [exact Hslot|]. split; [|exact Hcalls].
    rewrite Hfiles. apply lookup_insert_eq.
Defined.

Lemma pickled_delete_removes_file_and_slot_witness :
  ∃ w',
    cached_property__delete__ sample_key_hash plain_getattr sample_format pickled_z
      owner_with_file = (Ok tt, w')
    ∧ x_files (w_ext w') = ∅
    ∧ slot "z" w' = None.
Proof.
  destruct (pickled_delete_removes_file_and_slot sample_key_hash sample_format pickled_z
              z_method "z.pkl" "z.pkl" owner_with_file eq_refl eq_refl)
    as (w' & Hrun & Hd & Hfiles & _).
  - intros s Hs. discriminate Hs.
  - intros x Hin. apply list_elem_of_singleton in Hin as ->. by eexists.
  - reflexivity.
  - exists w'. split; [exact Hrun|]. split.
    + rewrite Hfiles. apply delete_singleton_eq.
    + unfold slot. rewrite Hd. apply lookup_delete_eq.
Defined.

Lemma pickled_get_loads_valid_file_witness :
  ∃ w3,
    __get__ sample_key_hash plain_getattr sample_format pickled_z false owner_with_file
    = (Ok (GotValue (VObj 9 30)), w3)
    ∧ slot "z" w3 = Some ([VObj 2 3], VObj 9 30)
    ∧ calls (w_trace w3) = 0%nat.
Proof.
  destruct (pickled_get_loads_valid_file sample_key_hash sample_format pickled_z z_method
              "z.pkl" "z.pkl" [VObj 1 3] [VObj 2 3] (VObj 9 30) owner_with_file
              eq_refl eq_refl) as (w3 & Hrun & Hslot & _ & Hcalls).
  - intros s Hs. discriminate Hs.
  - reflexivity.
  - intros w' Hx. unfold dependency_values. cbn [dependencies pickled_z getattr_all].
    unfold bind, plain_getattr, ret. rewrite Hx. reflexivity.
  - reflexivity.
  - reflexivity.
  - reflexivity.
  - exists w3. split; [exact Hrun|]. split; [exact Hslot|exact Hcalls].
Defined.

Lemma singleton_constructs_once_witness :
  ∃ w3,
    Singleton__call__ Z build_instance 3 (Singleton__init__ new_singleton).2 = (Ok (Some 3), w3)
    ∧ Singleton__call__ Z build_instance 4 w3 = (Ok (Some 3), w3).
Proof.
  destruct (singleton_constructs_once Z build_instance 3 (Singleton__init__ new_singleton).2
              eq_refl) as (_ & Hbuilt & _).
  destruct (Hbuilt 3 _ eq_refl) as (w3 & Hrun & _ & _ & Hlater).
  exists w3. split; [exact Hrun|exact (Hlater 4)].
Defined.

Lemma concurrent_calls_are_safe_witness :
  (Threads.run count_and_answer (replicate 13 0%nat ++ replicate 4 1%nat)
     (Threads.start 2 no_stores)).1 !! 1%nat = Some Threads.LockKey
  ∧ (Threads.run count_and_answer (replicate 13 0%nat ++ replicate 4 1%nat)
       (Threads.start 2 no_stores)).1 !! 0%nat ≠ Some Threads.Failed.
Proof.
  split; [reflexivity|].
  destruct (concurrent_calls_are_safe count_and_answer 2
              (Threads.run count_and_answer (replicate 13 0%nat ++ replicate 4 1%nat)
                 (Threads.start 2 no_stores))) as [Hsafe _].
  - exists no_stores. split; [by repeat split|apply run_reachable].
  - exact (Hsafe 0%nat).
Defined.
